(** * Skadi decision engine: anomaly thresholds, hysteresis filter,
      candidate ranking, guardrails and the two control loops.

    A shallow embedding of [mms/filter.py], [ims/train.py], [ims/score.py],
    [optimizer/policies.py], [optimizer/fast_loop.py],
    [optimizer/slow_loop.py] and the manual tick of
    [api/routes_optimizer.py].

    Numbers.  Python floats are read as exact rationals ([Q]): every
    comparison and every arithmetic step of the source is kept, rounding
    and NaN are not.  Python ints are [Z].  Equality of floats ([==]) is
    [Qeq_bool]; statements about computed values use [==] on [Q].

    Dictionaries read with [.get(key, default)] are records of optional
    fields together with the default of each reading site.  The settings
    singleton of [core/config.py] is an explicit argument. *)

From Stdlib Require Import QArith ZArith Lia Lqa Qround Qabs.
From stdpp Require Import base gmap strings list pretty.

Open Scope Q_scope.

(** ** Comparisons on rationals as the source writes them *)

(** [x < y] as a boolean test. *)
Definition Qltb (x y : Q) : bool := negb (Qle_bool y x).

(** ** core/config.py *)

Module Config.

(** The fields of [Settings] that the decision engine reads. *)
Record Settings := {
  global_kill_switch : bool;
  write_rate_limit_s : Z;
  sla_latency_ms : Q;
  inlet_max_c : Q;
  rack_kw_cap : Q;
  ims_tau_fast_percentile : Z;
  ims_tau_persist_percentile : Z;
  mms_ema_alpha : Q;
  mms_persist_ticks : Z;
  ims_kmeans_clusters : Z
}.

(** The [Field(default=...)] values. *)
Definition default_settings : Settings := {|
  global_kill_switch := false;
  write_rate_limit_s := 120;
  sla_latency_ms := 250.0;
  inlet_max_c := 28.0;
  rack_kw_cap := 12.0;
  ims_tau_fast_percentile := 95;
  ims_tau_persist_percentile := 98;
  mms_ema_alpha := 0.3;
  mms_persist_ticks := 6;
  ims_kmeans_clusters := 8
|}.

End Config.

(** ** mms/filter.py *)

Module MMS.

(** The dictionary [update] returns and stores in the history.  The
    early return of the thresholds-not-set path has no counter keys. *)
Record UpdateResult := {
  r_ema : Q;
  r_state : string;
  r_raw_deviation : Q;
  r_consecutive_high : option Z;
  r_consecutive_low : option Z
}.

(** The attributes of an [MMSFilter] instance.  [state] is a Python
    string, so that it only ever holds one of two values is a property
    of the methods, proved below, not of the type. *)
Record MMSFilter := {
  alpha : Q;
  persist_ticks : Z;
  tau_fast : option Q;
  tau_persist : option Q;
  ema : Q;
  state : string;
  consecutive_high : Z;
  consecutive_low : Z;
  history : list UpdateResult
}.

(** [deque(maxlen=100).append]: a full deque drops its oldest entry. *)
Definition history_maxlen : nat := 100.

Definition deque_append (h : list UpdateResult) (r : UpdateResult)
  : list UpdateResult :=
  if (history_maxlen <=? length h)%nat then tail h ++ [r] else h ++ [r].

(** [alpha or settings.mms_ema_alpha]: [None] and [0.0] are falsy. *)
Definition alpha_or (a : option Q) (dflt : Q) : Q :=
  match a with
  | Some x => if Qeq_bool x 0 then dflt else x
  | None => dflt
  end.

(** [persist_ticks or settings.mms_persist_ticks]: [None] and [0] are
    falsy. *)
Definition ticks_or (p : option Z) (dflt : Z) : Z :=
  match p with
  | Some x => if (x =? 0)%Z then dflt else x
  | None => dflt
  end.

(** [MMSFilter.__init__]. *)
Definition init (cfg : Config.Settings) (a : option Q) (p : option Z)
    (tf tp : option Q) : MMSFilter := {|
  alpha := alpha_or a (Config.mms_ema_alpha cfg);
  persist_ticks := ticks_or p (Config.mms_persist_ticks cfg);
  tau_fast := tf;
  tau_persist := tp;
  ema := 0.0;
  state := "transient";
  consecutive_high := 0;
  consecutive_low := 0;
  history := []
|}.

(** [MMSFilter.update_thresholds]. *)
Definition update_thresholds (f : MMSFilter) (tf tp : Q) : MMSFilter := {|
  alpha := alpha f;
  persist_ticks := persist_ticks f;
  tau_fast := Some tf;
  tau_persist := Some tp;
  ema := ema f;
  state := state f;
  consecutive_high := consecutive_high f;
  consecutive_low := consecutive_low f;
  history := history f
|}.

(** [MMSFilter.reset]. *)
Definition reset (f : MMSFilter) : MMSFilter := {|
  alpha := alpha f;
  persist_ticks := persist_ticks f;
  tau_fast := tau_fast f;
  tau_persist := tau_persist f;
  ema := 0.0;
  state := "transient";
  consecutive_high := 0;
  consecutive_low := 0;
  history := []
|}.

(** The EMA step: [if self.ema == 0.0: ... else: ...].  The product and
    the sum are taken exactly; the rounding of the float expression is
    not modelled, so the smoothed value is used below only through the
    comparisons the code makes with it, or at inputs where the float
    expression is exact. *)
Definition next_ema (f : MMSFilter) (deviation : Q) : Q :=
  if Qeq_bool (ema f) 0.0 then deviation
  else alpha f * deviation + (1 - alpha f) * ema f.

(** The counters after the EMA step, [(consecutive_high,
    consecutive_low)]. *)
Definition next_counters (f : MMSFilter) (tf tp e : Q) : Z * Z :=
  if Qltb tp e then ((consecutive_high f + 1)%Z, 0%Z)
  else (0%Z, if Qltb e tf then (consecutive_low f + 1)%Z else 0%Z).

(** The hysteresis step on the new counters. *)
Definition next_state (f : MMSFilter) (high low : Z) : string :=
  if String.eqb (state f) "transient" then
    if (persist_ticks f <=? high)%Z then "persistent" else state f
  else
    if (persist_ticks f <=? low)%Z then "transient" else state f.

(** [MMSFilter.update]: the filter after the call and the returned
    dictionary. *)
Definition update (f : MMSFilter) (deviation : Q)
  : MMSFilter * UpdateResult :=
  match tau_fast f, tau_persist f with
  | Some tf, Some tp =>
      let e := next_ema f deviation in
      let hl := next_counters f tf tp e in
      let s := next_state f (fst hl) (snd hl) in
      let result := {|
        r_ema := e;
        r_state := s;
        r_raw_deviation := deviation;
        r_consecutive_high := Some (fst hl);
        r_consecutive_low := Some (snd hl)
      |} in
      ({| alpha := alpha f;
          persist_ticks := persist_ticks f;
          tau_fast := tau_fast f;
          tau_persist := tau_persist f;
          ema := e;
          state := s;
          consecutive_high := fst hl;
          consecutive_low := snd hl;
          history := deque_append (history f) result |},
       result)
  | _, _ =>
      (f, {| r_ema := deviation;
             r_state := "transient";
             r_raw_deviation := deviation;
             r_consecutive_high := None;
             r_consecutive_low := None |})
  end.

(** [MMSFilter.get_state], without the history length. *)
Definition get_state (f : MMSFilter) : Q * string * Z * Z :=
  (ema f, state f, consecutive_high f, consecutive_low f).

(** Feeding a sequence of deviations, one [update] each. *)
Fixpoint feed (f : MMSFilter) (ds : list Q) : MMSFilter :=
  match ds with
  | [] => f
  | d :: ds' => feed (fst (update f d)) ds'
  end.

(** The filters a program can hold: built by the constructor and then
    driven through the three mutating methods. *)
Inductive reachable (cfg : Config.Settings) : MMSFilter -> Prop :=
| reach_init a p tf tp : reachable cfg (init cfg a p tf tp)
| reach_update f d : reachable cfg f -> reachable cfg (fst (update f d))
| reach_thresholds f tf tp :
    reachable cfg f -> reachable cfg (update_thresholds f tf tp)
| reach_reset f : reachable cfg f -> reachable cfg (reset f).

Definition thresholds_set (f : MMSFilter) : Prop :=
  is_Some (tau_fast f) /\ is_Some (tau_persist f).

(** The filter of the hysteresis scenario: [persist_ticks=6],
    [alpha=0.3], [tau_fast=1.0], [tau_persist=2.0]. *)
Definition scenario_filter : MMSFilter :=
  init Config.default_settings (Some 0.3) (Some 6%Z) (Some 1.0) (Some 2.0).

(** With a positive tick count, the counter that would trigger the next
    flip is always strictly below the tick count. *)
Definition counters_below (f : MMSFilter) : Prop :=
  (state f = "transient" -> (consecutive_high f < persist_ticks f)%Z) /\
  (state f = "persistent" -> (consecutive_low f < persist_ticks f)%Z).

(** The scenario filter once the EMA has come back under [tau_persist]:
    it can no longer count towards a flip while 0.1 is fed. *)
Definition settled (f : MMSFilter) : Prop :=
  alpha f == 0.3 /\ persist_ticks f = 6%Z /\
  tau_fast f = Some 1.0 /\ tau_persist f = Some 2.0 /\
  state f = "transient" /\ ema f <= 2.0.

(** The dictionaries a sequence of [update] calls returns, in call
    order. *)
Fixpoint results (f : MMSFilter) (ds : list Q) : list UpdateResult :=
  match ds with
  | [] => []
  | d :: ds' => snd (update f d) :: results (fst (update f d)) ds'
  end.

(** The last [n] entries of a list. *)
Definition last_n {A : Type} (n : nat) (l : list A) : list A :=
  drop (length l - n) l.

End MMS.

(** ** Sorting as [sorted(..., key=...)] and [numpy.sort] do

    Python's [sorted] is stable, with [reverse=True] too: elements with
    equal keys keep their input order.  The result of a stable sort is
    determined by the input and the keys alone, so insertion from the
    right, each element placed before the first one it does not have to
    follow, computes it. *)

(** [x] has to come strictly before [c]. *)
Definition strictly_before {A : Type} (key : A -> Q) (reverse : bool)
    (x c : A) : bool :=
  if reverse then Qltb (key c) (key x) else Qltb (key x) (key c).

Fixpoint insert_by {A : Type} (key : A -> Q) (reverse : bool)
    (c : A) (l : list A) : list A :=
  match l with
  | [] => [c]
  | x :: l' =>
      if strictly_before key reverse x c
      then x :: insert_by key reverse c l'
      else c :: x :: l'
  end.

Fixpoint sorted {A : Type} (key : A -> Q) (reverse : bool)
    (l : list A) : list A :=
  match l with
  | [] => []
  | c :: l' => insert_by key reverse c (sorted key reverse l')
  end.

(** [y] may stand after [x]: its key is not larger (descending) or not
    smaller (ascending). *)
Definition may_follow {A : Type} (key : A -> Q) (reverse : bool)
    (x y : A) : Prop :=
  if reverse then key y <= key x else key x <= key y.

(** A list is in the order [sorted] promises: every element may follow
    all those before it. *)
Inductive in_order {A : Type} (key : A -> Q) (reverse : bool)
  : list A -> Prop :=
| in_order_nil : in_order key reverse []
| in_order_cons x l :
    Forall (may_follow key reverse x) l ->
    in_order key reverse l ->
    in_order key reverse (x :: l).

(** The elements of [l] whose key equals [v], in the order they have in
    [l]. *)
Fixpoint with_key {A : Type} (key : A -> Q) (v : Q) (l : list A) : list A :=
  match l with
  | [] => []
  | x :: l' =>
      if Qeq_bool (key x) v then x :: with_key key v l' else with_key key v l'
  end.

(** ** optimizer/policies.py *)

Module Policy.

(** A value of the [params] dictionary. *)
Inductive ParamValue :=
| PInt (z : Z)
| PFloat (q : Q)
| PStrList (l : list string).

(** The dataclass [ActionCandidate].  [score] is the attribute that
    [rank_candidates] adds to the object; it is absent before. *)
Record ActionCandidate := {
  action : string;
  params : list (string * ParamValue);
  target : string;
  pred_saving_pct : Q;
  pred_latency_impact_ms : Q;
  pred_inlet_change_c : Q;
  risk_score : Q;
  reason : string;
  score : option Q
}.

(** The [current_state] dictionary: every key may be missing. *)
Record CurrentState := {
  avg_inlet_c : option Q;
  max_inlet_c : option Q;
  avg_latency_ms : option Q;
  j_per_prompt_wh : option Q;
  ims_deviation : option Q;
  mms_state : option string;
  tau_fast : option Q;
  tau_persist : option Q;
  rack_temperatures : option (list (string * Q));
  recent_rollback : option bool
}.

(** [ACTION_TYPES]: the parameter magnitudes each family enumerates.  A
    float magnitude carries the text Python prints for it. *)
Definition batch_delta_ms : list Z := [20; 30; 40]%Z.
Definition fan_delta_pct : list Z := [-3; -4; -5]%Z.
Definition supply_delta_c : list (Q * string) := [(0.5, "0.5"); (1.0, "1.0")].
Definition shift_traffic_pct : list Z := [10; 15; 20; 25]%Z.
Definition pause_priority_threshold : list Z := [3; 4]%Z.
Definition pump_delta_pct : list Z := [3; 5]%Z.

(** 1. Batch window increases. *)
Definition batch_window_candidates (cfg : Config.Settings) (lat : Q)
  : list ActionCandidate :=
  if Qltb lat (Config.sla_latency_ms cfg * 0.85) then
    flat_map (fun delta : Z =>
      let latency_impact := inject_Z delta * 0.4 in
      if Qltb (lat + latency_impact) (Config.sla_latency_ms cfg) then
        [{| action := "increase_batch_window";
            params := [("delta_ms", PInt delta)];
            target := "system";
            pred_saving_pct := inject_Z delta * 0.2;
            pred_latency_impact_ms := latency_impact;
            pred_inlet_change_c := 0.1;
            risk_score := 0.2;
            reason := "Increase batch window by " ++ pretty delta
                      ++ "ms to improve throughput efficiency";
            score := None |}]
      else []) batch_delta_ms
  else [].

(** 2. Fan RPM reduction. *)
Definition fan_rpm_candidates (cfg : Config.Settings) (max_inlet margin : Q)
  : list ActionCandidate :=
  if Qltb 2.0 margin then
    flat_map (fun delta_pct : Z =>
      let temp_increase := inject_Z (Z.abs delta_pct) * 0.15 in
      if Qltb (max_inlet + temp_increase) (Config.inlet_max_c cfg) then
        [{| action := "decrease_fan_rpm";
            params := [("delta_pct", PInt delta_pct)];
            target := "system";
            pred_saving_pct := inject_Z (Z.abs delta_pct) * 1.2;
            pred_latency_impact_ms := 0.0;
            pred_inlet_change_c := temp_increase;
            risk_score := 0.3;
            reason := "Reduce fan RPM by " ++ pretty (Z.abs delta_pct)
                      ++ "% (safe thermal margin)";
            score := None |}]
      else []) fan_delta_pct
  else [].

(** 3. Supply temperature increase. *)
Definition supply_temp_candidates (cfg : Config.Settings) (avg_inlet margin : Q)
  : list ActionCandidate :=
  if Qltb 3.0 margin then
    flat_map (fun d : Q * string =>
      let delta_c := fst d in
      if Qltb (avg_inlet + delta_c) (Config.inlet_max_c cfg - 1.0) then
        [{| action := "increase_supply_temp";
            params := [("delta_c", PFloat delta_c)];
            target := "system";
            pred_saving_pct := delta_c * 4.0;
            pred_latency_impact_ms := 0.0;
            pred_inlet_change_c := delta_c;
            risk_score := 0.4;
            reason := "Raise supply temp by " ++ snd d
                      ++ "째C to save chiller energy";
            score := None |}]
      else []) supply_delta_c
  else [].

(** [[r for r, t in rack_temps.items() if t < avg_inlet_c - 1.0]]. *)
Definition cool_racks_of (rack_temps : list (string * Q)) (avg_inlet : Q)
  : list string :=
  flat_map (fun rt : string * Q =>
    if Qltb (snd rt) (avg_inlet - 1.0) then [fst rt] else []) rack_temps.

(** 4. Traffic shifting. *)
Definition traffic_shift_candidates (st : CurrentState)
    (avg_inlet deviation : Q) (mms : string) : list ActionCandidate :=
  if Qltb 0.5 deviation || String.eqb mms "persistent" then
    match default [] (rack_temperatures st) with
    | [] => []
    | rack_temps =>
        match cool_racks_of rack_temps avg_inlet with
        | [] => []
        | cool_racks =>
            map (fun traffic_pct : Z =>
              {| action := "shift_traffic_to_cool_row";
                 params := [("traffic_pct", PInt traffic_pct);
                            ("target_racks", PStrList (take 3 cool_racks))];
                 target := "routing";
                 pred_saving_pct := inject_Z traffic_pct * 0.15;
                 pred_latency_impact_ms := 5.0;
                 pred_inlet_change_c := -0.3;
                 risk_score := 0.25;
                 reason := "Shift " ++ pretty traffic_pct
                   ++ "% traffic to cooler racks to balance thermal load";
                 score := None |}) shift_traffic_pct
        end
    end
  else [].

(** 5. Pause low-priority jobs. *)
Definition pause_jobs_candidates (mms : string) : list ActionCandidate :=
  if String.eqb mms "persistent" then
    map (fun priority_thresh : Z =>
      {| action := "pause_low_priority_jobs";
         params := [("priority_threshold", PInt priority_thresh);
                    ("max_pause_pct", PInt 10)];
         target := "scheduler";
         pred_saving_pct := 8.0;
         pred_latency_impact_ms := -20.0;
         pred_inlet_change_c := -1.5;
         risk_score := 0.7;
         reason := "Pause priority>=" ++ pretty priority_thresh
                   ++ " jobs to reduce thermal stress";
         score := None |}) pause_priority_threshold
  else [].

(** 6. Pump speed increase. *)
Definition pump_candidates (cfg : Config.Settings) (max_inlet : Q)
  : list ActionCandidate :=
  if Qltb (Config.inlet_max_c cfg - 1.0) max_inlet then
    map (fun delta_pct : Z =>
      {| action := "increase_cdu_pump";
         params := [("delta_pct", PInt delta_pct)];
         target := "cooling";
         pred_saving_pct := inject_Z (- delta_pct) * 0.5;
         pred_latency_impact_ms := 0.0;
         pred_inlet_change_c := -0.4;
         risk_score := 0.35;
         reason := "Increase pump " ++ pretty delta_pct
                   ++ "% to improve coolant circulation";
         score := None |}) pump_delta_pct
  else [].

(** [ActionPolicy.generate_candidates].  The body never reads
    [objective]. *)
Definition generate_candidates (cfg : Config.Settings) (st : CurrentState)
    (objective : string) : list ActionCandidate :=
  let avg_inlet := default 22.0 (avg_inlet_c st) in
  let max_inlet := default 26.0 (max_inlet_c st) in
  let lat := default 180 (avg_latency_ms st) in
  let deviation := default 0.0 (ims_deviation st) in
  let mms := default "transient" (mms_state st) in
  let inlet_margin_c := Config.inlet_max_c cfg - max_inlet in
  batch_window_candidates cfg lat
  ++ fan_rpm_candidates cfg max_inlet inlet_margin_c
  ++ supply_temp_candidates cfg avg_inlet inlet_margin_c
  ++ traffic_shift_candidates st avg_inlet deviation mms
  ++ pause_jobs_candidates mms
  ++ pump_candidates cfg max_inlet.

(** The [weights] dictionary of [rank_candidates]. *)
Record Weights := {
  w_saving_pct : Q;
  w_risk_score : Q;
  w_latency_impact : Q
}.

Definition default_weights : Weights := {|
  w_saving_pct := 1.0;
  w_risk_score := -0.8;
  w_latency_impact := -0.3
|}.

(** The score computed in the loop of [rank_candidates]. *)
Definition composite_score (w : Weights) (c : ActionCandidate) : Q :=
  w_saving_pct w * pred_saving_pct c
  + w_risk_score w * risk_score c
  + w_latency_impact w * Qabs (pred_latency_impact_ms c) / 100.0.

(** [candidate.score = score]: the same object with the attribute set. *)
Definition set_score (c : ActionCandidate) (s : Q) : ActionCandidate := {|
  action := action c;
  params := params c;
  target := target c;
  pred_saving_pct := pred_saving_pct c;
  pred_latency_impact_ms := pred_latency_impact_ms c;
  pred_inlet_change_c := pred_inlet_change_c c;
  risk_score := risk_score c;
  reason := reason c;
  score := Some s
|}.

(** The objects of the input list once the scoring loop has run.  The
    list passed in and the list returned hold these same objects. *)
Definition scored (w : Weights) (candidates : list ActionCandidate)
  : list ActionCandidate :=
  map (fun c => set_score c (composite_score w c)) candidates.

(** [lambda c: c.score], read after the loop has set the attribute. *)
Definition score_key (c : ActionCandidate) : Q := default 0 (score c).

(** [ActionPolicy.rank_candidates]. *)
Definition rank_candidates (candidates : list ActionCandidate)
    (weights : option Weights) : list ActionCandidate :=
  match candidates with
  | [] => []
  | _ =>
      let w := default default_weights weights in
      sorted score_key true (scored w candidates)
  end.

(** The candidate as the caller built it, before any ranking. *)
Definition unscored (c : ActionCandidate) : ActionCandidate := {|
  action := action c;
  params := params c;
  target := target c;
  pred_saving_pct := pred_saving_pct c;
  pred_latency_impact_ms := pred_latency_impact_ms c;
  pred_inlet_change_c := pred_inlet_change_c c;
  risk_score := risk_score c;
  reason := reason c;
  score := None
|}.

(** The score as the specification writes it, weights counted as penalties:
    [w_save * savings - w_risk * risk - w_lat * |latency| / 100]. *)
Definition penalty_score (w_save w_risk w_lat : Q) (c : ActionCandidate) : Q :=
  w_save * pred_saving_pct c - w_risk * risk_score c
  - w_lat * Qabs (pred_latency_impact_ms c) / 100.0.

(** The dictionary that gives [penalty_score]. *)
Definition penalty_weights (w_save w_risk w_lat : Q) : Weights := {|
  w_saving_pct := w_save;
  w_risk_score := - w_risk;
  w_latency_impact := - w_lat
|}.

End Policy.

(** ** The two loop controllers *)

Module Loops.
Import Policy.

(** The readings of [datetime.utcnow()] one call makes, in seconds: the
    one the elapsed time is computed from, the one stored in
    [last_action_ts], and the one written into the proposal. *)
Record Clock := {
  t_check : Q;
  t_store : Q;
  t_ts : Q
}.

(** One item of the proposal's reason text.  The text itself is a
    rendering of these values. *)
Inductive ReasonPart :=
| DeviationAboveTauFast (deviation tau_fast : Q)
| MmsStateIsPersistent
| InletNearLimit (max_inlet_c : Q)
| CandidateReason (text : string).

(** The proposal dictionary.  Only the slow loop fills
    [pred_latency_impact_ms]. *)
Record Proposal := {
  p_action : string;
  p_params : list (string * ParamValue);
  p_target : string;
  p_pred_saving_pct : Q;
  p_pred_latency_impact_ms : option Q;
  p_reason : list ReasonPart;
  p_loop : string;
  p_ts : Q
}.

(** [f"{best.action}:{best.target}"]. *)
Definition target_key (best : ActionCandidate) : string :=
  action best ++ ":" ++ target best.

Definition proposal_key (p : Proposal) : string :=
  p_action p ++ ":" ++ p_target p.

(** The rate-limit test both loops make: the key is in the map and less
    than [window] seconds have elapsed since its timestamp. *)
Definition rate_limited (last_action_ts : gmap string Q) (key : string)
    (now window : Q) : bool :=
  match last_action_ts !! key with
  | Some last => Qltb (now - last) window
  | None => false
  end.

(** *** optimizer/slow_loop.py *)

Record SlowOptimizerLoop := {
  slow_last_action_ts : gmap string Q
}.

(** [SlowOptimizerLoop.__init__]. *)
Definition slow_init : SlowOptimizerLoop :=
  {| slow_last_action_ts := ∅ |}.

(** The body of the loop of [_apply_guardrails]: [true] when one of the
    four [continue] statements is reached. *)
Definition rejected (cfg : Config.Settings) (st : CurrentState)
    (candidate : ActionCandidate) : bool :=
  let max_inlet := default 22.0 (max_inlet_c st) in
  let lat := default 180 (avg_latency_ms st) in
  let deviation := default 0.0 (ims_deviation st) in
  let tp := default 2.0 (tau_persist st) in
  if Qltb (Config.inlet_max_c cfg) (max_inlet + pred_inlet_change_c candidate)
  then true
  else if Qltb (Config.sla_latency_ms cfg)
            (lat + pred_latency_impact_ms candidate)
  then true
  else if Qltb 1.0 (pred_inlet_change_c candidate)
          && Qltb (tp * 0.7) deviation
  then true
  else if Qltb 0.6 (risk_score candidate)
          && default false (recent_rollback st)
  then true
  else false.

(** [SlowOptimizerLoop._apply_guardrails]; the forecaster argument is
    never read. *)
Fixpoint _apply_guardrails (cfg : Config.Settings)
    (candidates : list ActionCandidate) (st : CurrentState)
  : list ActionCandidate :=
  match candidates with
  | [] => []
  | candidate :: rest =>
      if rejected cfg st candidate
      then _apply_guardrails cfg rest st
      else candidate :: _apply_guardrails cfg rest st
  end.

(** [optimize] up to [best = ranked[0]]: the candidate the rate limit is
    then checked for, or [None] where [optimize] has returned [None]
    before. *)
Definition slow_best (cfg : Config.Settings) (st : CurrentState)
  : option ActionCandidate :=
  if Config.global_kill_switch cfg then None
  else
    let mms := default "transient" (mms_state st) in
    let lat := default 180 (avg_latency_ms st) in
    if String.eqb mms "persistent" then None
    else if Qltb (Config.sla_latency_ms cfg * 0.95) lat then None
    else
      match generate_candidates cfg st "reduce_j_per_prompt" with
      | [] => None
      | candidates =>
          match _apply_guardrails cfg candidates st with
          | [] => None
          | safe_candidates => head (rank_candidates safe_candidates None)
          end
      end.

(** [SlowOptimizerLoop.optimize]: the controller after the call and the
    returned proposal. *)
Definition optimize (cfg : Config.Settings) (self : SlowOptimizerLoop)
    (st : CurrentState) (clk : Clock)
  : SlowOptimizerLoop * option Proposal :=
  match slow_best cfg st with
  | None => (self, None)
  | Some best =>
      if rate_limited (slow_last_action_ts self) (target_key best)
           (t_check clk) (inject_Z (Config.write_rate_limit_s cfg))
      then (self, None)
      else
        ({| slow_last_action_ts :=
              <[target_key best := t_store clk]> (slow_last_action_ts self) |},
         Some {| p_action := action best;
                 p_params := params best;
                 p_target := target best;
                 p_pred_saving_pct := pred_saving_pct best;
                 p_pred_latency_impact_ms :=
                   Some (pred_latency_impact_ms best);
                 p_reason := [CandidateReason (reason best)];
                 p_loop := "slow";
                 p_ts := t_ts clk |})
  end.

(** *** optimizer/fast_loop.py *)

Record FastGuardrailLoop := {
  fast_last_action_ts : gmap string Q
}.

(** [FastGuardrailLoop.__init__]. *)
Definition fast_init : FastGuardrailLoop :=
  {| fast_last_action_ts := ∅ |}.

(** The rate-limit window written into [evaluate]. *)
Definition fast_rate_limit_s : Q := 60.

(** The trigger conditions, as the list [reason] they fill;
    [needs_action] is set exactly when the list is not empty. *)
Definition fast_triggers (cfg : Config.Settings) (st : CurrentState)
  : list ReasonPart :=
  let deviation := default 0.0 (ims_deviation st) in
  let mms := default "transient" (mms_state st) in
  let tf := default 1.0 (tau_fast st) in
  let max_inlet := default 22.0 (max_inlet_c st) in
  (if Qltb tf deviation then [DeviationAboveTauFast deviation tf] else [])
  ++ (if String.eqb mms "persistent" then [MmsStateIsPersistent] else [])
  ++ (if Qltb (Config.inlet_max_c cfg - 0.5) max_inlet
      then [InletNearLimit max_inlet] else []).

(** [[c for c in candidates if c.risk_score < 0.5]], falling back to all
    candidates when none is left. *)
Definition low_risk_or_all (candidates : list ActionCandidate)
  : list ActionCandidate :=
  match List.filter (fun c => Qltb (risk_score c) 0.5) candidates with
  | [] => candidates
  | safe_candidates => safe_candidates
  end.

(** [evaluate] up to [best = ranked[0]]: the trigger reasons and the
    candidate the rate limit is then checked for. *)
Definition fast_best (cfg : Config.Settings) (st : CurrentState)
  : option (list ReasonPart * ActionCandidate) :=
  if Config.global_kill_switch cfg then None
  else
    match fast_triggers cfg st with
    | [] => None
    | reasons =>
        match generate_candidates cfg st "stabilize" with
        | [] => None
        | candidates =>
            match rank_candidates (low_risk_or_all candidates) None with
            | [] => None
            | best :: _ => Some (reasons, best)
            end
        end
    end.

(** [FastGuardrailLoop.evaluate]: the controller after the call and the
    returned proposal. *)
Definition evaluate (cfg : Config.Settings) (self : FastGuardrailLoop)
    (st : CurrentState) (clk : Clock)
  : FastGuardrailLoop * option Proposal :=
  match fast_best cfg st with
  | None => (self, None)
  | Some (reasons, best) =>
      if rate_limited (fast_last_action_ts self) (target_key best)
           (t_check clk) fast_rate_limit_s
      then (self, None)
      else
        ({| fast_last_action_ts :=
              <[target_key best := t_store clk]> (fast_last_action_ts self) |},
         Some {| p_action := action best;
                 p_params := params best;
                 p_target := target best;
                 p_pred_saving_pct := pred_saving_pct best;
                 p_pred_latency_impact_ms := None;
                 p_reason := reasons ++ [CandidateReason (reason best)];
                 p_loop := "fast";
                 p_ts := t_ts clk |})
  end.

(** *** api/app.py: the two scheduled tasks

    Each task builds its own controller and is the only caller of it. *)
Record Controllers := {
  fast_loop : FastGuardrailLoop;
  slow_loop : SlowOptimizerLoop
}.

Definition controllers_init : Controllers :=
  {| fast_loop := fast_init; slow_loop := slow_init |}.

(** One tick of the fast task. *)
Definition fast_tick (cfg : Config.Settings) (cs : Controllers)
    (st : CurrentState) (clk : Clock) : Controllers * option Proposal :=
  let r := evaluate cfg (fast_loop cs) st clk in
  ({| fast_loop := fst r; slow_loop := slow_loop cs |}, snd r).

(** One tick of the slow task. *)
Definition slow_tick (cfg : Config.Settings) (cs : Controllers)
    (st : CurrentState) (clk : Clock) : Controllers * option Proposal :=
  let r := optimize cfg (slow_loop cs) st clk in
  ({| fast_loop := fast_loop cs; slow_loop := fst r |}, snd r).

(** *** States and candidates used as worked examples *)

(** A state close to the inlet limit, stable and with latency margin. *)
Definition warm_state : CurrentState := {|
  avg_inlet_c := Some 23.0;
  max_inlet_c := Some 27.5;
  avg_latency_ms := Some 180;
  j_per_prompt_wh := Some 0.55;
  ims_deviation := Some 0.3;
  mms_state := Some "transient";
  tau_fast := Some 1.0;
  tau_persist := Some 1.5;
  rack_temperatures := Some [];
  recent_rollback := Some false
|}.

(** The same state with the filter reporting a persistent anomaly. *)
Definition persistent_state : CurrentState := {|
  avg_inlet_c := Some 23.0;
  max_inlet_c := Some 27.5;
  avg_latency_ms := Some 180;
  j_per_prompt_wh := Some 0.55;
  ims_deviation := Some 0.3;
  mms_state := Some "persistent";
  tau_fast := Some 1.0;
  tau_persist := Some 1.5;
  rack_temperatures := Some [];
  recent_rollback := Some false
|}.

(** A cool, stable state in which the slow loop has candidates. *)
Definition cool_state : CurrentState := {|
  avg_inlet_c := Some 22.0;
  max_inlet_c := Some 24.0;
  avg_latency_ms := Some 180;
  j_per_prompt_wh := Some 0.5;
  ims_deviation := Some 0.3;
  mms_state := Some "transient";
  tau_fast := Some 1.0;
  tau_persist := Some 2.0;
  rack_temperatures := Some [];
  recent_rollback := Some false
|}.

(** A supply-temperature raise of one degree. *)
Definition raise_supply_1c : ActionCandidate := {|
  action := "increase_supply_temp";
  params := [("delta_c", PFloat 1.0)];
  target := "system";
  pred_saving_pct := 4.0;
  pred_latency_impact_ms := 0.0;
  pred_inlet_change_c := 1.0;
  risk_score := 0.4;
  reason := "Raise supply temp";
  score := None
|}.

Definition clock_at (t : Q) : Clock :=
  {| t_check := t; t_store := t; t_ts := t |}.

(** *** api/routes_optimizer.py: the manual tick

    The state is the one [get_current_state] returned; the controller is
    built for the request. *)

(** One entry of the [proposals] list of the response. *)
Record ProposalSummary := {
  s_action : string;
  s_params : list (string * ParamValue);
  s_pred_saving_pct : Q;
  s_reason : string;
  s_risk_score : Q
}.

Definition summary_of (c : ActionCandidate) : ProposalSummary := {|
  s_action := action c;
  s_params := params c;
  s_pred_saving_pct := pred_saving_pct c;
  s_reason := reason c;
  s_risk_score := risk_score c
|}.

(** The response dictionary. *)
Record TickResponse := {
  status : string;
  message : option string;
  proposals : list ProposalSummary;
  picked : option Proposal
}.

(** [run_optimizer_tick]. *)
Definition run_optimizer_tick (cfg : Config.Settings) (st : CurrentState)
    (clk : Clock) : TickResponse :=
  let optimizer := slow_init in
  match snd (optimize cfg optimizer st clk) with
  | None =>
      {| status := "no_action";
         message := Some "No optimization action recommended";
         proposals := [];
         picked := None |}
  | Some proposal =>
      let candidates := generate_candidates cfg st "reduce_j_per_prompt" in
      let ranked := rank_candidates candidates None in
      {| status := "ok";
         message := None;
         proposals := map summary_of (take 5 ranked);
         picked := Some proposal |}
  end.

End Loops.

(** ** ims/train.py and ims/score.py *)

Module IMS.

(** The exceptions these two modules can raise. *)
Inductive Error :=
| KeyError (missing : list string)
| IMSNotTrainedException
| ValueError
| NotFittedError
| TypeError.

(** A call either returns or raises. *)
Inductive Result (A : Type) :=
| Ok (a : A)
| Raise (e : Error).
Arguments Ok {A} a.
Arguments Raise {A} e.

#[global] Instance result_ret : MRet Result := fun A a => Ok a.
#[global] Instance result_bind : MBind Result := fun A B f r =>
  match r with
  | Ok a => f a
  | Raise e => Raise e
  end.

(** [mapM] written out for [Result]: the first failure is the result. *)
Fixpoint collect {A B : Type} (f : A -> Result B) (l : list A)
  : Result (list B) :=
  match l with
  | [] => Ok []
  | x :: l' => y ← f x; ys ← collect f l'; Ok (y :: ys)
  end.

(** A telemetry sample, [Dict[str, float]], is a [gmap string Q].  A
    pandas frame of numbers is its column labels and its rows; a row that
    has no entry for a column holds NaN there. *)
Record DataFrame := {
  columns : gset string;
  rows : list (gmap string Q)
}.

(** [pd.DataFrame(samples)] for a list of dictionaries: the columns are
    all keys that occur, and a sample without a key gets NaN. *)
Definition DataFrame_of (samples : list (gmap string Q)) : DataFrame :=
  {| columns := ⋃ (dom <$> samples); rows := samples |}.

Definition has_column (df : DataFrame) (c : string) : bool :=
  bool_decide (c ∈ columns df).

(** [IMSTrainer.FEATURE_COLUMNS]. *)
Definition FEATURE_COLUMNS : list string :=
  ["inlet_c"; "outlet_c"; "delta_t"; "pdu_kw"; "gpu_power_kw"; "tokens_ps";
   "latency_p95_ms"; "queue_depth"; "fan_rpm_pct"; "pump_rpm_pct"].

(** [df['delta_t'] = df['outlet_c'] - df['inlet_c']], row by row; NaN
    where an operand is NaN. *)
Definition with_delta_t (r : gmap string Q) : gmap string Q :=
  match r !! "outlet_c", r !! "inlet_c" with
  | Some o, Some i => <["delta_t" := o - i]> r
  | _, _ => delete "delta_t" r
  end.

(** [Series.diff()]: NaN in the first row and wherever an operand is
    NaN. *)
Fixpoint diff (prev : option Q) (xs : list (option Q)) : list (option Q) :=
  match xs with
  | [] => []
  | x :: xs' =>
      (match x, prev with
       | Some a, Some b => Some (a - b)
       | _, _ => None
       end) :: diff x xs'
  end.

(** [df['gpu_energy_j'].diff().fillna(0) / 1000.0]. *)
Definition gpu_power_from_energy (rs : list (gmap string Q)) : list Q :=
  map (fun d => default 0 d / 1000.0)
      (diff None (map (fun r => r !! "gpu_energy_j") rs)).

Fixpoint set_column (c : string) (vs : list Q) (rs : list (gmap string Q))
  : list (gmap string Q) :=
  match rs, vs with
  | r :: rs', v :: vs' => <[c := v]> r :: set_column c vs' rs'
  | _, _ => []
  end.

(** The first step of [prepare_features]. *)
Definition derive_delta_t (df : DataFrame) : Result DataFrame :=
  if has_column df "delta_t" then Ok df
  else if negb (has_column df "outlet_c") then Raise (KeyError ["outlet_c"])
  else if negb (has_column df "inlet_c") then Raise (KeyError ["inlet_c"])
  else Ok {| columns := {["delta_t"]} ∪ columns df;
             rows := map with_delta_t (rows df) |}.

(** The second step of [prepare_features]. *)
Definition derive_gpu_power (df : DataFrame) : DataFrame :=
  if negb (has_column df "gpu_power_kw") && has_column df "gpu_energy_j"
  then {| columns := {["gpu_power_kw"]} ∪ columns df;
          rows := set_column "gpu_power_kw"
                    (gpu_power_from_energy (rows df)) (rows df) |}
  else df.

(** [np.nan_to_num(df[features].values, nan=0.0)]. *)
Definition select_features (features : list string) (df : DataFrame)
  : Result (list (list Q)) :=
  match List.filter (fun f => negb (has_column df f)) features with
  | [] => Ok (map (fun r => map (fun f => default 0 (r !! f)) features)
                  (rows df))
  | missing => Raise (KeyError missing)
  end.

(** [IMSTrainer.prepare_features] for the feature list of the trainer. *)
Definition prepare_features (features : list string) (df : DataFrame)
  : Result (list (list Q)) :=
  df1 ← derive_delta_t df;
  select_features features (derive_gpu_power df1).

(** A comparison on a cell; NaN compares false. *)
Definition cell_test (test : Q -> bool) (c : option Q) : bool :=
  match c with
  | Some v => test v
  | None => false
  end.

(** [a - b] on cells. *)
Definition cell_sub (a b : option Q) : option Q :=
  match a, b with
  | Some x, Some y => Some (x - y)
  | _, _ => None
  end.

(** The mask of [filter_nominal_windows] on one row. *)
Definition nominal_row (cfg : Config.Settings) (has_delta_t : bool)
    (r : gmap string Q) : bool :=
  cell_test (fun v => Qle_bool v (Config.inlet_max_c cfg)) (r !! "inlet_c")
  && cell_test (fun v => Qle_bool v (Config.sla_latency_ms cfg))
       (r !! "latency_p95_ms")
  && (if has_delta_t
      then cell_test (fun v => Qltb 0 v) (r !! "delta_t")
      else cell_test (fun v => Qltb 0 v)
             (cell_sub (r !! "outlet_c") (r !! "inlet_c")))
  && cell_test (fun v => Qltb 2.0 v) (r !! "pdu_kw")
  && cell_test (fun v => Qltb v (Config.rack_kw_cap cfg * 0.95))
       (r !! "pdu_kw").

(** [IMSTrainer.filter_nominal_windows]. *)
Definition filter_nominal_windows (cfg : Config.Settings) (df : DataFrame)
  : Result DataFrame :=
  if negb (has_column df "inlet_c") then Raise (KeyError ["inlet_c"])
  else if negb (has_column df "latency_p95_ms")
  then Raise (KeyError ["latency_p95_ms"])
  else if negb (has_column df "delta_t") && negb (has_column df "outlet_c")
  then Raise (KeyError ["outlet_c"])
  else if negb (has_column df "pdu_kw") then Raise (KeyError ["pdu_kw"])
  else Ok {| columns := columns df;
             rows := List.filter (nominal_row cfg (has_column df "delta_t"))
                       (rows df) |}.

(** Linear interpolation in a sorted array at a virtual index: numpy's
    [_lerp] between the entry at the floor of the index and the next
    one (clipped to the last). *)
Definition lerp_at (arr : list Q) (virtual_index : Q) : Q :=
  let n := Z.of_nat (length arr) in
  let previous_index := Qfloor virtual_index in
  let next_index := Z.min (previous_index + 1) (n - 1) in
  let gamma := virtual_index - inject_Z previous_index in
  let lo := nth (Z.to_nat previous_index) arr 0 in
  let hi := nth (Z.to_nat next_index) arr 0 in
  lo + (hi - lo) * gamma.

(** [numpy.percentile(a, q)] with the default linear method, for a
    non-empty [a]: the sorted array read at the virtual index
    [(n-1) * q/100]. *)
Definition percentile (a : list Q) (q : Z) : Result Q :=
  if (q <? 0)%Z || (100 <? q)%Z then Raise ValueError
  else
    let n := Z.of_nat (length a) in
    Ok (lerp_at (sorted (fun x : Q => x) false a)
                (inject_Z (n - 1) * (inject_Z q / 100))).

(** [np.mean]. *)
Definition mean (a : list Q) : Q :=
  fold_right Qplus 0 a / inject_Z (Z.of_nat (length a)).

(** What [prepare_features] does to each row, as a function of which
    columns the frame has: the row transformation, or the [KeyError]. *)
Definition select_plan (features : list string) (has : string -> bool)
    (g : gmap string Q -> gmap string Q)
  : Result (gmap string Q -> list Q) :=
  match List.filter (fun f => negb (has f)) features with
  | [] => Ok (fun r => map (fun f => default 0 (g r !! f)) features)
  | missing => Raise (KeyError missing)
  end.

Definition row_plan (features : list string) (has : string -> bool)
  : Result (gmap string Q -> list Q) :=
  if has "delta_t" then select_plan features has (fun r => r)
  else if negb (has "outlet_c") then Raise (KeyError ["outlet_c"])
  else if negb (has "inlet_c") then Raise (KeyError ["inlet_c"])
  else select_plan features
         (fun c => String.eqb c "delta_t" || has c) with_delta_t.

(** The minimum number of nominal samples [train] accepts. *)
Definition min_samples : nat := 100.

Section WithSklearn.

(** scikit-learn is outside the repository.  [Model] is a fitted
    [StandardScaler] with a fitted [MiniBatchKMeans]; [fit k X] is
    [scaler.fit_transform(X)] followed by [kmeans.fit]; [deviation m x] is
    [np.min(kmeans.transform(scaler.transform([x])), axis=1)[0]], the
    distance from the standardized row to the nearest centre, computed
    on the one-row matrix [[x]].  [transform m X] is
    [np.min(kmeans.transform(scaler.transform(X)), axis=1)] for a whole
    matrix: one distance per row, computed by the library on the array
    as a whole, so that nothing is assumed here about the distance of a
    row being the same whatever other rows stand beside it. *)
Variable Model : Type.
Variable fit : Z -> list (list Q) -> Model.
Variable deviation : Model -> list Q -> Q.
Variable transform : Model -> list (list Q) -> list Q.

(** The attributes of an [IMSTrainer]; [model] is [None] until the scaler
    and the clustering have been fitted. *)
Record IMSTrainer := {
  n_clusters : Z;
  model : option Model;
  tau_fast : option Q;
  tau_persist : option Q;
  features : list string
}.

(** [IMSTrainer.__init__]; [n_clusters or settings.ims_kmeans_clusters]. *)
Definition trainer_init (cfg : Config.Settings) (k : option Z) : IMSTrainer := {|
  n_clusters := MMS.ticks_or k (Config.ims_kmeans_clusters cfg);
  model := None;
  tau_fast := None;
  tau_persist := None;
  features := FEATURE_COLUMNS
|}.

(** The dictionary [train] returns, without the standard deviation (a
    square root). *)
Record Metrics := {
  training_samples : nat;
  m_n_clusters : Z;
  m_tau_fast : Q;
  m_tau_persist : Q;
  mean_deviation : Q;
  median_deviation : Q
}.

(** [train] up to the feature matrix of the nominal samples. *)
Definition training_matrix (cfg : Config.Settings) (self : IMSTrainer)
    (df : DataFrame) (skip_nominal_filter : bool) : Result (list (list Q)) :=
  nominal_df ← (if skip_nominal_filter then Ok df
                else filter_nominal_windows cfg df);
  if (length (rows nominal_df) <? min_samples)%nat
  then Raise IMSNotTrainedException
  else prepare_features (features self) nominal_df.

(** [_compute_deviations] on the training data: the deviations the
    thresholds are taken from. *)
Definition training_deviations (cfg : Config.Settings) (self : IMSTrainer)
    (df : DataFrame) (skip_nominal_filter : bool) : Result (list Q) :=
  X ← training_matrix cfg self df skip_nominal_filter;
  Ok (map (deviation (fit (n_clusters self) X)) X).

(** [IMSTrainer.train]: the trainer after the call and the metrics. *)
Definition train (cfg : Config.Settings) (self : IMSTrainer)
    (df : DataFrame) (skip_nominal_filter : bool)
  : Result (IMSTrainer * Metrics) :=
  X ← training_matrix cfg self df skip_nominal_filter;
  let m := fit (n_clusters self) X in
  let deviations := map (deviation m) X in
  tf ← percentile deviations (Config.ims_tau_fast_percentile cfg);
  tp ← percentile deviations (Config.ims_tau_persist_percentile cfg);
  med ← percentile deviations 50;
  Ok ({| n_clusters := n_clusters self;
         model := Some m;
         tau_fast := Some tf;
         tau_persist := Some tp;
         features := features self |},
      {| training_samples := length X;
         m_n_clusters := n_clusters self;
         m_tau_fast := tf;
         m_tau_persist := tp;
         mean_deviation := mean deviations;
         median_deviation := med |}).

(** An [IMSScorer] holds the trainer it was built from. *)
Record IMSScorer := {
  trainer : IMSTrainer
}.

(** [IMSScorer.__init__]. *)
Definition scorer_init (t : IMSTrainer) : Result IMSScorer :=
  match tau_fast t, tau_persist t with
  | Some _, Some _ => Ok {| trainer := t |}
  | _, _ => Raise IMSNotTrainedException
  end.

(** [IMSScorer.score_sample]: the frame has one row, the matrix one row,
    and the score is the library's distance for that one-row matrix.  An
    unfitted scaler raises when it is asked to transform. *)
Definition score_sample (s : IMSScorer) (sample : gmap string Q) : Result Q :=
  X ← prepare_features (features (trainer s)) (DataFrame_of [sample]);
  match model (trainer s) with
  | Some m =>
      match X with
      | x :: _ => Ok (deviation m x)
      | [] => Raise ValueError
      end
  | None => Raise NotFittedError
  end.

(** [IMSScorer.score_batch]: the matrix of all samples goes through the
    library in one call. *)
Definition score_batch (s : IMSScorer) (samples : list (gmap string Q))
  : Result (list Q) :=
  match samples with
  | [] => Ok []
  | _ =>
      X ← prepare_features (features (trainer s)) (DataFrame_of samples);
      match model (trainer s) with
      | Some m => Ok (transform m X)
      | None => Raise NotFittedError
      end
  end.

(** [IMSScorer.classify_deviation]; comparing with a missing threshold
    raises. *)
Definition classify_deviation (s : IMSScorer) (d : Q) : Result string :=
  match tau_fast (trainer s) with
  | None => Raise TypeError
  | Some tf =>
      if Qltb d tf then Ok "nominal"
      else
        match tau_persist (trainer s) with
        | None => Raise TypeError
        | Some tp => if Qltb d tp then Ok "warning" else Ok "critical"
        end
  end.

(** The keys that [prepare_features] looks for among the columns. *)
Definition keys_read (features : list string) : list string :=
  ["delta_t"; "outlet_c"; "inlet_c"; "gpu_power_kw"; "gpu_energy_j"]
  ++ features.

(** The samples agree on which of the keys read they carry. *)
Definition same_fields (features : list string)
    (samples : list (gmap string Q)) : Prop :=
  forall k s1 s2, In k (keys_read features) -> In s1 samples ->
    In s2 samples -> (is_Some (s1 !! k) <-> is_Some (s2 !! k)).

(** No power column has to be derived from the cumulative energy. *)
Definition power_not_derived (samples : list (gmap string Q)) : Prop :=
  forall s, In s samples ->
    is_Some (s !! "gpu_power_kw") \/ s !! "gpu_energy_j" = None.

(** The dictionary [save] pickles; [md_model] stands for the [scaler] and
    [kmeans] entries.  Pickling and unpickling return the dictionary as
    it was. *)
Record ModelData := {
  md_model_id : string;
  md_created_at : string;
  md_n_clusters : Z;
  md_tau_fast : option Q;
  md_tau_persist : option Q;
  md_features : list string;
  md_model : option Model
}.

(** [IMSTrainer.save]: the dictionary written to [output_path]. *)
Definition save (self : IMSTrainer) (model_id created_at : string)
  : ModelData := {|
  md_model_id := model_id;
  md_created_at := created_at;
  md_n_clusters := n_clusters self;
  md_tau_fast := tau_fast self;
  md_tau_persist := tau_persist self;
  md_features := features self;
  md_model := model self
|}.

(** [IMSTrainer.load], from the dictionary read at [model_path]: the
    constructor is called with the stored cluster count and the other
    attributes are then overwritten. *)
Definition load (cfg : Config.Settings) (model_data : ModelData)
  : IMSTrainer :=
  let t := trainer_init cfg (Some (md_n_clusters model_data)) in
  {| n_clusters := n_clusters t;
     model := md_model model_data;
     tau_fast := md_tau_fast model_data;
     tau_persist := md_tau_persist model_data;
     features := md_features model_data |}.

(** [IMSScorer.get_thresholds]. *)
Definition get_thresholds (s : IMSScorer) : option Q * option Q :=
  (tau_fast (trainer s), tau_persist (trainer s)).

End WithSklearn.

Arguments n_clusters {Model} _.
Arguments model {Model} _.
Arguments tau_fast {Model} _.
Arguments tau_persist {Model} _.
Arguments features {Model} _.
Arguments trainer {Model} _.
Arguments trainer_init {Model} cfg k.
Arguments scorer_init {Model} t.
Arguments classify_deviation {Model} s d.
Arguments score_sample {Model} deviation s sample.
Arguments score_batch {Model} transform s samples.
Arguments training_matrix {Model} cfg self df skip_nominal_filter.
Arguments training_deviations {Model} fit deviation cfg self df
  skip_nominal_filter.
Arguments train {Model} fit deviation cfg self df skip_nominal_filter.
Arguments md_model_id {Model} _.
Arguments md_created_at {Model} _.
Arguments md_n_clusters {Model} _.
Arguments md_tau_fast {Model} _.
Arguments md_tau_persist {Model} _.
Arguments md_features {Model} _.
Arguments md_model {Model} _.
Arguments save {Model} self model_id created_at.
Arguments load {Model} cfg model_data.
Arguments get_thresholds {Model} s.

(** *** Worked examples

    A stand-in for the clustering library: one centre at the origin, no
    scaling, Manhattan distance. *)
Definition l1_norm (x : list Q) : Q :=
  fold_right (fun v acc => Qabs v + acc) 0 x.
Definition origin_fit (k : Z) (X : list (list Q)) : unit := tt.
Definition origin_deviation (m : unit) (x : list Q) : Q := l1_norm x.
Definition origin_transform (m : unit) (X : list (list Q)) : list Q :=
  map (origin_deviation m) X.

(** A complete nominal sample with the given inlet temperature. *)
Definition nominal_sample (inlet : Q) : gmap string Q :=
  list_to_map
    [("inlet_c", inlet); ("outlet_c", inlet + 15); ("delta_t", 15);
     ("pdu_kw", 8.0); ("gpu_power_kw", 5.0); ("tokens_ps", 8000);
     ("latency_p95_ms", 180); ("queue_depth", 30); ("fan_rpm_pct", 65);
     ("pump_rpm_pct", 58)].

(** The same sample without its fan reading. *)
Definition sample_without_fan (inlet : Q) : gmap string Q :=
  delete "fan_rpm_pct" (nominal_sample inlet).

(** The same sample without its [delta_t] field. *)
Definition sample_without_delta_t (inlet : Q) : gmap string Q :=
  delete "delta_t" (nominal_sample inlet).

(** A sample that reports nothing but its cumulative energy. *)
Definition energy_only (e : Q) : gmap string Q :=
  list_to_map [("gpu_energy_j", e)].

(** A hundred nominal samples, the inlet rising from 20.00 by 0.01. *)
Definition ramp_samples : list (gmap string Q) :=
  map (fun i : nat => nominal_sample (20 + inject_Z (Z.of_nat i) / 100))
      (seq 0 100).

Definition ramp_frame : DataFrame := DataFrame_of ramp_samples.

(** Settings with the two percentiles exchanged. *)
Definition swapped_percentiles : Config.Settings := {|
  Config.global_kill_switch := false;
  Config.write_rate_limit_s := 120;
  Config.sla_latency_ms := 250.0;
  Config.inlet_max_c := 28.0;
  Config.rack_kw_cap := 12.0;
  Config.ims_tau_fast_percentile := 98;
  Config.ims_tau_persist_percentile := 95;
  Config.mms_ema_alpha := 0.3;
  Config.mms_persist_ticks := 6;
  Config.ims_kmeans_clusters := 8
|}.

(** A trainer of the stand-in library holding the given thresholds. *)
Definition fitted_trainer (tf tp : Q) : IMSTrainer unit := {|
  n_clusters := 8;
  model := Some tt;
  tau_fast := Some tf;
  tau_persist := Some tp;
  features := FEATURE_COLUMNS
|}.

End IMS.

(** * Properties *)

(** ** Boolean comparisons reflect the order on [Q] *)

Lemma Qltb_lt (x y : Q) : Qltb x y = true <-> x < y.
Proof.
  unfold Qltb. rewrite negb_true_iff. split.
  - intros H. apply Qnot_le_lt. intros Hle.
    apply Qle_bool_iff in Hle. congruence.
  - intros H. destruct (Qle_bool y x) eqn:E; [|reflexivity].
    apply Qle_bool_iff in E. exfalso. exact (Qlt_not_le _ _ H E).
Qed.

Lemma Qltb_ge (x y : Q) : Qltb x y = false <-> y <= x.
Proof.
  unfold Qltb. rewrite negb_false_iff. apply Qle_bool_iff.
Qed.

Lemma Qeq_bool_true (x y : Q) : Qeq_bool x y = true <-> x == y.
Proof. apply Qeq_bool_iff. Qed.

Lemma Qeq_bool_false (x y : Q) : Qeq_bool x y = false <-> ~ x == y.
Proof.
  split.
  - intros H E. apply Qeq_bool_iff in E. congruence.
  - intros H. destruct (Qeq_bool x y) eqn:E; [|reflexivity].
    apply Qeq_bool_iff in E. contradiction.
Qed.

Ltac qbool :=
  repeat match goal with
  | H : Qltb _ _ = true |- _ => apply Qltb_lt in H
  | H : Qltb _ _ = false |- _ => apply Qltb_ge in H
  | H : Qeq_bool _ _ = true |- _ => apply Qeq_bool_true in H
  | H : Qeq_bool _ _ = false |- _ => apply Qeq_bool_false in H
  end.


(** ** The hysteresis filter *)

Section MMSFacts.
Import MMS.

Lemma update_set (f : MMSFilter) (d tf tp : Q) :
  tau_fast f = Some tf -> tau_persist f = Some tp ->
  update f d =
    (let e := next_ema f d in
     let hl := next_counters f tf tp e in
     let s := next_state f (fst hl) (snd hl) in
     let result := {| r_ema := e; r_state := s; r_raw_deviation := d;
                      r_consecutive_high := Some (fst hl);
                      r_consecutive_low := Some (snd hl) |} in
     ({| alpha := alpha f; persist_ticks := persist_ticks f;
         tau_fast := tau_fast f; tau_persist := tau_persist f;
         ema := e; state := s;
         consecutive_high := fst hl; consecutive_low := snd hl;
         history := deque_append (history f) result |}, result)).
Proof. intros Hf Hp. unfold update. rewrite Hf, Hp. reflexivity. Qed.

Lemma update_unset (f : MMSFilter) (d : Q) :
  tau_fast f = None \/ tau_persist f = None ->
  update f d =
    (f, {| r_ema := d; r_state := "transient"; r_raw_deviation := d;
           r_consecutive_high := None; r_consecutive_low := None |}).
Proof.
  intros [H | H]; unfold update; rewrite H; [reflexivity|].
  destruct (tau_fast f); reflexivity.
Qed.

Lemma update_persist_ticks (f : MMSFilter) (d : Q) :
  persist_ticks (fst (update f d)) = persist_ticks f.
Proof.
  unfold update. destruct (tau_fast f), (tau_persist f); reflexivity.
Qed.

Lemma update_alpha (f : MMSFilter) (d : Q) :
  alpha (fst (update f d)) = alpha f.
Proof.
  unfold update. destruct (tau_fast f), (tau_persist f); reflexivity.
Qed.

(** The two values [next_state] can produce. *)
Lemma next_state_cases (f : MMSFilter) (h l : Z) :
  (state f = "transient" /\
     ((persist_ticks f <= h)%Z /\ next_state f h l = "persistent" \/
      (h < persist_ticks f)%Z /\ next_state f h l = "transient")) \/
  (state f <> "transient" /\
     ((persist_ticks f <= l)%Z /\ next_state f h l = "transient" \/
      (l < persist_ticks f)%Z /\ next_state f h l = state f)).
Proof.
  unfold next_state.
  destruct (String.eqb (state f) "transient") eqn:E.
  - apply String.eqb_eq in E. left. split; [exact E|].
    destruct (Z.leb_spec (persist_ticks f) h); [left | right]; auto.
  - apply String.eqb_neq in E. right. split; [exact E|].
    destruct (Z.leb_spec (persist_ticks f) l); [left | right]; auto.
Qed.

(** A counter that reached a positive bound was incremented by this
    update, so the other counter was cleared. *)
Lemma next_counters_exclusive (f : MMSFilter) (tf tp e : Q) :
  let hl := next_counters f tf tp e in
  (fst hl = 0%Z \/ snd hl = 0%Z) /\
  (fst hl = 0%Z \/ fst hl = (consecutive_high f + 1)%Z) /\
  (snd hl = 0%Z \/ snd hl = (consecutive_low f + 1)%Z).
Proof.
  unfold next_counters.
  destruct (Qltb tp e); simpl; [auto|].
  destruct (Qltb e tf); simpl; auto.
Qed.

Lemma state_valid (cfg : Config.Settings) (f : MMSFilter) :
  reachable cfg f -> state f = "transient" \/ state f = "persistent".
Proof.
  induction 1 as [a p tf tp | f d Hr IH | f tf tp Hr IH | f Hr IH].
  - left. reflexivity.
  - unfold update.
    destruct (tau_fast f) as [tf|]; [|exact IH].
    destruct (tau_persist f) as [tp|]; [|exact IH].
    simpl.
    destruct (next_state_cases f
                (fst (next_counters f tf tp (next_ema f d)))
                (snd (next_counters f tf tp (next_ema f d))))
      as [[Hs [[_ ->] | [_ ->]]] | [Hs [[_ ->] | [_ ->]]]]; auto.
  - exact IH.
  - left. reflexivity.
Qed.

Lemma flip_to_persistent (f : MMSFilter) (d : Q) :
  state f = "transient" ->
  state (fst (update f d)) = "persistent" ->
  thresholds_set f /\
  (persist_ticks f <= consecutive_high (fst (update f d)))%Z.
Proof.
  intros Hs. unfold update, thresholds_set.
  destruct (tau_fast f) as [tf|]; [|simpl; congruence].
  destruct (tau_persist f) as [tp|]; [|simpl; congruence].
  simpl. intros Hn. split; [split; eauto|].
  destruct (next_state_cases f
              (fst (next_counters f tf tp (next_ema f d)))
              (snd (next_counters f tf tp (next_ema f d))))
    as [[_ [[Hle _] | [_ Hx]]] | [Hx _]]; [exact Hle | |]; congruence.
Qed.

Lemma flip_to_transient (f : MMSFilter) (d : Q) :
  state f = "persistent" ->
  state (fst (update f d)) = "transient" ->
  thresholds_set f /\
  (persist_ticks f <= consecutive_low (fst (update f d)))%Z.
Proof.
  intros Hs. unfold update, thresholds_set.
  destruct (tau_fast f) as [tf|]; [|simpl; congruence].
  destruct (tau_persist f) as [tp|]; [|simpl; congruence].
  simpl. intros Hn. split; [split; eauto|].
  destruct (next_state_cases f
              (fst (next_counters f tf tp (next_ema f d)))
              (snd (next_counters f tf tp (next_ema f d))))
    as [[Hx _] | [_ [[Hle _] | [_ Hx]]]]; [ | exact Hle | ]; congruence.
Qed.

Lemma reachable_persist_ticks (cfg : Config.Settings) (f : MMSFilter) :
  reachable cfg f ->
  exists p, persist_ticks f = ticks_or p (Config.mms_persist_ticks cfg).
Proof.
  induction 1 as [a p tf tp | f d Hr IH | f tf tp Hr IH | f Hr IH].
  - exists p. reflexivity.
  - rewrite update_persist_ticks. exact IH.
  - exact IH.
  - exact IH.
Qed.

Lemma counters_below_reachable (cfg : Config.Settings) (f : MMSFilter) :
  reachable cfg f -> (1 <= persist_ticks f)%Z -> counters_below f.
Proof.
  induction 1 as [a p tf tp | f d Hr IH | f tf tp Hr IH | f Hr IH];
    intros Hp.
  - split; simpl in *; intros _; lia.
  - rewrite update_persist_ticks in Hp. specialize (IH Hp).
    pose proof (state_valid cfg f Hr) as Hv.
    unfold update.
    destruct (tau_fast f) as [tf|]; [|exact IH].
    destruct (tau_persist f) as [tp|]; [|exact IH].
    unfold counters_below. simpl.
    pose proof (next_counters_exclusive f tf tp (next_ema f d)) as Hx.
    simpl in Hx. destruct Hx as (Hz & _ & _).
    destruct (next_state_cases f
                (fst (next_counters f tf tp (next_ema f d)))
                (snd (next_counters f tf tp (next_ema f d))))
      as [[Hs [[Hle ->] | [Hlt ->]]] | [Hs [[Hle ->] | [Hlt ->]]]].
    + split; [discriminate|]. intros _. lia.
    + split; [|discriminate]. intros _. exact Hlt.
    + split; [|discriminate]. intros _. lia.
    + destruct Hv as [Hv | Hv]; [contradiction|]. rewrite Hv.
      split; [discriminate|]. intros _. exact Hlt.
  - exact (IH Hp).
  - split; simpl in *; intros _; lia.
Qed.

(** On a reachable filter with a positive tick count a flip happens on
    the very update at which the counter becomes equal to the tick
    count. *)
Lemma flip_exact (cfg : Config.Settings) (f : MMSFilter) (d : Q) :
  reachable cfg f -> (1 <= persist_ticks f)%Z ->
  (state f = "transient" -> state (fst (update f d)) = "persistent" ->
     consecutive_high (fst (update f d)) = persist_ticks f /\
     consecutive_high f = (persist_ticks f - 1)%Z) /\
  (state f = "persistent" -> state (fst (update f d)) = "transient" ->
     consecutive_low (fst (update f d)) = persist_ticks f /\
     consecutive_low f = (persist_ticks f - 1)%Z).
Proof.
  intros Hr Hp.
  destruct (counters_below_reachable cfg f Hr Hp) as [Hbh Hbl].
  split; intros Hs Hn.
  - destruct (flip_to_persistent f d Hs Hn) as [[[tf Htf] [tp Htp]] Hle].
    specialize (Hbh Hs).
    rewrite (update_set f d tf tp Htf Htp) in *. simpl in *.
    pose proof (next_counters_exclusive f tf tp (next_ema f d)) as Hx.
    simpl in Hx. destruct Hx as (_ & Hh & _). lia.
  - destruct (flip_to_transient f d Hs Hn) as [[[tf Htf] [tp Htp]] Hle].
    specialize (Hbl Hs).
    rewrite (update_set f d tf tp Htf Htp) in *. simpl in *.
    pose proof (next_counters_exclusive f tf tp (next_ema f d)) as Hx.
    simpl in Hx. destruct Hx as (_ & _ & Hl). lia.
Qed.

Lemma feed_app (f : MMSFilter) (xs ys : list Q) :
  feed f (xs ++ ys) = feed (feed f xs) ys.
Proof.
  revert f. induction xs as [|x xs IH]; intros f; simpl; [reflexivity|].
  apply IH.
Qed.

Lemma feed_reachable (cfg : Config.Settings) (f : MMSFilter) (ds : list Q) :
  reachable cfg f -> reachable cfg (feed f ds).
Proof.
  revert f. induction ds as [|d ds IH]; intros f Hr; simpl; [exact Hr|].
  apply IH. constructor. exact Hr.
Qed.

Lemma settled_step (f : MMSFilter) :
  settled f -> settled (fst (update f 0.1)).
Proof.
  intros (Ha & Hp & Htf & Htp & Hs & He).
  rewrite (update_set f 0.1 1.0 2.0 Htf Htp). simpl.
  assert (Hn : next_ema f 0.1 <= 2.0).
  { unfold next_ema. destruct (Qeq_bool (ema f) 0.0); [lra|].
    rewrite Ha. lra. }
  assert (Hc : fst (next_counters f 1.0 2.0 (next_ema f 0.1)) = 0%Z).
  { unfold next_counters.
    destruct (Qltb 2.0 (next_ema f 0.1)) eqn:E; [|reflexivity].
    qbool. lra. }
  repeat split; auto.
  unfold next_state. rewrite Hs, Hc, Hp. reflexivity.
Qed.

Lemma settled_feed (f : MMSFilter) (n : nat) :
  settled f -> settled (feed f (repeat 0.1 n)).
Proof.
  revert f. induction n as [|n IH]; intros f Hf; simpl; [exact Hf|].
  apply IH, settled_step, Hf.
Qed.

Lemma scenario_settles :
  settled (feed scenario_filter (5.0 :: repeat 0.1 3)).
Proof.
  unfold settled. vm_compute. repeat split; try reflexivity; discriminate.
Qed.

Lemma blip_stays_transient (n : nat) :
  state (feed scenario_filter (5.0 :: repeat 0.1 n)) = "transient".
Proof.
  destruct (Nat.le_gt_cases 3 n) as [H | H].
  - replace n with (3 + (n - 3))%nat by lia.
    change (5.0 :: repeat 0.1 (3 + (n - 3)))
      with ((5.0 :: repeat 0.1 3) ++ repeat 0.1 (n - 3)).
    rewrite feed_app.
    apply (settled_feed _ (n - 3) scenario_settles).
  - destruct n as [|[|[|n]]]; try lia; vm_compute; reflexivity.
Qed.

(** The EMA after an update of a filter whose thresholds are set. *)
Lemma update_ema (f : MMSFilter) (d : Q) :
  thresholds_set f -> ema (fst (update f d)) = next_ema f d.
Proof.
  intros [[tf Htf] [tp Htp]].
  rewrite (update_set f d tf tp Htf Htp). reflexivity.
Qed.

(** A constructed or reset filter takes the first deviation as its EMA. *)
Lemma ema_first_update (f : MMSFilter) (d : Q) :
  thresholds_set f -> ema f == 0 -> ema (fst (update f d)) == d.
Proof.
  intros Ht He. rewrite (update_ema f d Ht). unfold next_ema.
  destruct (Qeq_bool (ema f) 0.0) eqn:E; [reflexivity|].
  qbool. exfalso. apply E. rewrite He. reflexivity.
Qed.

(** While the stored EMA is not zero the update is the smoothing step. *)
Lemma ema_recurrence (f : MMSFilter) (d : Q) :
  thresholds_set f -> ~ ema f == 0 ->
  ema (fst (update f d)) == alpha f * d + (1 - alpha f) * ema f.
Proof.
  intros Ht He. rewrite (update_ema f d Ht). unfold next_ema.
  destruct (Qeq_bool (ema f) 0.0) eqn:E; [|reflexivity].
  qbool. exfalso. apply He. rewrite E. reflexivity.
Qed.

(** C2.  The filter state is always "transient" or "persistent" and starts
    as "transient"; an update flips transient to persistent only when it
    brings [consecutive_high] to [persist_ticks], and persistent to
    transient only when it brings [consecutive_low] to [persist_ticks]
    (with a positive tick count the counter is then exactly the tick
    count and was one short before the update).  With [persist_ticks=6],
    [alpha=0.3], [tau_fast=1.0], [tau_persist=2.0]: up to five updates
    with 5.0 leave the state transient, the sixth makes it persistent,
    and 5.0 followed by any number of 0.1 stays transient throughout. *)
Theorem mms_hysteresis :
  (forall cfg a p tf tp, state (init cfg a p tf tp) = "transient") /\
  (forall cfg f, reachable cfg f ->
     state f = "transient" \/ state f = "persistent") /\
  (forall f d,
     (state f = "transient" -> state (fst (update f d)) = "persistent" ->
        (persist_ticks f <= consecutive_high (fst (update f d)))%Z) /\
     (state f = "persistent" -> state (fst (update f d)) = "transient" ->
        (persist_ticks f <= consecutive_low (fst (update f d)))%Z)) /\
  (forall cfg f d, reachable cfg f -> (1 <= persist_ticks f)%Z ->
     (state f = "transient" -> state (fst (update f d)) = "persistent" ->
        consecutive_high (fst (update f d)) = persist_ticks f /\
        consecutive_high f = (persist_ticks f - 1)%Z) /\
     (state f = "persistent" -> state (fst (update f d)) = "transient" ->
        consecutive_low (fst (update f d)) = persist_ticks f /\
        consecutive_low f = (persist_ticks f - 1)%Z)) /\
  (forall k, (k <= 5)%nat ->
     state (feed scenario_filter (repeat 5.0 k)) = "transient") /\
  state (feed scenario_filter (repeat 5.0 6)) = "persistent" /\
  (forall n, state (feed scenario_filter (5.0 :: repeat 0.1 n)) = "transient").
Proof.
  split; [reflexivity|].
  split; [exact state_valid|].
  split.
  { intros f d. split; intros Hs Hn.
    - exact (proj2 (flip_to_persistent f d Hs Hn)).
    - exact (proj2 (flip_to_transient f d Hs Hn)). }
  split; [exact flip_exact|].
  split.
  { intros k Hk.
    destruct k as [|[|[|[|[|[|k]]]]]]; try lia; vm_compute; reflexivity. }
  split; [vm_compute; reflexivity|].
  exact blip_stays_transient.
Qed.

Lemma mms_hysteresis_witness :
  (state (feed scenario_filter (repeat 5.0 5)) = "transient" ->
   state (fst (update (feed scenario_filter (repeat 5.0 5)) 5.0))
     = "persistent" ->
   consecutive_high (fst (update (feed scenario_filter (repeat 5.0 5)) 5.0))
     = 6%Z /\
   consecutive_high (feed scenario_filter (repeat 5.0 5)) = (6 - 1)%Z) /\
  state (feed scenario_filter (repeat 5.0 5)) = "transient" /\
  state (fst (update (feed scenario_filter (repeat 5.0 5)) 5.0))
    = "persistent".
Proof.
  split.
  - apply (proj1 (proj1 (proj2 (proj2 (proj2 mms_hysteresis)))
             Config.default_settings
             (feed scenario_filter (repeat 5.0 5)) 5.0
             (feed_reachable _ _ _ (reach_init _ _ _ _ _))
             ltac:(vm_compute; discriminate))).
  - split; vm_compute; reflexivity.
Defined.

(** C3.  The code takes "the stored EMA is 0.0" for "first call": after a
    first deviation of 0.0 the second update stores the raw deviation
    instead of the smoothing step.  With [alpha=0.3] and the sequence
    0.0, 5.0 the EMA is 0 after the first update and 5 after the second,
    where the smoothing step gives 1.5. *)
Theorem ema_zero_first_deviation_reseeds :
  let f1 := fst (update scenario_filter 0.0) in
  let f2 := fst (update f1 5.0) in
  thresholds_set scenario_filter /\
  ema f1 == 0.0 /\
  ema f2 == 5.0 /\
  alpha f1 * 5.0 + (1 - alpha f1) * ema f1 == 1.5 /\
  ~ ema f2 == alpha f1 * 5.0 + (1 - alpha f1) * ema f1.
Proof.
  vm_compute. repeat split; eauto; discriminate.
Qed.

(** C10.  With a threshold missing, [update] returns state "transient"
    and the raw deviation as EMA, and the filter (EMA, state, both
    counters, history) is the one it was called on. *)
Theorem update_without_thresholds (f : MMSFilter) (d : Q) :
  tau_fast f = None \/ tau_persist f = None ->
  r_state (snd (update f d)) = "transient" /\
  r_ema (snd (update f d)) = d /\
  r_raw_deviation (snd (update f d)) = d /\
  fst (update f d) = f /\
  ema (fst (update f d)) = ema f /\
  state (fst (update f d)) = state f /\
  consecutive_high (fst (update f d)) = consecutive_high f /\
  consecutive_low (fst (update f d)) = consecutive_low f /\
  history (fst (update f d)) = history f.
Proof.
  intros H. rewrite (update_unset f d H). simpl. repeat split.
Qed.

Lemma update_without_thresholds_witness :
  let f := init Config.default_settings None None None (Some 2.0) in
  fst (update f 1.5) = f /\ r_ema (snd (update f 1.5)) = 1.5.
Proof.
  pose proof (update_without_thresholds
                (init Config.default_settings None None None (Some 2.0)) 1.5
                (or_introl eq_refl)) as H.
  simpl. destruct H as (_ & He & _ & Hf & _). split; [exact Hf | exact He].
Defined.

End MMSFacts.

(** ** Stable sorting by key *)

Section SortFacts.
Context {A : Type} (key : A -> Q) (reverse : bool).

Lemma insert_by_perm (c : A) (l : list A) :
  Permutation (insert_by key reverse c l) (c :: l).
Proof.
  induction l as [|x l IH]; simpl; [reflexivity|].
  destruct (strictly_before key reverse x c); [|reflexivity].
  rewrite IH. apply perm_swap.
Qed.

Lemma sorted_perm (l : list A) : Permutation (sorted key reverse l) l.
Proof.
  induction l as [|c l IH]; simpl; [reflexivity|].
  rewrite insert_by_perm, IH. reflexivity.
Qed.

Lemma sorted_length (l : list A) :
  length (sorted key reverse l) = length l.
Proof. apply Permutation_length, sorted_perm. Qed.

Lemma may_follow_trans (x y z : A) :
  may_follow key reverse x y -> may_follow key reverse y z ->
  may_follow key reverse x z.
Proof.
  unfold may_follow. destruct reverse; intros H1 H2.
  - exact (Qle_trans _ _ _ H2 H1).
  - exact (Qle_trans _ _ _ H1 H2).
Qed.

Lemma strictly_before_true (x c : A) :
  strictly_before key reverse x c = true -> may_follow key reverse x c.
Proof.
  unfold strictly_before, may_follow.
  destruct reverse; intros H; qbool; apply Qlt_le_weak; exact H.
Qed.

Lemma strictly_before_false (x c : A) :
  strictly_before key reverse x c = false -> may_follow key reverse c x.
Proof.
  unfold strictly_before, may_follow.
  destruct reverse; intros H; qbool; exact H.
Qed.

Lemma strictly_before_neq (x c : A) :
  strictly_before key reverse x c = true -> ~ key x == key c.
Proof.
  unfold strictly_before.
  destruct reverse; intros H E; qbool; rewrite E in H;
    exact (Qlt_irrefl _ H).
Qed.

Lemma insert_by_in_order (c : A) (l : list A) :
  in_order key reverse l -> in_order key reverse (insert_by key reverse c l).
Proof.
  induction 1 as [|x l Hall Hord IH]; simpl.
  - constructor; constructor.
  - destruct (strictly_before key reverse x c) eqn:E.
    + constructor; [|exact IH].
      eapply Permutation_Forall; [symmetry; apply insert_by_perm|].
      constructor; [|exact Hall].
      exact (strictly_before_true x c E).
    + pose proof (strictly_before_false x c E) as Hcx.
      constructor; [|constructor; assumption].
      constructor; [exact Hcx|].
      eapply Forall_impl; [exact Hall|].
      intros y Hy. exact (may_follow_trans c x y Hcx Hy).
Qed.

Lemma sorted_in_order (l : list A) : in_order key reverse (sorted key reverse l).
Proof.
  induction l as [|c l IH]; simpl; [constructor|].
  apply insert_by_in_order, IH.
Qed.

Lemma with_key_insert_by (v : Q) (c : A) (l : list A) :
  with_key key v (insert_by key reverse c l) = with_key key v (c :: l).
Proof.
  induction l as [|x l IH]; [reflexivity|].
  simpl insert_by.
  destruct (strictly_before key reverse x c) eqn:E; [|reflexivity].
  pose proof (strictly_before_neq x c E) as Hne.
  simpl in *. rewrite IH.
  destruct (Qeq_bool (key x) v) eqn:Ex; [|reflexivity].
  destruct (Qeq_bool (key c) v) eqn:Ec; [|reflexivity].
  qbool. exfalso. apply Hne. rewrite Ex, Ec. reflexivity.
Qed.

(** Stability: the elements of each key keep their input order. *)
Lemma sorted_stable (v : Q) (l : list A) :
  with_key key v (sorted key reverse l) = with_key key v l.
Proof.
  induction l as [|c l IH]; [reflexivity|].
  simpl sorted. rewrite with_key_insert_by. simpl. rewrite IH. reflexivity.
Qed.

End SortFacts.

Lemma in_order_ext {A : Type} (k1 k2 : A -> Q) (reverse : bool) (l : list A) :
  Forall (fun x => k1 x = k2 x) l ->
  in_order k1 reverse l -> in_order k2 reverse l.
Proof.
  intros Hk Ho. induction Ho as [|x l Hall Ho IH]; [constructor|].
  inversion Hk as [|? ? Hx Hl]; subst.
  constructor; [|exact (IH Hl)].
  clear -Hall Hl Hx.
  induction Hall as [|y l Hy Hall IH]; [constructor|].
  inversion Hl as [|? ? Ey El]; subst.
  constructor; [|exact (IH El)].
  unfold may_follow in *. rewrite <- Ey, <- Hx. exact Hy.
Qed.

Lemma with_key_ext {A : Type} (k1 k2 : A -> Q) (v : Q) (l : list A) :
  Forall (fun x => k1 x = k2 x) l -> with_key k1 v l = with_key k2 v l.
Proof.
  induction 1 as [|x l Hx Hl IH]; [reflexivity|].
  simpl. rewrite Hx, IH. reflexivity.
Qed.

Lemma with_key_map {A B : Type} (f : A -> B) (k : B -> Q) (v : Q)
    (l : list A) :
  with_key k v (map f l) = map f (with_key (fun x => k (f x)) v l).
Proof.
  induction l as [|x l IH]; [reflexivity|].
  simpl. destruct (Qeq_bool (k (f x)) v); simpl; rewrite IH; reflexivity.
Qed.

(** ** Ranking *)

Section RankFacts.
Import Policy.

Lemma composite_score_set_score (w : Weights) (c : ActionCandidate) (s : Q) :
  composite_score w (set_score c s) = composite_score w c.
Proof. reflexivity. Qed.

Lemma unscored_set_score (c : ActionCandidate) (s : Q) :
  unscored (set_score c s) = unscored c.
Proof. reflexivity. Qed.

Lemma scored_score_key (w : Weights) (l : list ActionCandidate) :
  Forall (fun c => score_key c = composite_score w c) (scored w l).
Proof.
  unfold scored. induction l as [|c l IH]; simpl; constructor; auto.
Qed.

Lemma scored_score (w : Weights) (l : list ActionCandidate) :
  Forall (fun c => score c = Some (composite_score w c)) (scored w l).
Proof.
  unfold scored. induction l as [|c l IH]; simpl; constructor; auto.
Qed.

Lemma scored_idempotent (w : Weights) (l : list ActionCandidate) :
  scored w (scored w l) = scored w l.
Proof.
  unfold scored. rewrite map_map. apply map_ext. reflexivity.
Qed.

Lemma unscored_scored (w : Weights) (l : list ActionCandidate) :
  map unscored (scored w l) = map unscored l.
Proof.
  unfold scored. rewrite map_map. apply map_ext. reflexivity.
Qed.

Lemma with_key_scored (w : Weights) (v : Q) (l : list ActionCandidate) :
  map unscored (with_key (composite_score w) v (scored w l))
  = map unscored (with_key (composite_score w) v l).
Proof.
  induction l as [|c l IH]; [reflexivity|].
  simpl.
  change (composite_score w (set_score c (composite_score w c)))
    with (composite_score w c).
  destruct (Qeq_bool (composite_score w c) v); simpl; rewrite IH;
    reflexivity.
Qed.

Lemma rank_candidates_unfold (l : list ActionCandidate) (ow : option Weights) :
  rank_candidates l ow =
  sorted score_key true (scored (default default_weights ow) l).
Proof. destruct l; reflexivity. Qed.

Lemma rank_candidates_nonempty (c : ActionCandidate)
    (l : list ActionCandidate) (ow : option Weights) :
  rank_candidates (c :: l) ow <> [].
Proof.
  rewrite rank_candidates_unfold. intros H.
  pose proof (sorted_length score_key true
                (scored (default default_weights ow) (c :: l))) as Hl.
  rewrite H in Hl. unfold scored in Hl. simpl in Hl. lia.
Qed.

(** C6.  [rank_candidates] returns the objects of its input list (each
    now carrying its composite score) rearranged: a permutation, in
    descending order of the composite score, candidates of equal score in
    their input order.  Ranking the same objects again gives the same
    list.  With the weights read as penalties the score is
    [w_save * savings - w_risk * risk - w_lat * |latency| / 100], and the
    defaults are 1.0, 0.8 and 0.3. *)
Theorem rank_candidates_sorted_stable :
  forall (candidates : list ActionCandidate) (weights : option Weights),
    let w := default default_weights weights in
    let ranked := rank_candidates candidates weights in
    Permutation ranked (scored w candidates) /\
    Permutation (map unscored ranked) (map unscored candidates) /\
    Forall (fun c => score c = Some (composite_score w c)) ranked /\
    in_order (composite_score w) true ranked /\
    (forall v : Q,
       with_key (composite_score w) v ranked
       = with_key (composite_score w) v (scored w candidates)) /\
    (forall v : Q,
       with_key (composite_score w) v (map unscored ranked)
       = with_key (composite_score w) v (map unscored candidates)) /\
    rank_candidates (scored w candidates) weights = ranked /\
    (forall (w_save w_risk w_lat : Q) (c : ActionCandidate),
       composite_score (penalty_weights w_save w_risk w_lat) c
       == penalty_score w_save w_risk w_lat c) /\
    default_weights = penalty_weights 1.0 0.8 0.3 /\
    0.3 < 0.8.
Proof.
  intros candidates weights w ranked.
  assert (Hperm : Permutation ranked (scored w candidates)).
  { unfold ranked. rewrite rank_candidates_unfold. apply sorted_perm. }
  assert (Hkeys : Forall (fun c => score_key c = composite_score w c) ranked).
  { eapply Permutation_Forall; [symmetry; exact Hperm|].
    apply scored_score_key. }
  assert (Hstable : forall v : Q,
             with_key (composite_score w) v ranked
             = with_key (composite_score w) v (scored w candidates)).
  { intros v.
    rewrite <- (with_key_ext score_key (composite_score w) v ranked Hkeys).
    rewrite <- (with_key_ext score_key (composite_score w) v
                  (scored w candidates) (scored_score_key w candidates)).
    unfold ranked. rewrite rank_candidates_unfold. apply sorted_stable. }
  split; [exact Hperm|].
  split.
  { rewrite <- (unscored_scored w candidates).
    apply Permutation_map. exact Hperm. }
  split.
  { eapply Permutation_Forall; [symmetry; exact Hperm|].
    apply scored_score. }
  split.
  { apply (in_order_ext score_key (composite_score w) true ranked Hkeys).
    unfold ranked. rewrite rank_candidates_unfold. apply sorted_in_order. }
  split; [exact Hstable|].
  split.
  { intros v. rewrite !with_key_map.
    change (fun x => composite_score w (unscored x))
      with (composite_score w).
    rewrite Hstable. apply with_key_scored. }
  split.
  { unfold ranked. rewrite !rank_candidates_unfold.
    fold w. rewrite scored_idempotent. reflexivity. }
  split.
  { intros w_save w_risk w_lat c.
    unfold composite_score, penalty_score, penalty_weights. simpl.
    field. }
  split; [reflexivity|].
  reflexivity.
Qed.

End RankFacts.

(** ** Guardrails and the loops *)

Section LoopFacts.
Import Policy Loops.

Lemma rejected_false (cfg : Config.Settings) (st : CurrentState)
    (c : ActionCandidate) :
  rejected cfg st c = false <->
  default 22.0 (max_inlet_c st) + pred_inlet_change_c c
    <= Config.inlet_max_c cfg /\
  default 180 (avg_latency_ms st) + pred_latency_impact_ms c
    <= Config.sla_latency_ms cfg /\
  ~ (1.0 < pred_inlet_change_c c /\
     default 2.0 (tau_persist st) * 0.7 < default 0.0 (ims_deviation st)) /\
  ~ (0.6 < risk_score c /\ default false (recent_rollback st) = true).
Proof.
  unfold rejected.
  destruct (Qltb (Config.inlet_max_c cfg) _) eqn:E1.
  { qbool. split; [discriminate|]. intros (H & _).
    exfalso. exact (Qlt_not_le _ _ E1 H). }
  destruct (Qltb (Config.sla_latency_ms cfg) _) eqn:E2.
  { qbool. split; [discriminate|]. intros (_ & H & _).
    exfalso. exact (Qlt_not_le _ _ E2 H). }
  destruct (Qltb 1.0 (pred_inlet_change_c c)) eqn:E3;
    destruct (Qltb (default 2.0 (tau_persist st) * 0.7) _) eqn:E4;
    destruct (Qltb 0.6 (risk_score c)) eqn:E5;
    destruct (default false (recent_rollback st)) eqn:E6;
    simpl; qbool;
    (split;
     [ try discriminate; intros _;
       repeat split; try assumption;
       intros [Ha Hb];
       try discriminate;
       try (exact (Qlt_not_le _ _ Ha E3));
       try (exact (Qlt_not_le _ _ Hb E4));
       try (exact (Qlt_not_le _ _ Ha E5))
     | try reflexivity; intros (_ & _ & H3 & H4); exfalso;
       first [ apply H3; split; assumption
             | apply H4; split; [assumption | reflexivity] ] ]).
Qed.

Lemma apply_guardrails_in (cfg : Config.Settings) (st : CurrentState)
    (l : list ActionCandidate) (c : ActionCandidate) :
  In c (_apply_guardrails cfg l st) <-> In c l /\ rejected cfg st c = false.
Proof.
  induction l as [|x l IH]; simpl; [tauto|].
  destruct (rejected cfg st x) eqn:E; simpl; rewrite IH.
  - split; [tauto|]. intros [[-> | H] Hr]; [congruence | auto].
  - split.
    + intros [-> | [H Hr]]; auto.
    + intros [[-> | H] Hr]; auto.
Qed.

Lemma apply_guardrails_sublist (cfg : Config.Settings) (st : CurrentState)
    (l : list ActionCandidate) :
  sublist (_apply_guardrails cfg l st) l.
Proof.
  induction l as [|x l IH]; simpl; [constructor|].
  destruct (rejected cfg st x); constructor; exact IH.
Qed.

(** C1.  The output of [_apply_guardrails] is a subsequence of its input;
    every candidate in it satisfies the four guardrail conditions (the
    state read with the defaults of the [.get] calls); and a candidate
    that would push the inlet over the limit, or the latency over the
    SLA, or raises the inlet by more than 1.0 while the deviation is over
    0.7 tau_persist, or has risk over 0.6 after a recent rollback, is not
    in the output. *)
Theorem apply_guardrails_safe :
  forall (cfg : Config.Settings) (st : CurrentState)
         (candidates : list ActionCandidate),
    let out := _apply_guardrails cfg candidates st in
    let max_inlet := default 22.0 (max_inlet_c st) in
    let lat := default 180 (avg_latency_ms st) in
    let deviation := default 0.0 (ims_deviation st) in
    let tp := default 2.0 (tau_persist st) in
    let rollback := default false (recent_rollback st) in
    sublist out candidates /\
    Forall (fun c =>
      max_inlet + pred_inlet_change_c c <= Config.inlet_max_c cfg /\
      lat + pred_latency_impact_ms c <= Config.sla_latency_ms cfg /\
      ~ (1.0 < pred_inlet_change_c c /\ tp * 0.7 < deviation) /\
      ~ (0.6 < risk_score c /\ rollback = true)) out /\
    (forall c : ActionCandidate,
      Config.inlet_max_c cfg < max_inlet + pred_inlet_change_c c \/
      Config.sla_latency_ms cfg < lat + pred_latency_impact_ms c \/
      (1.0 < pred_inlet_change_c c /\ tp * 0.7 < deviation) \/
      (0.6 < risk_score c /\ rollback = true) ->
      ~ In c out).
Proof.
  intros cfg st candidates out max_inlet lat deviation tp rollback.
  split; [apply apply_guardrails_sublist|].
  split.
  - apply List.Forall_forall. intros c Hc.
    apply apply_guardrails_in in Hc. destruct Hc as [_ Hr].
    apply rejected_false in Hr. exact Hr.
  - intros c Hbad Hc.
    apply apply_guardrails_in in Hc. destruct Hc as [_ Hr].
    apply rejected_false in Hr. destruct Hr as (H1 & H2 & H3 & H4).
    destruct Hbad as [Hb | [Hb | [Hb | Hb]]].
    + exact (Qlt_not_le _ _ Hb H1).
    + exact (Qlt_not_le _ _ Hb H2).
    + exact (H3 Hb).
    + exact (H4 Hb).
Qed.

Lemma apply_guardrails_safe_witness :
  ~ In raise_supply_1c
      (_apply_guardrails Config.default_settings [raise_supply_1c] warm_state).
Proof.
  apply (proj2 (proj2 (apply_guardrails_safe Config.default_settings
                         warm_state [raise_supply_1c]))).
  left. vm_compute. reflexivity.
Defined.

Lemma slow_best_none (cfg : Config.Settings) (st : CurrentState) :
  Config.global_kill_switch cfg = true \/
  default "transient" (mms_state st) = "persistent" \/
  Config.sla_latency_ms cfg * 0.95 < default 180 (avg_latency_ms st) ->
  slow_best cfg st = None.
Proof.
  unfold slow_best. intros [H | [H | H]].
  - rewrite H. reflexivity.
  - destruct (Config.global_kill_switch cfg); [reflexivity|].
    rewrite H. reflexivity.
  - destruct (Config.global_kill_switch cfg); [reflexivity|].
    destruct (String.eqb _ _); [reflexivity|].
    apply Qltb_lt in H. rewrite H. reflexivity.
Qed.

(** C7.  [optimize] returns no proposal, and leaves the controller as it
    was, whenever the kill switch is engaged, or [mms_state] is
    "persistent", or the average latency is above 0.95 of the SLA; no
    candidate is generated or ranked on these paths. *)
Theorem optimize_skips_when_unstable :
  forall (cfg : Config.Settings) (self : SlowOptimizerLoop)
         (st : CurrentState) (clk : Clock),
    Config.global_kill_switch cfg = true \/
    default "transient" (mms_state st) = "persistent" \/
    Config.sla_latency_ms cfg * 0.95 < default 180 (avg_latency_ms st) ->
    optimize cfg self st clk = (self, None).
Proof.
  intros cfg self st clk H. unfold optimize.
  rewrite (slow_best_none cfg st H). reflexivity.
Qed.

Lemma optimize_skips_when_unstable_witness :
  optimize Config.default_settings slow_init persistent_state (clock_at 0)
  = (slow_init, None).
Proof.
  apply optimize_skips_when_unstable. right. left. reflexivity.
Defined.

Lemma rate_limited_spec (m : gmap string Q) (key : string) (now window : Q) :
  rate_limited m key now window = true <->
  exists last, m !! key = Some last /\ now - last < window.
Proof.
  unfold rate_limited. destruct (m !! key) as [last|].
  - rewrite Qltb_lt. split; [eauto|]. intros (l & [= <-] & H). exact H.
  - split; [discriminate|]. intros (l & [=] & _).
Qed.

(** What a call of [evaluate] that emits a proposal has done. *)
Lemma evaluate_emits (cfg : Config.Settings) (self self1 : FastGuardrailLoop)
    (st : CurrentState) (clk : Clock) (p : Proposal) :
  evaluate cfg self st clk = (self1, Some p) ->
  fast_last_action_ts self1
    = <[proposal_key p := t_store clk]> (fast_last_action_ts self) /\
  p_loop p = "fast" /\
  exists reasons best, fast_best cfg st = Some (reasons, best) /\
                       target_key best = proposal_key p.
Proof.
  unfold evaluate. destruct (fast_best cfg st) as [[reasons best]|];
    [|discriminate].
  destruct (rate_limited _ _ _ _); [discriminate|].
  intros [= <- <-]. simpl. repeat split; eauto.
Qed.

Lemma optimize_emits (cfg : Config.Settings) (self self1 : SlowOptimizerLoop)
    (st : CurrentState) (clk : Clock) (p : Proposal) :
  optimize cfg self st clk = (self1, Some p) ->
  slow_last_action_ts self1
    = <[proposal_key p := t_store clk]> (slow_last_action_ts self) /\
  p_loop p = "slow" /\
  exists best, slow_best cfg st = Some best /\
               target_key best = proposal_key p.
Proof.
  unfold optimize. destruct (slow_best cfg st) as [best|]; [|discriminate].
  destruct (rate_limited _ _ _ _); [discriminate|].
  intros [= <- <-]. simpl. repeat split; eauto.
Qed.

(** A key whose stored timestamp is less than the window old suppresses
    the proposal and leaves the controller unchanged. *)
Lemma evaluate_suppressed (cfg : Config.Settings) (self : FastGuardrailLoop)
    (st : CurrentState) (clk : Clock) (reasons : list ReasonPart)
    (best : ActionCandidate) (last : Q) :
  fast_best cfg st = Some (reasons, best) ->
  fast_last_action_ts self !! target_key best = Some last ->
  t_check clk - last < 60 ->
  evaluate cfg self st clk = (self, None).
Proof.
  intros Hb Hl Ht. unfold evaluate. rewrite Hb.
  replace (rate_limited _ _ _ _) with true; [reflexivity|].
  symmetry. apply rate_limited_spec. eauto.
Qed.

Lemma optimize_suppressed (cfg : Config.Settings) (self : SlowOptimizerLoop)
    (st : CurrentState) (clk : Clock) (best : ActionCandidate) (last : Q) :
  slow_best cfg st = Some best ->
  slow_last_action_ts self !! target_key best = Some last ->
  t_check clk - last < inject_Z (Config.write_rate_limit_s cfg) ->
  optimize cfg self st clk = (self, None).
Proof.
  intros Hb Hl Ht. unfold optimize. rewrite Hb.
  replace (rate_limited _ _ _ _) with true; [reflexivity|].
  symmetry. apply rate_limited_spec. eauto.
Qed.

(** C8.  In either loop, when one evaluation has emitted a proposal and
    a later evaluation of the same controller selects a best candidate
    with the same (action, target) key less than the window after the
    stored timestamp (60 seconds in the fast loop, [write_rate_limit_s],
    120 by default, in the slow loop), the later evaluation returns no
    proposal and changes nothing.  The two controllers have separate
    timestamp maps: a tick of one leaves the other controller as it
    was. *)
Theorem rate_limit_suppresses_repeat :
  (forall cfg self st1 clk1 self1 p1 st2 clk2 reasons2 best2,
     evaluate cfg self st1 clk1 = (self1, Some p1) ->
     fast_best cfg st2 = Some (reasons2, best2) ->
     target_key best2 = proposal_key p1 ->
     t_check clk2 - t_store clk1 < 60 ->
     evaluate cfg self1 st2 clk2 = (self1, None)) /\
  (forall cfg self st1 clk1 self1 p1 st2 clk2 best2,
     optimize cfg self st1 clk1 = (self1, Some p1) ->
     slow_best cfg st2 = Some best2 ->
     target_key best2 = proposal_key p1 ->
     t_check clk2 - t_store clk1
       < inject_Z (Config.write_rate_limit_s cfg) ->
     optimize cfg self1 st2 clk2 = (self1, None)) /\
  Config.write_rate_limit_s Config.default_settings = 120%Z /\
  (forall cfg cs st clk,
     slow_loop (fst (fast_tick cfg cs st clk)) = slow_loop cs /\
     fast_loop (fst (slow_tick cfg cs st clk)) = fast_loop cs) /\
  fast_last_action_ts (fast_loop controllers_init) = ∅ /\
  slow_last_action_ts (slow_loop controllers_init) = ∅.
Proof.
  split.
  { intros cfg self st1 clk1 self1 p1 st2 clk2 reasons2 best2 H1 Hb Hk Ht.
    destruct (evaluate_emits _ _ _ _ _ _ H1) as (Hm & _ & _).
    apply (evaluate_suppressed cfg self1 st2 clk2 reasons2 best2
             (t_store clk1) Hb); [|exact Ht].
    rewrite Hm, Hk. apply lookup_insert_eq. }
  split.
  { intros cfg self st1 clk1 self1 p1 st2 clk2 best2 H1 Hb Hk Ht.
    destruct (optimize_emits _ _ _ _ _ _ H1) as (Hm & _ & _).
    apply (optimize_suppressed cfg self1 st2 clk2 best2
             (t_store clk1) Hb); [|exact Ht].
    rewrite Hm, Hk. apply lookup_insert_eq. }
  repeat split.
Qed.

Lemma rate_limit_suppresses_repeat_witness :
  let cfg := Config.default_settings in
  let first := optimize cfg slow_init cool_state (clock_at 0) in
  is_Some (snd first) /\
  optimize cfg (fst first) cool_state (clock_at 100) = (fst first, None).
Proof.
  intros cfg first. split; [vm_compute; eauto|].
  eapply (proj1 (proj2 rate_limit_suppresses_repeat)
            cfg slow_init cool_state (clock_at 0) _ _
            cool_state (clock_at 100)).
  - vm_compute. reflexivity.
  - vm_compute. reflexivity.
  - vm_compute. reflexivity.
  - vm_compute. reflexivity.
Defined.

End LoopFacts.

(** ** Percentiles *)

Section PercentileFacts.
Import IMS.

Lemma in_order_nth (l : list Q) (i j : nat) :
  in_order (fun x : Q => x) false l ->
  (i <= j)%nat -> (j < length l)%nat ->
  nth i l 0 <= nth j l 0.
Proof.
  intros Ho. revert i j.
  induction Ho as [|x l Hall Ho IH]; intros i j Hij Hj; simpl in Hj; [lia|].
  destruct j as [|j].
  - replace i with 0%nat by lia. apply Qle_refl.
  - destruct i as [|i]; simpl.
    + rewrite List.Forall_forall in Hall.
      apply (Hall (nth j l 0)). apply nth_In. lia.
    + apply IH; lia.
Qed.

Lemma Qfloor_range (v : Q) (n : Z) :
  0 <= v -> v <= inject_Z n -> (0 <= Qfloor v <= n)%Z.
Proof.
  intros H0 Hn. split.
  - change 0%Z with (Qfloor 0). apply Qfloor_resp_le. exact H0.
  - rewrite <- (Qfloor_Z n). apply Qfloor_resp_le. exact Hn.
Qed.

Lemma gamma_range (v : Q) :
  0 <= v - inject_Z (Qfloor v) /\ v - inject_Z (Qfloor v) < 1.
Proof.
  pose proof (Qfloor_le v) as H1. pose proof (Qlt_floor v) as H2.
  rewrite inject_Z_plus in H2. change (inject_Z 1) with 1 in H2.
  split; lra.
Qed.

(** The interpolated value lies between its two neighbours. *)
Lemma lerp_at_bounds (s : list Q) (v : Q) :
  in_order (fun x : Q => x) false s ->
  0 <= v -> v <= inject_Z (Z.of_nat (length s) - 1) ->
  nth (Z.to_nat (Qfloor v)) s 0 <= lerp_at s v /\
  lerp_at s v
    <= nth (Z.to_nat (Z.min (Qfloor v + 1) (Z.of_nat (length s) - 1))) s 0.
Proof.
  intros Ho H0 Hn. unfold lerp_at.
  destruct (Qfloor_range v _ H0 Hn) as [Hi0 Hin].
  destruct (gamma_range v) as [Hg0 Hg1].
  set (lo := nth (Z.to_nat (Qfloor v)) s 0).
  set (hi := nth (Z.to_nat (Z.min (Qfloor v + 1) (Z.of_nat (length s) - 1)))
               s 0).
  set (g := v - inject_Z (Qfloor v)) in *.
  assert (Hlh : lo <= hi).
  { apply in_order_nth; [exact Ho | lia | lia]. }
  split; nra.
Qed.

(** The interpolation is monotone in the virtual index. *)
Lemma lerp_at_mono (s : list Q) (v1 v2 : Q) :
  in_order (fun x : Q => x) false s ->
  0 <= v1 -> v1 <= v2 -> v2 <= inject_Z (Z.of_nat (length s) - 1) ->
  lerp_at s v1 <= lerp_at s v2.
Proof.
  intros Ho H0 H12 Hn.
  assert (H1n : v1 <= inject_Z (Z.of_nat (length s) - 1))
    by (eapply Qle_trans; eassumption).
  assert (H02 : 0 <= v2) by (eapply Qle_trans; eassumption).
  destruct (Qfloor_range v1 _ H0 H1n) as [Hi0 Hin].
  destruct (Qfloor_range v2 _ H02 Hn) as [Hj0 Hjn].
  pose proof (Qfloor_resp_le v1 v2 H12) as Hij.
  destruct (Z.eq_dec (Qfloor v1) (Qfloor v2)) as [E | NE].
  - unfold lerp_at. rewrite E.
    set (lo := nth (Z.to_nat (Qfloor v2)) s 0).
    set (hi := nth (Z.to_nat (Z.min (Qfloor v2 + 1)
                                (Z.of_nat (length s) - 1))) s 0).
    assert (Hlh : lo <= hi).
    { apply in_order_nth; [exact Ho | lia | lia]. }
    nra.
  - destruct (lerp_at_bounds s v1 Ho H0 H1n) as [_ Hup].
    destruct (lerp_at_bounds s v2 Ho H02 Hn) as [Hlow _].
    eapply Qle_trans; [exact Hup|].
    eapply Qle_trans; [|exact Hlow].
    apply in_order_nth; [exact Ho | lia | lia].
Qed.

Lemma lerp_at_nonneg (s : list Q) (v : Q) :
  in_order (fun x : Q => x) false s ->
  Forall (fun d => 0 <= d) s -> s <> [] ->
  0 <= v -> v <= inject_Z (Z.of_nat (length s) - 1) ->
  0 <= lerp_at s v.
Proof.
  intros Ho Hpos Hne H0 Hn.
  destruct (lerp_at_bounds s v Ho H0 Hn) as [Hlow _].
  eapply Qle_trans; [|exact Hlow].
  destruct (Qfloor_range v _ H0 Hn) as [Hi0 Hin].
  rewrite List.Forall_forall in Hpos. apply Hpos. apply nth_In.
  destruct s; [contradiction|]. simpl length in *. lia.
Qed.

Lemma virtual_index_range (n q : Z) :
  (1 <= n)%Z -> (0 <= q <= 100)%Z ->
  0 <= inject_Z (n - 1) * (inject_Z q / 100) /\
  inject_Z (n - 1) * (inject_Z q / 100) <= inject_Z (n - 1).
Proof.
  intros Hn [Hq0 Hq1].
  assert (H1 : 0 <= inject_Z (n - 1)).
  { change 0 with (inject_Z 0). rewrite <- Zle_Qle. lia. }
  assert (H2 : 0 <= inject_Z q).
  { change 0 with (inject_Z 0). rewrite <- Zle_Qle. lia. }
  assert (H3 : inject_Z q <= 100).
  { change 100 with (inject_Z 100). rewrite <- Zle_Qle. lia. }
  assert (H4 : 0 <= inject_Z q / 100 /\ inject_Z q / 100 <= 1).
  { split.
    - apply Qle_shift_div_l; [reflexivity | lra].
    - apply Qle_shift_div_r; [reflexivity | lra]. }
  split; nra.
Qed.

Lemma virtual_index_mono (n q1 q2 : Z) :
  (1 <= n)%Z -> (q1 <= q2)%Z ->
  inject_Z (n - 1) * (inject_Z q1 / 100)
  <= inject_Z (n - 1) * (inject_Z q2 / 100).
Proof.
  intros Hn Hq.
  assert (H1 : 0 <= inject_Z (n - 1)).
  { change 0 with (inject_Z 0). rewrite <- Zle_Qle. lia. }
  assert (H2 : inject_Z q1 <= inject_Z q2) by (rewrite <- Zle_Qle; lia).
  assert (H3 : inject_Z q1 / 100 <= inject_Z q2 / 100).
  { apply Qmult_le_compat_r; [exact H2 | discriminate]. }
  nra.
Qed.

Lemma percentile_ok (a : list Q) (q : Z) :
  (0 <= q <= 100)%Z ->
  percentile a q =
    Ok (lerp_at (sorted (fun x : Q => x) false a)
          (inject_Z (Z.of_nat (length a) - 1) * (inject_Z q / 100))).
Proof.
  intros [H0 H1]. unfold percentile.
  destruct (Z.ltb_spec q 0); [lia|].
  destruct (Z.ltb_spec 100 q); [lia|].
  reflexivity.
Qed.

Lemma percentile_raises (a : list Q) (q : Z) :
  (q < 0 \/ 100 < q)%Z -> percentile a q = Raise ValueError.
Proof.
  intros H. unfold percentile.
  destruct (Z.ltb_spec q 0); [reflexivity|].
  destruct (Z.ltb_spec 100 q); [reflexivity|]. lia.
Qed.

Lemma percentile_inv (a : list Q) (q : Z) (v : Q) :
  percentile a q = Ok v -> (0 <= q <= 100)%Z.
Proof.
  unfold percentile.
  destruct (Z.ltb_spec q 0); [discriminate|].
  destruct (Z.ltb_spec 100 q); [discriminate|]. lia.
Qed.

(** Percentiles of non-negative data are non-negative and grow with the
    percentile. *)
Lemma percentile_mono (a : list Q) (q1 q2 : Z) (v1 v2 : Q) :
  a <> [] -> Forall (fun d => 0 <= d) a ->
  percentile a q1 = Ok v1 -> percentile a q2 = Ok v2 ->
  (q1 <= q2)%Z -> 0 <= v1 /\ v1 <= v2.
Proof.
  intros Hne Hpos H1 H2 Hq.
  pose proof (percentile_inv a q1 v1 H1) as Hr1.
  pose proof (percentile_inv a q2 v2 H2) as Hr2.
  rewrite (percentile_ok a q1 Hr1) in H1.
  rewrite (percentile_ok a q2 Hr2) in H2.
  injection H1 as <-. injection H2 as <-.
  set (s := sorted (fun x : Q => x) false a).
  assert (Hlen : length s = length a) by apply sorted_length.
  assert (Hn : (1 <= Z.of_nat (length a))%Z).
  { destruct a; [contradiction|]. simpl length. lia. }
  assert (Ho : in_order (fun x : Q => x) false s) by apply sorted_in_order.
  assert (Hs : Forall (fun d => 0 <= d) s).
  { eapply Permutation_Forall; [symmetry; apply sorted_perm | exact Hpos]. }
  assert (Hsne : s <> []).
  { intros E. rewrite E in Hlen. simpl in Hlen. lia. }
  destruct (virtual_index_range _ q1 Hn Hr1) as [Ha1 Hb1].
  destruct (virtual_index_range _ q2 Hn Hr2) as [Ha2 Hb2].
  rewrite <- Hlen in Hn, Ha1, Hb1, Ha2, Hb2. rewrite <- Hlen.
  split.
  - apply lerp_at_nonneg; assumption.
  - apply lerp_at_mono; try assumption.
    apply virtual_index_mono; assumption.
Qed.

End PercentileFacts.

(** ** Training *)

Section FrameFacts.
Import IMS.

Lemma diff_length (prev : option Q) (xs : list (option Q)) :
  length (diff prev xs) = length xs.
Proof.
  revert prev. induction xs as [|x xs IH]; intros prev; simpl;
    [reflexivity|]. rewrite IH. reflexivity.
Qed.

Lemma set_column_length (c : string) (vs : list Q)
    (rs : list (gmap string Q)) :
  length vs = length rs -> length (set_column c vs rs) = length rs.
Proof.
  revert vs. induction rs as [|r rs IH]; intros [|v vs] H; simpl in *;
    try reflexivity; try discriminate.
  rewrite IH; [reflexivity | lia].
Qed.

Lemma derive_gpu_power_length (df : DataFrame) :
  length (rows (derive_gpu_power df)) = length (rows df).
Proof.
  unfold derive_gpu_power.
  destruct (negb (has_column df "gpu_power_kw")
            && has_column df "gpu_energy_j"); [|reflexivity].
  simpl. apply set_column_length.
  unfold gpu_power_from_energy.
  rewrite length_map, diff_length, length_map. reflexivity.
Qed.

Lemma prepare_features_length (features : list string) (df : DataFrame)
    (X : list (list Q)) :
  prepare_features features df = Ok X -> length X = length (rows df).
Proof.
  unfold prepare_features, derive_delta_t.
  assert (Hsel : forall d, select_features features d = Ok X ->
                           length X = length (rows d)).
  { intros d. unfold select_features.
    destruct (List.filter _ features); [|discriminate].
    intros [= <-]. apply length_map. }
  destruct (has_column df "delta_t").
  - simpl. intros H. apply Hsel in H.
    rewrite derive_gpu_power_length in H. exact H.
  - destruct (negb (has_column df "outlet_c")); [discriminate|].
    destruct (negb (has_column df "inlet_c")); [discriminate|].
    simpl. intros H. apply Hsel in H.
    rewrite derive_gpu_power_length in H. simpl in H.
    rewrite length_map in H. exact H.
Qed.

Lemma l1_norm_nonneg (x : list Q) : 0 <= l1_norm x.
Proof.
  induction x as [|v x IH]; simpl; [apply Qle_refl|].
  pose proof (Qabs_nonneg v). lra.
Qed.

Lemma origin_deviation_nonneg (m : unit) (x : list Q) :
  0 <= origin_deviation m x.
Proof. apply l1_norm_nonneg. Qed.

End FrameFacts.

Section TrainFacts.
Import IMS.
Context {Model : Type}.
Variable fit : Z -> list (list Q) -> Model.
Variable deviation : Model -> list Q -> Q.
Hypothesis deviation_nonneg : forall m x, 0 <= deviation m x.

Lemma training_matrix_length (cfg : Config.Settings)
    (self : IMSTrainer Model) (df : DataFrame) (skip : bool)
    (X : list (list Q)) :
  training_matrix cfg self df skip = Ok X -> (min_samples <= length X)%nat.
Proof.
  unfold training_matrix.
  destruct (if skip then Ok df else filter_nominal_windows cfg df)
    as [nominal_df|e]; [|discriminate].
  simpl.
  destruct (Nat.ltb_spec (length (rows nominal_df)) min_samples);
    [discriminate|].
  intros H0. apply prepare_features_length in H0. lia.
Qed.

(** C4, as the code has it.  [train] sets [tau_fast] and [tau_persist] to
    the two configured percentiles of the training deviations and makes
    no check of their order: it returns whenever the training set is
    accepted and both percentiles lie in [0, 100].  When the fast
    percentile is not above the persist percentile, as with the defaults
    95 and 98, the returned thresholds satisfy
    [0 <= tau_fast <= tau_persist]. *)
Theorem train_thresholds_are_percentiles :
  forall (cfg : Config.Settings) (self : IMSTrainer Model) (df : DataFrame)
         (skip : bool),
    (forall self' metrics,
       train fit deviation cfg self df skip = Ok (self', metrics) ->
       exists devs tf tp,
         training_deviations fit deviation cfg self df skip = Ok devs /\
         (min_samples <= length devs)%nat /\
         percentile devs (Config.ims_tau_fast_percentile cfg) = Ok tf /\
         percentile devs (Config.ims_tau_persist_percentile cfg) = Ok tp /\
         tau_fast self' = Some tf /\ tau_persist self' = Some tp /\
         m_tau_fast metrics = tf /\ m_tau_persist metrics = tp /\
         ((Config.ims_tau_fast_percentile cfg
           <= Config.ims_tau_persist_percentile cfg)%Z ->
          0 <= tf /\ tf <= tp)) /\
    (forall devs,
       training_deviations fit deviation cfg self df skip = Ok devs ->
       (0 <= Config.ims_tau_fast_percentile cfg <= 100)%Z ->
       (0 <= Config.ims_tau_persist_percentile cfg <= 100)%Z ->
       exists self' metrics,
         train fit deviation cfg self df skip = Ok (self', metrics)) /\
    (Config.ims_tau_fast_percentile Config.default_settings = 95 /\
     Config.ims_tau_persist_percentile Config.default_settings = 98)%Z.
Proof.
  intros cfg self df skip. split; [|split; [|split; reflexivity]].
  - intros self' metrics. unfold train, training_deviations.
    destruct (training_matrix cfg self df skip) as [X|e] eqn:EX;
      [|discriminate].
    simpl.
    set (devs := map (deviation (fit (n_clusters self) X)) X).
    destruct (percentile devs (Config.ims_tau_fast_percentile cfg))
      as [tf|e] eqn:Ef; [|discriminate].
    simpl.
    destruct (percentile devs (Config.ims_tau_persist_percentile cfg))
      as [tp|e] eqn:Ep; [|discriminate].
    simpl.
    destruct (percentile devs 50) as [med|e] eqn:Em; [|discriminate].
    simpl. intros [= <- <-].
    pose proof (training_matrix_length cfg self df skip X EX) as HX.
    assert (Hlen : length devs = length X) by apply length_map.
    exists devs, tf, tp. simpl.
    split; [reflexivity|].
    split; [rewrite Hlen; exact HX|].
    split; [exact Ef|]. split; [exact Ep|].
    do 4 (split; [reflexivity|]).
    intros Hq.
    apply (percentile_mono devs (Config.ims_tau_fast_percentile cfg)
             (Config.ims_tau_persist_percentile cfg) tf tp);
      try assumption.
    + intros E. rewrite E in Hlen. simpl in Hlen.
      unfold min_samples in HX. lia.
    + apply List.Forall_forall. intros d Hd.
      apply in_map_iff in Hd. destruct Hd as (x & <- & _).
      apply deviation_nonneg.
  - intros devs. unfold train, training_deviations.
    destruct (training_matrix cfg self df skip) as [X|e]; [|discriminate].
    simpl. intros _ Hf Hp.
    rewrite (percentile_ok _ _ Hf). simpl.
    rewrite (percentile_ok _ _ Hp). simpl.
    unfold percentile. cbn [Z.ltb Z.compare Pos.compare Pos.compare_cont orb].
    simpl. eauto.
Qed.

End TrainFacts.

Section TrainExamples.
Import IMS.

Lemma train_thresholds_are_percentiles_witness :
  exists self' metrics tf tp,
    train origin_fit origin_deviation Config.default_settings
      (trainer_init Config.default_settings None) ramp_frame false
      = Ok (self', metrics) /\
    tau_fast self' = Some tf /\ tau_persist self' = Some tp /\
    0 <= tf /\ tf <= tp.
Proof.
  pose proof (train_thresholds_are_percentiles origin_fit origin_deviation
                origin_deviation_nonneg Config.default_settings
                (trainer_init Config.default_settings None) ramp_frame false)
    as (HA & HB & _).
  destruct (training_deviations origin_fit origin_deviation
              Config.default_settings
              (trainer_init Config.default_settings None) ramp_frame false)
    as [devs|e] eqn:Ed; [|vm_compute in Ed; discriminate].
  destruct (HB devs eq_refl ltac:(simpl; lia) ltac:(simpl; lia))
    as (self' & metrics & Ht).
  destruct (HA self' metrics Ht)
    as (devs' & tf & tp & _ & _ & _ & _ & Hf & Hp & _ & _ & Hord).
  exists self', metrics, tf, tp.
  destruct (Hord ltac:(simpl; lia)) as [H0 H1].
  repeat split; assumption.
Defined.

(** With the two percentiles exchanged [train] returns a model whose
    [tau_persist] is below its [tau_fast]; nothing raises. *)
Lemma train_accepts_inverted_thresholds :
  exists self' metrics tf tp,
    train origin_fit origin_deviation swapped_percentiles
      (trainer_init swapped_percentiles None) ramp_frame false
      = Ok (self', metrics) /\
    tau_fast self' = Some tf /\ tau_persist self' = Some tp /\
    tp < tf.
Proof.
  destruct (train origin_fit origin_deviation swapped_percentiles
              (trainer_init swapped_percentiles None) ramp_frame false)
    as [[self' metrics]|e] eqn:E; vm_compute in E; [|discriminate].
  injection E as <- <-.
  do 4 eexists. repeat split; reflexivity.
Qed.

End TrainExamples.

(** ** Classification *)

Section ClassifyFacts.
Import IMS.
Context {Model : Type}.

Lemma scorer_init_ok (t : IMSTrainer Model) (s : IMSScorer Model) :
  scorer_init t = Ok s ->
  trainer s = t /\ is_Some (tau_fast t) /\ is_Some (tau_persist t).
Proof.
  unfold scorer_init.
  destruct (tau_fast t) as [tf|]; [|discriminate].
  destruct (tau_persist t) as [tp|]; [|discriminate].
  intros [= <-]. simpl. eauto.
Qed.

(** C5, as the code has it.  For a scorer built from a trained model,
    [classify_deviation] returns "nominal" exactly when [d < tau_fast],
    "warning" exactly when [tau_fast <= d < tau_persist], and "critical"
    exactly when [d] is at least both thresholds.  Only for a model that
    satisfies [tau_fast <= tau_persist], which nothing in the code
    ensures, is that exactly when [d >= tau_persist].  The result
    depends on the value of [d] and the model only. *)
Theorem classify_deviation_bands :
  forall (t : IMSTrainer Model) (s : IMSScorer Model) (d : Q),
    scorer_init t = Ok s ->
    exists tf tp,
      tau_fast (trainer s) = Some tf /\ tau_persist (trainer s) = Some tp /\
      (classify_deviation s d = Ok "nominal" <-> d < tf) /\
      (classify_deviation s d = Ok "warning" <-> tf <= d /\ d < tp) /\
      (classify_deviation s d = Ok "critical" <-> tf <= d /\ tp <= d) /\
      (tf <= tp -> (classify_deviation s d = Ok "critical" <-> tp <= d)) /\
      (forall d', d' == d -> classify_deviation s d' = classify_deviation s d).
Proof.
  intros t s d Hs.
  destruct (scorer_init_ok t s Hs) as (Ht & [tf Hf] & [tp Hp]).
  rewrite <- Ht in Hf, Hp.
  exists tf, tp. split; [exact Hf|]. split; [exact Hp|].
  assert (Hcases :
    (d < tf /\ classify_deviation s d = Ok "nominal") \/
    (tf <= d /\ d < tp /\ classify_deviation s d = Ok "warning") \/
    (tf <= d /\ tp <= d /\ classify_deviation s d = Ok "critical")).
  { unfold classify_deviation. rewrite Hf, Hp.
    destruct (Qltb d tf) eqn:E1; qbool; [left; auto|].
    destruct (Qltb d tp) eqn:E2; qbool; right; [left | right]; auto. }
  split; [|split; [|split; [|split]]].
  - destruct Hcases as [[H1 ->] | [(H1 & H2 & ->) | (H1 & H2 & ->)]];
      split; try discriminate; try tauto; intros H;
      exfalso; exact (Qlt_not_le _ _ H H1).
  - destruct Hcases as [[H1 ->] | [(H1 & H2 & ->) | (H1 & H2 & ->)]];
      split; try discriminate; try tauto; intros [Ha Hb]; exfalso.
    + exact (Qlt_not_le _ _ H1 Ha).
    + exact (Qlt_not_le _ _ Hb H2).
  - destruct Hcases as [[H1 ->] | [(H1 & H2 & ->) | (H1 & H2 & ->)]];
      split; try discriminate; try tauto; intros [Ha Hb]; exfalso.
    + exact (Qlt_not_le _ _ H1 Ha).
    + exact (Qlt_not_le _ _ H2 Hb).
  - intros Hord.
    destruct Hcases as [[H1 ->] | [(H1 & H2 & ->) | (H1 & H2 & ->)]];
      split; try discriminate; try tauto; intros Hb; exfalso.
    + apply (Qlt_not_le _ _ H1). eapply Qle_trans; eassumption.
    + exact (Qlt_not_le _ _ H2 Hb).
  - intros d' Hd. unfold classify_deviation. rewrite Hf, Hp.
    assert (E1 : Qltb d' tf = Qltb d tf).
    { unfold Qltb. rewrite Hd. reflexivity. }
    assert (E2 : Qltb d' tp = Qltb d tp).
    { unfold Qltb. rewrite Hd. reflexivity. }
    rewrite E1, E2. reflexivity.
Qed.

End ClassifyFacts.

Section ClassifyExamples.
Import IMS.

Lemma classify_deviation_bands_witness :
  classify_deviation {| trainer := fitted_trainer 1.0 2.0 |} 2.5
  = Ok "critical".
Proof.
  destruct (classify_deviation_bands (fitted_trainer 1.0 2.0)
              {| trainer := fitted_trainer 1.0 2.0 |} 2.5 eq_refl)
    as (tf & tp & Hf & Hp & _ & _ & _ & Hc & _).
  simpl in Hf, Hp. injection Hf as <-. injection Hp as <-.
  apply Hc; [lra | lra].
Defined.

(** With [tau_persist] below [tau_fast] a deviation at or above
    [tau_persist] is classified "nominal": for a trainer holding 2.0 and
    1.0, which the scorer accepts, and for the model [train] returns when
    the percentiles are configured as 98 and 95, at the deviation
    [tau_persist] itself. *)
Lemma classify_nominal_above_tau_persist :
  (exists s,
     scorer_init (fitted_trainer 2.0 1.0) = Ok s /\
     tau_persist (trainer s) = Some 1.0 /\ 1.0 <= 1.5 /\
     classify_deviation s 1.5 = Ok "nominal") /\
  (exists self' metrics s tp,
     train origin_fit origin_deviation swapped_percentiles
       (trainer_init swapped_percentiles None) ramp_frame false
       = Ok (self', metrics) /\
     scorer_init self' = Ok s /\
     tau_persist (trainer s) = Some tp /\ tp <= tp /\
     classify_deviation s tp = Ok "nominal").
Proof.
  split.
  - eexists. split; [reflexivity|]. split; [reflexivity|].
    split; [discriminate | reflexivity].
  - destruct (train origin_fit origin_deviation swapped_percentiles
                (trainer_init swapped_percentiles None) ramp_frame false)
      as [[self' metrics]|e] eqn:E; vm_compute in E; [|discriminate].
    injection E as <- <-.
    do 4 eexists. split; [reflexivity|]. split; [reflexivity|].
    split; [reflexivity|]. split; [apply Qle_refl|].
    vm_compute. reflexivity.
Qed.

End ClassifyExamples.

(** ** Scoring one sample and scoring a batch *)

Section ScoreFacts.
Import IMS.

Lemma has_column_of (samples : list (gmap string Q)) (k : string) :
  has_column (DataFrame_of samples) k = true <->
  exists s, In s samples /\ is_Some (s !! k).
Proof.
  unfold has_column, DataFrame_of. simpl.
  rewrite bool_decide_eq_true, elem_of_union_list. split.
  - intros (X & HX & Hk). apply list_elem_of_fmap in HX.
    destruct HX as (s & -> & Hs).
    exists s. split; [apply list_elem_of_In; exact Hs|].
    apply elem_of_dom. exact Hk.
  - intros (s & Hs & Hk). exists (dom s). split.
    + apply list_elem_of_fmap. exists s.
      split; [reflexivity | apply list_elem_of_In; exact Hs].
    + apply elem_of_dom. exact Hk.
Qed.

Lemma has_column_insert (k c : string) (X : gset string)
    (rs : list (gmap string Q)) :
  has_column {| columns := {[k]} ∪ X; rows := rs |} c
  = String.eqb c k || has_column {| columns := X; rows := rs |} c.
Proof.
  unfold has_column. simpl. apply eq_true_iff_eq.
  rewrite orb_true_iff, !bool_decide_eq_true, String.eqb_eq. set_solver.
Qed.

Lemma filter_ext_on (f g : string -> bool) (l : list string) :
  (forall x, In x l -> f x = g x) -> List.filter f l = List.filter g l.
Proof.
  induction l as [|x l IH]; intros H; simpl; [reflexivity|].
  rewrite (H x (or_introl eq_refl)), IH; [reflexivity|].
  intros y Hy. apply H. right. exact Hy.
Qed.

Lemma select_plan_ext (features : list string) (h1 h2 : string -> bool)
    (g : gmap string Q -> gmap string Q) :
  (forall k, In k features -> h1 k = h2 k) ->
  select_plan features h1 g = select_plan features h2 g.
Proof.
  intros H. unfold select_plan.
  rewrite (filter_ext_on (fun f => negb (h1 f)) (fun f => negb (h2 f)));
    [reflexivity|].
  intros x Hx. rewrite (H x Hx). reflexivity.
Qed.

(** The plan depends on the columns through the keys read only. *)
Lemma row_plan_ext (features : list string) (h1 h2 : string -> bool) :
  (forall k, In k (keys_read features) -> h1 k = h2 k) ->
  row_plan features h1 = row_plan features h2.
Proof.
  intros H. unfold row_plan.
  assert (Hf : forall k, In k features -> h1 k = h2 k).
  { intros k Hk. apply H. unfold keys_read. apply in_or_app. right.
    exact Hk. }
  rewrite <- (H "delta_t"), <- (H "outlet_c"), <- (H "inlet_c");
    try (unfold keys_read; simpl; tauto).
  destruct (h1 "delta_t"); [apply select_plan_ext; exact Hf|].
  destruct (negb (h1 "outlet_c")); [reflexivity|].
  destruct (negb (h1 "inlet_c")); [reflexivity|].
  apply select_plan_ext. intros k Hk. rewrite (Hf k Hk). reflexivity.
Qed.

Lemma select_features_plan (features : list string) (df : DataFrame)
    (g : gmap string Q -> gmap string Q) (rs : list (gmap string Q)) :
  rows df = map g rs ->
  select_features features df =
    (f ← select_plan features (has_column df) g; Ok (map f rs)).
Proof.
  intros Hr. unfold select_features, select_plan.
  destruct (List.filter _ features); [|reflexivity].
  simpl. rewrite Hr, map_map. reflexivity.
Qed.

(** Without a power column to derive, [prepare_features] applies the row
    plan of the frame's columns to every row. *)
Lemma prepare_features_plan (features : list string) (df : DataFrame) :
  has_column df "gpu_power_kw" = true \/
  has_column df "gpu_energy_j" = false ->
  prepare_features features df =
    (f ← row_plan features (has_column df); Ok (map f (rows df))).
Proof.
  intros Hp. unfold prepare_features, derive_delta_t, row_plan.
  destruct (has_column df "delta_t") eqn:Ed.
  - simpl. unfold derive_gpu_power.
    replace (negb (has_column df "gpu_power_kw")
             && has_column df "gpu_energy_j") with false
      by (destruct Hp as [-> | ->]; [reflexivity | apply eq_sym, andb_false_r]).
    apply select_features_plan. rewrite map_id. reflexivity.
  - destruct (negb (has_column df "outlet_c")); [reflexivity|].
    destruct (negb (has_column df "inlet_c")); [reflexivity|].
    simpl.
    set (df1 := {| columns := {["delta_t"]} ∪ columns df;
                   rows := map with_delta_t (rows df) |}).
    assert (Hcol : forall c, has_column df1 c
                             = String.eqb c "delta_t" || has_column df c).
    { intros c. unfold df1. rewrite has_column_insert.
      destruct df; reflexivity. }
    unfold derive_gpu_power.
    replace (negb (has_column df1 "gpu_power_kw")
             && has_column df1 "gpu_energy_j") with false.
    + rewrite (select_features_plan features df1 with_delta_t (rows df))
        by reflexivity.
      rewrite (select_plan_ext features (has_column df1)
                 (fun c => String.eqb c "delta_t" || has_column df c));
        [reflexivity|].
      intros k _. apply Hcol.
    + rewrite !Hcol. simpl.
      destruct Hp as [-> | ->]; [reflexivity | apply eq_sym, andb_false_r].
Qed.

Lemma power_not_derived_frame (samples : list (gmap string Q)) :
  power_not_derived samples ->
  has_column (DataFrame_of samples) "gpu_power_kw" = true \/
  has_column (DataFrame_of samples) "gpu_energy_j" = false.
Proof.
  intros Hp.
  destruct (has_column (DataFrame_of samples) "gpu_power_kw") eqn:E1;
    [left; reflexivity|].
  right.
  destruct (has_column (DataFrame_of samples) "gpu_energy_j") eqn:E2;
    [|reflexivity].
  apply has_column_of in E2. destruct E2 as (s & Hs & He).
  destruct (Hp s Hs) as [H | H].
  - assert (has_column (DataFrame_of samples) "gpu_power_kw" = true)
      by (apply has_column_of; eauto).
    congruence.
  - rewrite H in He. destruct He as [? [=]].
Qed.

Lemma same_fields_columns (features : list string)
    (samples : list (gmap string Q)) (s : gmap string Q) (k : string) :
  same_fields features samples -> In s samples ->
  In k (keys_read features) ->
  has_column (DataFrame_of samples) k = has_column (DataFrame_of [s]) k.
Proof.
  intros Hsame Hs Hk. apply eq_true_iff_eq.
  rewrite !has_column_of. split.
  - intros (s' & Hs' & H). exists s. split; [left; reflexivity|].
    apply (Hsame k s' s Hk Hs' Hs). exact H.
  - intros (s' & [E | []] & H). subst s'. exists s. auto.
Qed.

Lemma collect_map {A B : Type} (f : A -> B) (l : list A) :
  collect (fun x => Ok (f x)) l = Ok (map f l).
Proof.
  induction l as [|x l IH]; simpl; [reflexivity|].
  rewrite IH. reflexivity.
Qed.

Lemma collect_ext {A B : Type} (f g : A -> Result B) (l : list A) :
  (forall x, In x l -> f x = g x) -> collect f l = collect g l.
Proof.
  induction l as [|x l IH]; intros H; simpl; [reflexivity|].
  rewrite (H x (or_introl eq_refl)), IH; [reflexivity|].
  intros y Hy. apply H. right. exact Hy.
Qed.

Lemma collect_lookup {A B : Type} (f : A -> Result B) (l : list A)
    (ys : list B) :
  collect f l = Ok ys ->
  length ys = length l /\
  forall (i : nat) (x : A), l !! i = Some x ->
    exists y, ys !! i = Some y /\ f x = Ok y.
Proof.
  revert ys. induction l as [|x l IH]; intros ys; simpl.
  - intros [= <-]. split; [reflexivity|]. intros i x [=].
  - destruct (f x) as [y|e] eqn:Ex; [|discriminate]. simpl.
    destruct (collect f l) as [ys'|e]; [|discriminate]. simpl.
    intros [= <-]. destruct (IH ys' eq_refl) as [Hl Hi].
    split; [simpl; rewrite Hl; reflexivity|].
    intros [|i] x'; simpl.
    + intros [= <-]. eauto.
    + apply Hi.
Qed.

Context {Model : Type}.
Variable deviation : Model -> list Q -> Q.
Variable transform : Model -> list (list Q) -> list Q.

(** What is used of the library: it returns one distance per row, and
    [deviation] is its distance on a one-row matrix. *)
Hypothesis transform_length :
  forall m X, length (transform m X) = length X.
Hypothesis transform_one_row :
  forall m x, transform m [x] = [deviation m x].

Lemma score_batch_length (s : IMSScorer Model)
    (samples : list (gmap string Q)) (scores : list Q) :
  score_batch transform s samples = Ok scores ->
  length scores = length samples.
Proof.
  unfold score_batch. destruct samples as [|s0 rest].
  - intros [= <-]. reflexivity.
  - destruct (prepare_features _ _) as [X|e] eqn:EX; [|discriminate].
    simpl. destruct (model (trainer s)) as [m|]; [|discriminate].
    intros [= <-]. rewrite transform_length.
    apply prepare_features_length in EX. exact EX.
Qed.

Lemma score_sample_plan (s : IMSScorer Model) (sample : gmap string Q) :
  is_Some (sample !! "gpu_power_kw") \/ sample !! "gpu_energy_j" = None ->
  score_sample deviation s sample =
    (f ← row_plan (features (trainer s)) (has_column (DataFrame_of [sample]));
     match model (trainer s) with
     | Some m => Ok (deviation m (f sample))
     | None => Raise NotFittedError
     end).
Proof.
  intros Hp. unfold score_sample.
  rewrite prepare_features_plan.
  - destruct (row_plan _ _) as [f|e]; [|reflexivity]. simpl.
    destruct (model (trainer s)); reflexivity.
  - apply power_not_derived_frame. intros s' [<- | []]. exact Hp.
Qed.

Lemma score_batch_plan (s : IMSScorer Model)
    (samples : list (gmap string Q)) :
  samples <> [] -> power_not_derived samples ->
  score_batch transform s samples =
    (f ← row_plan (features (trainer s)) (has_column (DataFrame_of samples));
     match model (trainer s) with
     | Some m => Ok (transform m (map f samples))
     | None => Raise NotFittedError
     end).
Proof.
  intros Hne Hp. unfold score_batch.
  destruct samples as [|s0 rest]; [contradiction|].
  rewrite prepare_features_plan by (apply power_not_derived_frame, Hp).
  destruct (row_plan _ _) as [f|e]; reflexivity.
Qed.

(** A batch of one sample is scored as the sample alone. *)
Lemma score_batch_single (s : IMSScorer Model) (sample : gmap string Q) :
  score_batch transform s [sample] =
    (d ← score_sample deviation s sample; Ok [d]).
Proof.
  unfold score_batch, score_sample.
  destruct (prepare_features _ _) as [X|e] eqn:EX; [|reflexivity].
  apply prepare_features_length in EX. simpl in EX.
  destruct X as [|x [|y X]]; try discriminate.
  simpl. destruct (model (trainer s)) as [m|]; [|reflexivity].
  simpl. rewrite transform_one_row. reflexivity.
Qed.


End ScoreFacts.

Section ScoreExamples.
Import IMS.

Lemma origin_transform_length (m : unit) (X : list (list Q)) :
  length (origin_transform m X) = length X.
Proof. apply length_map. Qed.

Lemma origin_transform_one_row (m : unit) (x : list Q) :
  origin_transform m [x] = [origin_deviation m x].
Proof. reflexivity. Qed.

Lemma nominal_samples_same_fields :
  same_fields FEATURE_COLUMNS [nominal_sample 20; nominal_sample 21] /\
  power_not_derived [nominal_sample 20; nominal_sample 21].
Proof.
  split.
  - intros k s1 s2 Hk H1 H2.
    assert (Hall : forall s, In s [nominal_sample 20; nominal_sample 21] ->
                     is_Some (s !! k) <->
                     is_Some (nominal_sample 20 !! k)).
    { intros s [<- | [<- | []]]; [tauto|].
      unfold keys_read in Hk. simpl in Hk.
      repeat (destruct Hk as [<- | Hk];
              [vm_compute; split; intros [v Hv]; try discriminate; eauto|]).
      destruct Hk. }
    rewrite (Hall s1 H1), (Hall s2 H2). tauto.
  - intros s [<- | [<- | []]]; left; vm_compute; eauto.
Qed.



End ScoreExamples.

(** ** The hysteresis filter: invariants and runs *)

Section MMSRuns.
Import MMS.

Lemma update_thresholds_set (f : MMSFilter) (d : Q) :
  thresholds_set f -> thresholds_set (fst (update f d)).
Proof.
  intros [[tf Htf] [tp Htp]].
  rewrite (update_set f d tf tp Htf Htp). simpl.
  split; [exists tf | exists tp]; assumption.
Qed.

Lemma update_tau (f : MMSFilter) (d : Q) :
  tau_fast (fst (update f d)) = tau_fast f /\
  tau_persist (fst (update f d)) = tau_persist f.
Proof.
  unfold update.
  destruct (tau_fast f) eqn:E1; destruct (tau_persist f) eqn:E2; simpl; auto.
Qed.

Lemma deque_append_length (h : list UpdateResult) (r : UpdateResult) :
  (length h <= history_maxlen)%nat ->
  (length (deque_append h r) <= history_maxlen)%nat.
Proof.
  unfold deque_append, history_maxlen. intros H.
  destruct (Nat.leb_spec 100 (length h)).
  - rewrite length_app. simpl. destruct h; simpl in *; lia.
  - rewrite length_app. simpl. lia.
Qed.

(** X1.  Every filter built by the constructor and driven through
    [update], [update_thresholds] and [reset] has non-negative counters of
    which at least one is zero, and a history of at most 100 entries. *)
Theorem counters_and_history_invariant (cfg : Config.Settings)
    (f : MMSFilter) :
  reachable cfg f ->
  (0 <= consecutive_high f)%Z /\ (0 <= consecutive_low f)%Z /\
  (consecutive_high f = 0%Z \/ consecutive_low f = 0%Z) /\
  (length (history f) <= 100)%nat.
Proof.
  induction 1 as [a p tf tp | f d Hr IH | f tf tp Hr IH | f Hr IH].
  - simpl. repeat split; lia.
  - destruct IH as (Hh & Hl & Hz & Hn).
    unfold update.
    destruct (tau_fast f) as [tf|]; [|repeat split; assumption].
    destruct (tau_persist f) as [tp|]; [|repeat split; assumption].
    simpl.
    pose proof (next_counters_exclusive f tf tp (next_ema f d)) as Hx.
    simpl in Hx. destruct Hx as (Hz' & Hh' & Hl').
    split; [lia|]. split; [lia|]. split; [exact Hz'|].
    apply (deque_append_length _ _ Hn).
  - exact IH.
  - simpl. repeat split; lia.
Qed.

Lemma counters_and_history_invariant_witness :
  let f := feed scenario_filter (repeat 5.0 7) in
  (0 <= consecutive_high f)%Z /\ (0 <= consecutive_low f)%Z /\
  (consecutive_high f = 0%Z \/ consecutive_low f = 0%Z) /\
  (length (history f) <= 100)%nat.
Proof.
  exact (counters_and_history_invariant Config.default_settings
           (feed scenario_filter (repeat 5.0 7))
           (feed_reachable _ _ _ (reach_init _ _ _ _ _))).
Defined.

Lemma last_n_short {A : Type} (n : nat) (l : list A) :
  (length l <= n)%nat -> last_n n l = l.
Proof.
  intros H. unfold last_n. replace (length l - n)%nat with 0%nat by lia.
  reflexivity.
Qed.

Lemma last_n_app {A : Type} (n : nat) (l k : list A) :
  last_n n (last_n n l ++ k) = last_n n (l ++ k).
Proof.
  unfold last_n. rewrite !length_app, length_drop.
  destruct (Nat.le_gt_cases (length l) n) as [H | H].
  - replace (length l - n)%nat with 0%nat by lia. simpl.
    rewrite Nat.sub_0_r. reflexivity.
  - replace (length l - (length l - n) + length k - n)%nat
      with (length k) by lia.
    replace (length l + length k - n)%nat
      with ((length l - n) + length k)%nat by lia.
    rewrite <- drop_drop.
    rewrite (drop_app_le l k (length l - n)) by lia.
    reflexivity.
Qed.

Lemma deque_append_last_n (h : list UpdateResult) (r : UpdateResult) :
  (length h <= history_maxlen)%nat ->
  deque_append h r = last_n history_maxlen (h ++ [r]).
Proof.
  unfold deque_append, last_n. intros H.
  destruct (Nat.leb_spec history_maxlen (length h)) as [H0 | H0];
    unfold history_maxlen in *; rewrite length_app; cbn [length].
  - replace (length h + 1 - 100)%nat with 1%nat by lia.
    destruct h; [simpl in *; lia | reflexivity].
  - replace (length h + 1 - 100)%nat with 0%nat by lia. reflexivity.
Qed.

Lemma last_n_length {A : Type} (n : nat) (l : list A) :
  (length (last_n n l) <= n)%nat.
Proof. unfold last_n. rewrite length_drop. lia. Qed.

Lemma history_feed (f : MMSFilter) (ds : list Q) :
  thresholds_set f -> (length (history f) <= history_maxlen)%nat ->
  history (feed f ds) = last_n history_maxlen (history f ++ results f ds).
Proof.
  revert f. induction ds as [|d ds IH]; intros f Ht Hn.
  - simpl. rewrite app_nil_r. symmetry. apply last_n_short. exact Hn.
  - simpl. rewrite IH.
    + destruct Ht as [[tf Htf] [tp Htp]].
      rewrite (update_set f d tf tp Htf Htp). simpl.
      rewrite (deque_append_last_n _ _ Hn).
      rewrite last_n_app. rewrite <- app_assoc. reflexivity.
    + apply update_thresholds_set, Ht.
    + destruct Ht as [[tf Htf] [tp Htp]].
      rewrite (update_set f d tf tp Htf Htp). simpl.
      apply deque_append_length, Hn.
Qed.

Lemma results_length (f : MMSFilter) (ds : list Q) :
  length (results f ds) = length ds.
Proof.
  revert f. induction ds as [|d ds IH]; intros f; simpl; [reflexivity|].
  rewrite IH. reflexivity.
Qed.

(** X2.  The history is the window of the last 100 dictionaries that
    [update] returned: after any sequence of updates of a filter with both
    thresholds set and an empty history (a constructed or reset filter),
    the history holds the returned dictionaries in call order, without the
    oldest ones once there are more than 100. *)
Theorem history_is_recent_results (f : MMSFilter) (ds : list Q) :
  thresholds_set f -> history f = [] ->
  history (feed f ds) = last_n 100 (results f ds) /\
  length (history (feed f ds)) = Nat.min (length ds) 100.
Proof.
  intros Ht Hh.
  assert (E : history (feed f ds) = last_n 100 (results f ds)).
  { rewrite (history_feed f ds Ht); rewrite Hh; [reflexivity|].
    simpl. unfold history_maxlen. lia. }
  split; [exact E|].
  rewrite E. unfold last_n. rewrite length_drop.
  rewrite results_length. lia.
Qed.

Lemma history_is_recent_results_witness :
  length (history (feed scenario_filter (repeat 5.0 120))) = 100%nat.
Proof.
  exact (proj2 (history_is_recent_results scenario_filter (repeat 5.0 120)
                  (conj (ex_intro _ 1.0 eq_refl) (ex_intro _ 2.0 eq_refl))
                  eq_refl)).
Defined.

End MMSRuns.

(** ** The hysteresis filter: sustained runs and the dwell time

    The statements of this part read the EMA only through the comparisons
    the code makes with it: they say nothing about the value the smoothing
    step produces. *)

Section MMSDynamics.
Import MMS.

(** One update whose EMA comes out above [tau_persist]. *)
Lemma high_step (f : MMSFilter) (tf tp d : Q) :
  tau_fast f = Some tf -> tau_persist f = Some tp ->
  tp < r_ema (snd (update f d)) ->
  let f' := fst (update f d) in
  consecutive_high f' = (consecutive_high f + 1)%Z /\
  consecutive_low f' = 0%Z /\
  state f' = next_state f (consecutive_high f + 1) 0.
Proof.
  intros Htf Htp.
  rewrite (update_set f d tf tp Htf Htp). simpl. intros Hn.
  unfold next_counters. apply Qltb_lt in Hn. rewrite Hn. simpl.
  repeat split.
Qed.

(** One update whose EMA comes out below [tau_fast], when
    [tau_fast <= tau_persist]. *)
Lemma low_step (f : MMSFilter) (tf tp d : Q) :
  tau_fast f = Some tf -> tau_persist f = Some tp ->
  tf <= tp ->
  r_ema (snd (update f d)) < tf ->
  let f' := fst (update f d) in
  consecutive_high f' = 0%Z /\
  consecutive_low f' = (consecutive_low f + 1)%Z /\
  state f' = next_state f 0 (consecutive_low f + 1).
Proof.
  intros Htf Htp Hord.
  rewrite (update_set f d tf tp Htf Htp). simpl. intros Hn.
  unfold next_counters.
  assert (Hb1 : Qltb tp (next_ema f d) = false).
  { apply Qltb_ge. apply Qlt_le_weak. eapply Qlt_le_trans; eassumption. }
  apply Qltb_lt in Hn. rewrite Hb1, Hn. simpl.
  repeat split.
Qed.

Lemma stays_persistent (f : MMSFilter) (tf tp : Q) (ds : list Q) :
  tau_fast f = Some tf -> tau_persist f = Some tp ->
  (1 <= persist_ticks f)%Z ->
  state f = "persistent" ->
  Forall (fun r => tp < r_ema r) (results f ds) ->
  state (feed f ds) = "persistent".
Proof.
  revert f. induction ds as [|d ds IH];
    intros f Htf Htp Hp Hs Hall; [exact Hs|].
  simpl in *. inversion Hall as [|? ? Hd Hrest]; subst.
  destruct (high_step f tf tp d Htf Htp Hd) as (_ & _ & Hs').
  destruct (update_tau f d) as [Etf Etp].
  apply (IH (fst (update f d))).
  - rewrite Etf. exact Htf.
  - rewrite Etp. exact Htp.
  - rewrite update_persist_ticks. exact Hp.
  - rewrite Hs'. unfold next_state. rewrite Hs. simpl.
    destruct (Z.leb_spec (persist_ticks f) 0); [lia | reflexivity].
  - exact Hrest.
Qed.

Lemma stays_transient (f : MMSFilter) (tf tp : Q) (ds : list Q) :
  tau_fast f = Some tf -> tau_persist f = Some tp ->
  tf <= tp ->
  (1 <= persist_ticks f)%Z ->
  state f = "transient" ->
  Forall (fun r => r_ema r < tf) (results f ds) ->
  state (feed f ds) = "transient".
Proof.
  revert f. induction ds as [|d ds IH];
    intros f Htf Htp Hord Hp Hs Hall; [exact Hs|].
  simpl in *. inversion Hall as [|? ? Hd Hrest]; subst.
  destruct (low_step f tf tp d Htf Htp Hord Hd) as (_ & _ & Hs').
  destruct (update_tau f d) as [Etf Etp].
  apply (IH (fst (update f d))).
  - rewrite Etf. exact Htf.
  - rewrite Etp. exact Htp.
  - exact Hord.
  - rewrite update_persist_ticks. exact Hp.
  - rewrite Hs'. unfold next_state. rewrite Hs. simpl.
    destruct (Z.leb_spec (persist_ticks f) 0); [lia | reflexivity].
  - exact Hrest.
Qed.

(** X4.  Over a run of updates in each of which the EMA came out above
    [tau_persist] (as the returned dictionaries report it), a transient
    filter whose high counter is below the tick count is persistent at
    the end exactly when the counter plus the length of the run reaches
    [persist_ticks]: it flips at that update, not before, and stays
    persistent for the rest of the run. *)
Theorem sustained_high_flips (f : MMSFilter) (tf tp : Q) (ds : list Q) :
  tau_fast f = Some tf -> tau_persist f = Some tp ->
  state f = "transient" ->
  (0 <= consecutive_high f < persist_ticks f)%Z ->
  Forall (fun r => tp < r_ema r) (results f ds) ->
  (state (feed f ds) = "persistent" <->
   (persist_ticks f <= consecutive_high f + Z.of_nat (length ds))%Z).
Proof.
  revert f. induction ds as [|d ds IH]; intros f Htf Htp Hs Hh Hall.
  - simpl. rewrite Hs. split; [discriminate | lia].
  - simpl in Hall. inversion Hall as [|? ? Hd Hrest]; subst.
    simpl feed.
    destruct (high_step f tf tp d Htf Htp Hd) as (Hh' & _ & Hs').
    destruct (update_tau f d) as [Etf Etp].
    pose proof (update_persist_ticks f d) as Ep.
    rewrite Htf in Etf. rewrite Htp in Etp.
    unfold next_state in Hs'. rewrite Hs in Hs'. simpl in Hs'.
    destruct (Z.leb_spec (persist_ticks f) (consecutive_high f + 1))
      as [Hle | Hlt].
    + split; [intros _; simpl length; lia|]. intros _.
      apply (stays_persistent _ tf tp); auto. lia.
    + rewrite (IH (fst (update f d))); auto.
      * rewrite Ep, Hh'. simpl length. lia.
      * rewrite Ep, Hh'. lia.
Qed.

Lemma sustained_high_flips_witness :
  state (feed scenario_filter [3.0; 4.0; 2.5; 6.0; 3.0; 2.1; 9.0])
    = "persistent" <->
  (6 <= 0 + Z.of_nat 7)%Z.
Proof.
  apply (sustained_high_flips scenario_filter 1.0 2.0
           [3.0; 4.0; 2.5; 6.0; 3.0; 2.1; 9.0]).
  - reflexivity.
  - reflexivity.
  - reflexivity.
  - vm_compute. split; [discriminate | reflexivity].
  - vm_compute. repeat constructor.
Defined.

(** X5.  Recovery is symmetric when [tau_fast <= tau_persist]: over a run
    of updates in each of which the EMA came out below [tau_fast], a
    persistent filter whose low counter is below the tick count is
    transient at the end exactly when the counter plus the length of the
    run reaches [persist_ticks]. *)
Theorem sustained_low_recovers (f : MMSFilter) (tf tp : Q) (ds : list Q) :
  tau_fast f = Some tf -> tau_persist f = Some tp ->
  tf <= tp ->
  state f = "persistent" ->
  (0 <= consecutive_low f < persist_ticks f)%Z ->
  Forall (fun r => r_ema r < tf) (results f ds) ->
  (state (feed f ds) = "transient" <->
   (persist_ticks f <= consecutive_low f + Z.of_nat (length ds))%Z).
Proof.
  revert f. induction ds as [|d ds IH]; intros f Htf Htp Hord Hs Hl Hall.
  - simpl. rewrite Hs. split; [discriminate | lia].
  - simpl in Hall. inversion Hall as [|? ? Hd Hrest]; subst.
    simpl feed.
    destruct (low_step f tf tp d Htf Htp Hord Hd) as (_ & Hl' & Hs').
    destruct (update_tau f d) as [Etf Etp].
    pose proof (update_persist_ticks f d) as Ep.
    rewrite Htf in Etf. rewrite Htp in Etp.
    unfold next_state in Hs'. rewrite Hs in Hs'. simpl in Hs'.
    destruct (Z.leb_spec (persist_ticks f) (consecutive_low f + 1))
      as [Hle | Hlt].
    + split; [intros _; simpl length; lia|]. intros _.
      apply (stays_transient _ tf tp); auto. lia.
    + rewrite (IH (fst (update f d))); auto.
      * rewrite Ep, Hl'. simpl length. lia.
      * rewrite Ep, Hl'. lia.
Qed.

Lemma sustained_low_recovers_witness :
  state (feed (feed scenario_filter (repeat 5.0 6 ++ repeat 0.1 6))
           (repeat 0.1 4)) = "transient" <->
  (6 <= 2 + Z.of_nat 4)%Z.
Proof.
  apply (sustained_low_recovers
           (feed scenario_filter (repeat 5.0 6 ++ repeat 0.1 6))
           1.0 2.0 (repeat 0.1 4)).
  - reflexivity.
  - reflexivity.
  - vm_compute. discriminate.
  - vm_compute. reflexivity.
  - vm_compute. split; [discriminate | reflexivity].
  - vm_compute. repeat constructor.
Defined.

Lemma counters_nonneg (cfg : Config.Settings) (f : MMSFilter) :
  reachable cfg f ->
  (0 <= consecutive_high f)%Z /\ (0 <= consecutive_low f)%Z.
Proof.
  induction 1 as [a p tf tp | f d Hr IH | f tf tp Hr IH | f Hr IH].
  - simpl. lia.
  - destruct IH as [Hh Hl]. unfold update.
    destruct (tau_fast f) as [tf|]; [|split; assumption].
    destruct (tau_persist f) as [tp|]; [|split; assumption].
    simpl.
    pose proof (next_counters_exclusive f tf tp (next_ema f d)) as Hx.
    simpl in Hx. lia.
  - exact IH.
  - simpl. lia.
Qed.

(** One update moves the counter that could trigger a flip by at most
    one, and leaves the state alone while that counter stays short of the
    tick count. *)
Lemma dwell_step (f : MMSFilter) (d : Q) :
  (1 <= persist_ticks f)%Z ->
  (state f = "transient" ->
   (consecutive_high f + 1 < persist_ticks f)%Z ->
   state (fst (update f d)) = "transient" /\
   (consecutive_high (fst (update f d)) <= consecutive_high f + 1)%Z \/
   state (fst (update f d)) = "transient" /\
   consecutive_high (fst (update f d)) = 0%Z) /\
  (state f = "persistent" ->
   (consecutive_low f + 1 < persist_ticks f)%Z ->
   state (fst (update f d)) = "persistent" /\
   (consecutive_low (fst (update f d)) <= consecutive_low f + 1)%Z \/
   state (fst (update f d)) = "persistent" /\
   consecutive_low (fst (update f d)) = 0%Z).
Proof.
  intros Hp. unfold update.
  destruct (tau_fast f) as [tf|];
    [destruct (tau_persist f) as [tp|]|]; simpl;
    try (split; intros Hs Hlt; left; (split; [exact Hs | lia])).
  pose proof (next_counters_exclusive f tf tp (next_ema f d)) as Hx.
  simpl in Hx. destruct Hx as (_ & Hh & Hl).
  unfold next_state.
  split; intros Hs Hlt; rewrite Hs; simpl.
  - destruct (Z.leb_spec (persist_ticks f)
                (fst (next_counters f tf tp (next_ema f d)))); [lia|].
    destruct Hh as [Hh | Hh]; [right | left]; split; auto; lia.
  - destruct (Z.leb_spec (persist_ticks f)
                (snd (next_counters f tf tp (next_ema f d)))); [lia|].
    destruct Hl as [Hl | Hl]; [right | left]; split; auto; lia.
Qed.

(** X6.  The dwell time of the hysteresis: whatever deviations arrive and
    whether or not thresholds are set, a reachable filter with a positive
    tick count keeps its state over any run of updates shorter than the
    distance of the relevant counter from [persist_ticks]. *)
Theorem no_flip_within_dwell (cfg : Config.Settings) (f : MMSFilter)
    (ds : list Q) :
  reachable cfg f -> (1 <= persist_ticks f)%Z ->
  (state f = "transient" ->
   (consecutive_high f + Z.of_nat (length ds) < persist_ticks f)%Z ->
   state (feed f ds) = "transient") /\
  (state f = "persistent" ->
   (consecutive_low f + Z.of_nat (length ds) < persist_ticks f)%Z ->
   state (feed f ds) = "persistent").
Proof.
  revert f. induction ds as [|d ds IH]; intros f Hr Hp.
  - split; intros Hs _; exact Hs.
  - pose proof (reach_update cfg f d Hr) as Hr'.
    pose proof (update_persist_ticks f d) as Ep.
    destruct (counters_nonneg cfg f Hr) as [Hh0 Hl0].
    specialize (IH (fst (update f d)) Hr').
    rewrite Ep in IH. specialize (IH Hp). destruct IH as [IHt IHp].
    destruct (dwell_step f d Hp) as [St Sp].
    simpl feed. simpl length.
    split; intros Hs Hlen.
    + destruct (St Hs ltac:(lia)) as [[Hs' Hh'] | [Hs' Hh']];
        apply IHt; try exact Hs'; lia.
    + destruct (Sp Hs ltac:(lia)) as [[Hs' Hl'] | [Hs' Hl']];
        apply IHp; try exact Hs'; lia.
Qed.

Lemma no_flip_within_dwell_witness :
  state (feed (feed scenario_filter (repeat 5.0 6)) [0.1; 0.0; 0.2; 0.1; 0.0])
    = "persistent".
Proof.
  apply (proj2 (no_flip_within_dwell Config.default_settings
                  (feed scenario_filter (repeat 5.0 6))
                  [0.1; 0.0; 0.2; 0.1; 0.0]
                  (feed_reachable _ _ _ (reach_init _ _ _ _ _))
                  ltac:(vm_compute; discriminate))).
  - vm_compute. reflexivity.
  - vm_compute. reflexivity.
Defined.

End MMSDynamics.

(** ** The candidate generator *)

Section GenFacts.
Import Policy Loops.

Ltac split_ifs :=
  repeat match goal with
  | |- context [if ?b then _ else _] => destruct b eqn:?
  end.

Lemma batch_window_shape (cfg : Config.Settings) (lat : Q) :
  Forall (fun c =>
    action c = "increase_batch_window" /\ target c = "system" /\
    risk_score c = 0.2 /\ score c = None /\
    lat + pred_latency_impact_ms c < Config.sla_latency_ms cfg)
    (batch_window_candidates cfg lat).
Proof.
  unfold batch_window_candidates, batch_delta_ms.
  cbn [flat_map app].
  split_ifs; cbn [app]; repeat constructor; cbn [pred_latency_impact_ms];
    qbool; assumption.
Qed.

Lemma fan_rpm_shape (cfg : Config.Settings) (max_inlet margin : Q) :
  Forall (fun c =>
    action c = "decrease_fan_rpm" /\ target c = "system" /\
    risk_score c = 0.3 /\ score c = None /\
    max_inlet + pred_inlet_change_c c < Config.inlet_max_c cfg)
    (fan_rpm_candidates cfg max_inlet margin).
Proof.
  unfold fan_rpm_candidates, fan_delta_pct.
  cbn [flat_map app].
  split_ifs; cbn [app]; repeat constructor; cbn [pred_inlet_change_c];
    qbool; assumption.
Qed.

Lemma supply_temp_shape (cfg : Config.Settings) (avg_inlet margin : Q) :
  Forall (fun c =>
    action c = "increase_supply_temp" /\ target c = "system" /\
    risk_score c = 0.4 /\ score c = None /\
    avg_inlet + pred_inlet_change_c c < Config.inlet_max_c cfg - 1.0)
    (supply_temp_candidates cfg avg_inlet margin).
Proof.
  unfold supply_temp_candidates, supply_delta_c.
  cbn [flat_map app fst snd].
  split_ifs; cbn [app]; repeat constructor; cbn [pred_inlet_change_c];
    qbool; assumption.
Qed.

Lemma traffic_shift_shape (st : CurrentState) (avg_inlet deviation : Q)
    (mms : string) :
  Forall (fun c =>
    action c = "shift_traffic_to_cool_row" /\ target c = "routing" /\
    risk_score c = 0.25 /\ score c = None /\
    (0.5 < deviation \/ mms = "persistent"))
    (traffic_shift_candidates st avg_inlet deviation mms).
Proof.
  unfold traffic_shift_candidates, shift_traffic_pct.
  destruct (Qltb 0.5 deviation || String.eqb mms "persistent") eqn:E;
    [|constructor].
  assert (H : 0.5 < deviation \/ mms = "persistent").
  { apply orb_true_iff in E. destruct E as [E | E].
    - left. apply Qltb_lt. exact E.
    - right. apply String.eqb_eq. exact E. }
  destruct (default [] (rack_temperatures st)); [constructor|].
  destruct (cool_racks_of _ _); [constructor|].
  cbn [map].
  repeat (constructor; [repeat split; exact H|]). constructor.
Qed.

Lemma pause_jobs_shape (mms : string) :
  Forall (fun c =>
    action c = "pause_low_priority_jobs" /\ target c = "scheduler" /\
    risk_score c = 0.7 /\ score c = None /\ mms = "persistent")
    (pause_jobs_candidates mms).
Proof.
  unfold pause_jobs_candidates, pause_priority_threshold.
  destruct (String.eqb mms "persistent") eqn:E; [|constructor].
  apply String.eqb_eq in E.
  cbn [map]. repeat constructor; exact E.
Qed.

Lemma pump_shape (cfg : Config.Settings) (max_inlet : Q) :
  Forall (fun c =>
    action c = "increase_cdu_pump" /\ target c = "cooling" /\
    risk_score c = 0.35 /\ score c = None /\
    Config.inlet_max_c cfg - 1.0 < max_inlet)
    (pump_candidates cfg max_inlet).
Proof.
  unfold pump_candidates, pump_delta_pct.
  destruct (Qltb _ _) eqn:E; [|constructor].
  qbool. cbn [map]. repeat constructor; exact E.
Qed.

(** Every generated candidate belongs to one of the six families; each
    family fixes the action name, the target and the risk, and carries
    the test under which it was generated. *)
Lemma generated_shape (cfg : Config.Settings) (st : CurrentState)
    (objective : string) :
  let avg_inlet := default 22.0 (avg_inlet_c st) in
  let max_inlet := default 26.0 (max_inlet_c st) in
  let lat := default 180 (avg_latency_ms st) in
  let deviation := default 0.0 (ims_deviation st) in
  let mms := default "transient" (mms_state st) in
  Forall (fun c =>
    score c = None /\
    ((action c = "increase_batch_window" /\ target c = "system" /\
      risk_score c = 0.2 /\
      lat + pred_latency_impact_ms c < Config.sla_latency_ms cfg) \/
     (action c = "decrease_fan_rpm" /\ target c = "system" /\
      risk_score c = 0.3 /\
      max_inlet + pred_inlet_change_c c < Config.inlet_max_c cfg) \/
     (action c = "increase_supply_temp" /\ target c = "system" /\
      risk_score c = 0.4 /\
      avg_inlet + pred_inlet_change_c c < Config.inlet_max_c cfg - 1.0) \/
     (action c = "shift_traffic_to_cool_row" /\ target c = "routing" /\
      risk_score c = 0.25 /\
      (0.5 < deviation \/ mms = "persistent")) \/
     (action c = "pause_low_priority_jobs" /\ target c = "scheduler" /\
      risk_score c = 0.7 /\ mms = "persistent") \/
     (action c = "increase_cdu_pump" /\ target c = "cooling" /\
      risk_score c = 0.35 /\
      Config.inlet_max_c cfg - 1.0 < max_inlet)))
    (generate_candidates cfg st objective).
Proof.
  intros avg_inlet max_inlet lat deviation mms.
  unfold generate_candidates. fold avg_inlet max_inlet lat deviation mms.
  repeat (apply Forall_app; split).
  - eapply Forall_impl; [apply batch_window_shape|].
    intros c (? & ? & ? & ? & ?). auto 10.
  - eapply Forall_impl; [apply fan_rpm_shape|].
    intros c (? & ? & ? & ? & ?). auto 10.
  - eapply Forall_impl; [apply supply_temp_shape|].
    intros c (? & ? & ? & ? & ?). auto 10.
  - eapply Forall_impl; [apply traffic_shift_shape|].
    intros c (? & ? & ? & ? & ?). auto 10.
  - eapply Forall_impl; [apply pause_jobs_shape|].
    intros c (? & ? & ? & ? & ?). auto 12.
  - eapply Forall_impl; [apply pump_shape|].
    intros c (? & ? & ? & ? & ?). auto 12.
Qed.

Lemma family_lengths (cfg : Config.Settings) (st : CurrentState)
    (a b d : Q) (mms : string) :
  (length (batch_window_candidates cfg a) <= 3)%nat /\
  (length (fan_rpm_candidates cfg a b) <= 3)%nat /\
  (length (supply_temp_candidates cfg a b) <= 2)%nat /\
  (length (traffic_shift_candidates st a d mms) <= 4)%nat /\
  (length (pause_jobs_candidates mms) <= 2)%nat /\
  (length (pump_candidates cfg a) <= 2)%nat.
Proof.
  unfold batch_window_candidates, fan_rpm_candidates, supply_temp_candidates,
    traffic_shift_candidates, pause_jobs_candidates, pump_candidates,
    batch_delta_ms, fan_delta_pct, supply_delta_c, shift_traffic_pct,
    pause_priority_threshold, pump_delta_pct.
  cbn [flat_map map app fst snd].
  repeat split.
  - split_ifs; cbn [app length]; lia.
  - split_ifs; cbn [app length]; lia.
  - split_ifs; cbn [app length]; lia.
  - destruct (_ || _); [|simpl; lia].
    destruct (default [] (rack_temperatures st)); [simpl; lia|].
    destruct (cool_racks_of _ _); simpl; lia.
  - split_ifs; cbn [app length]; lia.
  - split_ifs; cbn [app length]; lia.
Qed.

(** X7.  [generate_candidates] returns at most 16 candidates, none of
    them scored yet, each with a risk strictly between 0 and 1; and the
    action name fixes the target and the risk, for candidates of any two
    calls: the rate-limit key [action:target] is one key per action
    family. *)
Theorem generated_candidates_well_formed :
  forall (cfg : Config.Settings) (st : CurrentState) (objective : string),
    (length (generate_candidates cfg st objective) <= 16)%nat /\
    Forall (fun c => score c = None /\ 0 < risk_score c /\ risk_score c < 1)
      (generate_candidates cfg st objective) /\
    (forall cfg' st' objective' c c',
       In c (generate_candidates cfg st objective) ->
       In c' (generate_candidates cfg' st' objective') ->
       action c = action c' ->
       target c = target c' /\ risk_score c = risk_score c').
Proof.
  intros cfg st objective. split; [|split].
  - unfold generate_candidates. rewrite !length_app.
    destruct (family_lengths cfg st (default 180 (avg_latency_ms st)) 0 0 "")
      as (H1 & _).
    destruct (family_lengths cfg st (default 26.0 (max_inlet_c st))
                (Config.inlet_max_c cfg - default 26.0 (max_inlet_c st))
                (default 0.0 (ims_deviation st))
                (default "transient" (mms_state st)))
      as (_ & H2 & _ & _ & H5 & H6).
    destruct (family_lengths cfg st (default 22.0 (avg_inlet_c st))
                (Config.inlet_max_c cfg - default 26.0 (max_inlet_c st))
                (default 0.0 (ims_deviation st))
                (default "transient" (mms_state st)))
      as (_ & _ & H3 & H4 & _).
    lia.
  - eapply Forall_impl; [apply generated_shape|].
    intros c (Hs & H). split; [exact Hs|].
    destruct H as [H | [H | [H | [H | [H | H]]]]];
      destruct H as (_ & _ & -> & _); split; reflexivity.
  - intros cfg' st' objective' c c' Hc Hc' Ha.
    pose proof (generated_shape cfg st objective) as G.
    pose proof (generated_shape cfg' st' objective') as G'.
    cbv zeta in G, G'.
    rewrite List.Forall_forall in G, G'.
    destruct (G c Hc) as (_ & H). destruct (G' c' Hc') as (_ & H').
    destruct H as [H | [H | [H | [H | [H | H]]]]];
      destruct H as (E1 & -> & -> & _);
      destruct H' as [H' | [H' | [H' | [H' | [H' | H']]]]];
      destruct H' as (E2 & -> & -> & _);
      rewrite E1, E2 in Ha; first [discriminate | split; reflexivity].
Qed.

(** X8.  The generator offers a batch-window, fan or supply-temperature
    move only when the move's own prediction stays strictly inside the
    limit it was tested against: latency plus predicted impact below the
    SLA, hottest inlet plus predicted rise below the inlet limit, average
    inlet plus the raise more than one degree below the inlet limit
    (state read with the defaults of the generator: 180 ms, 26.0 and
    22.0 degrees). *)
Theorem generated_moves_respect_their_limit :
  forall (cfg : Config.Settings) (st : CurrentState) (objective : string),
    Forall (fun c =>
      (action c = "increase_batch_window" ->
       default 180 (avg_latency_ms st) + pred_latency_impact_ms c
         < Config.sla_latency_ms cfg) /\
      (action c = "decrease_fan_rpm" ->
       default 26.0 (max_inlet_c st) + pred_inlet_change_c c
         < Config.inlet_max_c cfg) /\
      (action c = "increase_supply_temp" ->
       default 22.0 (avg_inlet_c st) + pred_inlet_change_c c
         < Config.inlet_max_c cfg - 1.0))
      (generate_candidates cfg st objective).
Proof.
  intros cfg st objective.
  eapply Forall_impl; [apply generated_shape|].
  intros c (_ & H).
  destruct H as [H | [H | [H | [H | [H | H]]]]];
    destruct H as (E & _ & _ & L);
    repeat split; intros E'; rewrite E in E'; try discriminate; exact L.
Qed.

(** X9.  A candidate with risk 0.5 or more is generated only as
    [pause_low_priority_jobs] and only while the filter state is
    "persistent"; in any other state every generated candidate has risk
    below 0.5, so the low-risk filter of the fast loop keeps them all. *)
Theorem high_risk_only_when_persistent :
  forall (cfg : Config.Settings) (st : CurrentState) (objective : string),
    Forall (fun c =>
      risk_score c < 0.5 \/
      (action c = "pause_low_priority_jobs" /\
       default "transient" (mms_state st) = "persistent"))
      (generate_candidates cfg st objective) /\
    (default "transient" (mms_state st) <> "persistent" ->
     low_risk_or_all (generate_candidates cfg st objective)
     = generate_candidates cfg st objective).
Proof.
  intros cfg st objective.
  assert (G : Forall (fun c =>
      risk_score c < 0.5 \/
      (action c = "pause_low_priority_jobs" /\
       default "transient" (mms_state st) = "persistent"))
      (generate_candidates cfg st objective)).
  { eapply Forall_impl; [apply generated_shape|].
    intros c (_ & H).
    destruct H as [H | [H | [H | [H | [H | H]]]]];
      destruct H as (E & _ & R & L); rewrite R;
      first [left; reflexivity | right; split; assumption]. }
  split; [exact G|].
  intros Hn. unfold low_risk_or_all.
  assert (F : List.filter (fun c => Qltb (risk_score c) 0.5)
                (generate_candidates cfg st objective)
              = generate_candidates cfg st objective).
  { induction G as [|c l [Hc | [_ Hc]] _ IH]; [reflexivity | | contradiction].
    simpl. apply Qltb_lt in Hc. rewrite Hc, IH. reflexivity. }
  rewrite F. destruct (generate_candidates cfg st objective); reflexivity.
Qed.

Lemma high_risk_only_when_persistent_witness :
  low_risk_or_all (generate_candidates Config.default_settings cool_state
                     "stabilize")
  = generate_candidates Config.default_settings cool_state "stabilize".
Proof.
  apply (proj2 (high_risk_only_when_persistent Config.default_settings
                  cool_state "stabilize")).
  vm_compute. discriminate.
Defined.

End GenFacts.

Section GenExamples.
Import Policy Loops.

Lemma generated_candidates_well_formed_witness :
  let c := hd raise_supply_1c
             (generate_candidates Config.default_settings cool_state
                "reduce_j_per_prompt") in
  let c' := hd raise_supply_1c
              (generate_candidates Config.default_settings persistent_state
                 "stabilize") in
  target c = target c' /\ risk_score c = risk_score c'.
Proof.
  apply (proj2 (proj2 (generated_candidates_well_formed
                         Config.default_settings cool_state
                         "reduce_j_per_prompt"))
           Config.default_settings persistent_state "stabilize").
  - vm_compute. left. reflexivity.
  - vm_compute. left. reflexivity.
  - vm_compute. reflexivity.
Defined.

End GenExamples.

(** ** What the loops propose *)

Section ProposalFacts.
Import Policy Loops.

(** The first element of a ranking is one of the ranked candidates,
    carrying its score, and no candidate scores higher. *)
Lemma rank_head_best (l : list ActionCandidate) (ow : option Weights)
    (best : ActionCandidate) :
  head (rank_candidates l ow) = Some best ->
  let w := default default_weights ow in
  exists c, In c l /\ best = set_score c (composite_score w c) /\
            forall c', In c' l -> composite_score w c' <= composite_score w c.
Proof.
  intros Hh w. rewrite rank_candidates_unfold in Hh. fold w in Hh.
  pose proof (sorted_perm score_key true (scored w l)) as Hp.
  pose proof (sorted_in_order score_key true (scored w l)) as Ho.
  destruct (sorted score_key true (scored w l)) as [|x rest] eqn:E;
    [discriminate|].
  simpl in Hh. injection Hh as ->.
  assert (Hin : In best (scored w l)).
  { eapply Permutation_in; [exact Hp | left; reflexivity]. }
  unfold scored in Hin. apply in_map_iff in Hin.
  destruct Hin as (c & <- & Hcl).
  exists c. split; [exact Hcl|]. split; [reflexivity|].
  intros c' Hc'.
  assert (Hin' : In (set_score c' (composite_score w c'))
                   (set_score c (composite_score w c) :: rest)).
  { eapply Permutation_in; [symmetry; exact Hp|].
    unfold scored. apply in_map_iff. eauto. }
  inversion Ho as [|? ? Hall _]; subst.
  destruct Hin' as [Heq | Hin'].
  - assert (Hs : score_key (set_score c (composite_score w c))
                 = score_key (set_score c' (composite_score w c')))
      by (rewrite Heq; reflexivity).
    unfold score_key in Hs. simpl in Hs. rewrite Hs. apply Qle_refl.
  - rewrite List.Forall_forall in Hall. specialize (Hall _ Hin').
    unfold may_follow, score_key in Hall. simpl in Hall. exact Hall.
Qed.

Lemma slow_best_some (cfg : Config.Settings) (st : CurrentState)
    (best : ActionCandidate) :
  slow_best cfg st = Some best ->
  Config.global_kill_switch cfg = false /\
  default "transient" (mms_state st) <> "persistent" /\
  default 180 (avg_latency_ms st) <= Config.sla_latency_ms cfg * 0.95 /\
  head (rank_candidates
          (_apply_guardrails cfg
             (generate_candidates cfg st "reduce_j_per_prompt") st) None)
    = Some best.
Proof.
  unfold slow_best.
  destruct (Config.global_kill_switch cfg); [discriminate|].
  destruct (String.eqb _ _) eqn:E1; [discriminate|].
  destruct (Qltb _ _) eqn:E2; [discriminate|].
  apply String.eqb_neq in E1. qbool.
  destruct (generate_candidates cfg st "reduce_j_per_prompt") as [|c l];
    [discriminate|].
  destruct (_apply_guardrails cfg (c :: l) st) as [|c' l'] eqn:E3;
    [discriminate|].
  intros H. repeat split; assumption.
Qed.

(** X10.  A proposal of the slow loop is built from a generated candidate
    that passed the guardrails and has the highest composite score (default
    weights) among the generated candidates that passed; it is only made
    with the kill switch off, the filter state not persistent and the
    latency at most 0.95 of the SLA, and it is never a
    [pause_low_priority_jobs] action. *)
Theorem slow_proposal_is_best_safe_candidate :
  forall (cfg : Config.Settings) (self self' : SlowOptimizerLoop)
         (st : CurrentState) (clk : Clock) (p : Proposal),
    optimize cfg self st clk = (self', Some p) ->
    Config.global_kill_switch cfg = false /\
    default "transient" (mms_state st) <> "persistent" /\
    default 180 (avg_latency_ms st) <= Config.sla_latency_ms cfg * 0.95 /\
    p_action p <> "pause_low_priority_jobs" /\
    exists c,
      In c (generate_candidates cfg st "reduce_j_per_prompt") /\
      rejected cfg st c = false /\
      p_action p = action c /\ p_params p = params c /\
      p_target p = target c /\
      p_pred_saving_pct p = pred_saving_pct c /\
      p_pred_latency_impact_ms p = Some (pred_latency_impact_ms c) /\
      p_reason p = [CandidateReason (reason c)] /\
      forall c',
        In c' (generate_candidates cfg st "reduce_j_per_prompt") ->
        rejected cfg st c' = false ->
        composite_score default_weights c'
          <= composite_score default_weights c.
Proof.
  intros cfg self self' st clk p H.
  unfold optimize in H.
  destruct (slow_best cfg st) as [best|] eqn:Hb; [|discriminate].
  destruct (rate_limited _ _ _ _); [discriminate|].
  injection H as _ <-. cbn [p_action p_params p_target p_pred_saving_pct
                             p_pred_latency_impact_ms p_reason].
  destruct (slow_best_some cfg st best Hb) as (Hk & Hm & Hl & Hh).
  destruct (rank_head_best _ _ _ Hh) as (c & Hc & -> & Hmax).
  apply apply_guardrails_in in Hc. destruct Hc as [Hg Hr].
  split; [exact Hk|]. split; [exact Hm|]. split; [exact Hl|].
  split.
  - cbn [action set_score]. intros Ha.
    pose proof (generated_shape cfg st "reduce_j_per_prompt") as G.
    cbv zeta in G. rewrite List.Forall_forall in G.
    destruct (G c Hg) as (_ & [F | [F | [F | [F | [F | F]]]]]);
      destruct F as (E & _ & _ & L); rewrite E in Ha;
      try discriminate. contradiction.
  - exists c. repeat split; try assumption.
    intros c' Hc' Hr'. apply Hmax. apply apply_guardrails_in. auto.
Qed.

Lemma slow_proposal_is_best_safe_candidate_witness :
  exists self' p,
    optimize Config.default_settings slow_init cool_state (clock_at 0)
      = (self', Some p) /\
    p_action p <> "pause_low_priority_jobs".
Proof.
  eexists _, _. split; [vm_compute; reflexivity|].
  refine (proj1 (proj2 (proj2 (proj2
            (slow_proposal_is_best_safe_candidate Config.default_settings
               slow_init _ cool_state (clock_at 0) _ _))))).
  vm_compute. reflexivity.
Defined.

Lemma low_risk_or_all_in (l : list ActionCandidate) (c : ActionCandidate) :
  In c (low_risk_or_all l) ->
  In c l /\
  ((exists c', In c' l /\ risk_score c' < 0.5) -> risk_score c < 0.5).
Proof.
  unfold low_risk_or_all.
  destruct (List.filter _ l) as [|x f] eqn:E.
  - intros Hc. split; [exact Hc|]. intros (c' & Hc' & Hr).
    assert (Hin : In c' (List.filter (fun c => Qltb (risk_score c) 0.5) l)).
    { apply filter_In. split; [exact Hc'|]. apply Qltb_lt. exact Hr. }
    rewrite E in Hin. destruct Hin.
  - intros Hc. rewrite <- E in Hc. apply filter_In in Hc.
    destruct Hc as [Hc Hr]. split; [exact Hc|]. intros _.
    apply Qltb_lt. exact Hr.
Qed.

Lemma low_risk_or_all_keeps (l : list ActionCandidate) (c : ActionCandidate) :
  In c l ->
  risk_score c < 0.5 \/ (forall c', In c' l -> 0.5 <= risk_score c') ->
  In c (low_risk_or_all l).
Proof.
  intros Hc H. unfold low_risk_or_all.
  destruct (List.filter _ l) as [|x f] eqn:E.
  - exact Hc.
  - rewrite <- E. apply filter_In. split; [exact Hc|].
    destruct H as [H | H]; [apply Qltb_lt; exact H|].
    assert (Hx : In x (List.filter (fun c => Qltb (risk_score c) 0.5) l))
      by (rewrite E; left; reflexivity).
    apply filter_In in Hx. destruct Hx as [Hx Hr]. apply Qltb_lt in Hr.
    exfalso. exact (Qlt_not_le _ _ Hr (H x Hx)).
Qed.

Lemma fast_triggers_nonempty (cfg : Config.Settings) (st : CurrentState) :
  fast_triggers cfg st <> [] ->
  default 1.0 (tau_fast st) < default 0.0 (ims_deviation st) \/
  default "transient" (mms_state st) = "persistent" \/
  Config.inlet_max_c cfg - 0.5 < default 22.0 (max_inlet_c st).
Proof.
  unfold fast_triggers.
  destruct (Qltb (default 1.0 (tau_fast st)) _) eqn:E1;
    [qbool; auto|].
  destruct (String.eqb _ _) eqn:E2;
    [apply String.eqb_eq in E2; auto|].
  destruct (Qltb (Config.inlet_max_c cfg - 0.5) _) eqn:E3;
    [qbool; auto|].
  simpl. congruence.
Qed.

Lemma fast_triggers_empty (cfg : Config.Settings) (st : CurrentState) :
  default 0.0 (ims_deviation st) <= default 1.0 (tau_fast st) ->
  default "transient" (mms_state st) <> "persistent" ->
  default 22.0 (max_inlet_c st) <= Config.inlet_max_c cfg - 0.5 ->
  fast_triggers cfg st = [].
Proof.
  intros H1 H2 H3. unfold fast_triggers.
  apply Qltb_ge in H1. apply String.eqb_neq in H2. apply Qltb_ge in H3.
  rewrite H1, H2, H3. reflexivity.
Qed.

Lemma fast_best_some (cfg : Config.Settings) (st : CurrentState)
    (reasons : list ReasonPart) (best : ActionCandidate) :
  fast_best cfg st = Some (reasons, best) ->
  Config.global_kill_switch cfg = false /\
  reasons = fast_triggers cfg st /\ reasons <> [] /\
  head (rank_candidates
          (low_risk_or_all (generate_candidates cfg st "stabilize")) None)
    = Some best.
Proof.
  unfold fast_best.
  destruct (Config.global_kill_switch cfg); [discriminate|].
  destruct (fast_triggers cfg st) as [|r rs]; [discriminate|].
  destruct (generate_candidates cfg st "stabilize") as [|c l];
    [discriminate|].
  destruct (rank_candidates _ None) as [|b bs]; [discriminate|].
  intros [= <- <-]. repeat split. discriminate.
Qed.

(** X11.  The fast loop proposes only when a trigger holds (deviation
    above [tau_fast], filter state persistent, or hottest inlet within
    half a degree of the limit) and the kill switch is off.  The proposal
    is built from a generated candidate; its reason lists the triggers
    and then the candidate's reason; if any generated candidate has risk
    below 0.5 the chosen one has, and it scores at least as high as every
    generated candidate with risk below 0.5 (as every generated candidate
    when none has risk below 0.5). *)
Theorem fast_proposal_is_triggered_and_low_risk :
  forall (cfg : Config.Settings) (self self' : FastGuardrailLoop)
         (st : CurrentState) (clk : Clock) (p : Proposal),
    evaluate cfg self st clk = (self', Some p) ->
    Config.global_kill_switch cfg = false /\
    (default 1.0 (tau_fast st) < default 0.0 (ims_deviation st) \/
     default "transient" (mms_state st) = "persistent" \/
     Config.inlet_max_c cfg - 0.5 < default 22.0 (max_inlet_c st)) /\
    exists c,
      In c (generate_candidates cfg st "stabilize") /\
      p_action p = action c /\ p_params p = params c /\
      p_target p = target c /\
      p_pred_saving_pct p = pred_saving_pct c /\
      p_pred_latency_impact_ms p = None /\
      p_reason p = fast_triggers cfg st ++ [CandidateReason (reason c)] /\
      ((exists c', In c' (generate_candidates cfg st "stabilize") /\
                   risk_score c' < 0.5) ->
       risk_score c < 0.5) /\
      (forall c',
         In c' (generate_candidates cfg st "stabilize") ->
         risk_score c' < 0.5 \/
         (forall c'', In c'' (generate_candidates cfg st "stabilize") ->
                      0.5 <= risk_score c'') ->
         composite_score default_weights c'
           <= composite_score default_weights c).
Proof.
  intros cfg self self' st clk p H.
  unfold evaluate in H.
  destruct (fast_best cfg st) as [[reasons best]|] eqn:Hb; [|discriminate].
  destruct (rate_limited _ _ _ _); [discriminate|].
  injection H as _ <-. cbn [p_action p_params p_target p_pred_saving_pct
                             p_pred_latency_impact_ms p_reason].
  destruct (fast_best_some cfg st reasons best Hb) as (Hk & Hr & Hne & Hh).
  destruct (rank_head_best _ _ _ Hh) as (c & Hc & -> & Hmax).
  apply low_risk_or_all_in in Hc. destruct Hc as [Hg Hlow].
  split; [exact Hk|].
  split; [apply fast_triggers_nonempty; rewrite <- Hr; exact Hne|].
  exists c. rewrite Hr. repeat split; try assumption.
  intros c' Hc' Hcase. apply Hmax.
  apply low_risk_or_all_keeps; assumption.
Qed.

Lemma fast_proposal_is_triggered_and_low_risk_witness :
  exists self' p,
    evaluate Config.default_settings fast_init persistent_state (clock_at 0)
      = (self', Some p) /\
    (default 1.0 (tau_fast persistent_state)
       < default 0.0 (ims_deviation persistent_state) \/
     default "transient" (mms_state persistent_state) = "persistent" \/
     Config.inlet_max_c Config.default_settings - 0.5
       < default 22.0 (max_inlet_c persistent_state)).
Proof.
  eexists _, _. split; [vm_compute; reflexivity|].
  refine (proj1 (proj2
            (fast_proposal_is_triggered_and_low_risk Config.default_settings
               fast_init _ persistent_state (clock_at 0) _ _))).
  vm_compute. reflexivity.
Defined.

(** X12.  The fast loop is silent, and leaves its controller as it was,
    whenever no trigger holds: deviation at most [tau_fast], filter state
    not persistent, and hottest inlet at most half a degree under the
    limit (each read with the default of its [.get] call). *)
Theorem fast_loop_silent_without_trigger :
  forall (cfg : Config.Settings) (self : FastGuardrailLoop)
         (st : CurrentState) (clk : Clock),
    default 0.0 (ims_deviation st) <= default 1.0 (tau_fast st) ->
    default "transient" (mms_state st) <> "persistent" ->
    default 22.0 (max_inlet_c st) <= Config.inlet_max_c cfg - 0.5 ->
    evaluate cfg self st clk = (self, None).
Proof.
  intros cfg self st clk H1 H2 H3.
  unfold evaluate, fast_best.
  rewrite (fast_triggers_empty cfg st H1 H2 H3).
  destruct (Config.global_kill_switch cfg); reflexivity.
Qed.

Lemma fast_loop_silent_without_trigger_witness :
  evaluate Config.default_settings fast_init cool_state (clock_at 0)
  = (fast_init, None).
Proof.
  apply fast_loop_silent_without_trigger.
  - vm_compute. discriminate.
  - vm_compute. discriminate.
  - vm_compute. discriminate.
Defined.

End ProposalFacts.

(** ** The rate limit after the window, and the manual tick *)

Section RateFacts.
Import Policy Loops.

Lemma rate_limited_after_emission (m : gmap string Q) (key1 key2 : string)
    (t1 now window : Q) :
  (key2 = key1 /\ window <= now - t1) \/
  (key2 <> key1 /\ m !! key2 = None) ->
  rate_limited (<[key1 := t1]> m) key2 now window = false.
Proof.
  unfold rate_limited. intros [[-> H] | [Hne H]].
  - rewrite lookup_insert_eq. apply Qltb_ge. exact H.
  - rewrite lookup_insert_ne by congruence. rewrite H. reflexivity.
Qed.

(** X13.  The rate limit releases: after an evaluation that emitted a
    proposal, a later evaluation of the same controller whose best
    candidate has the same key emits again once the window has elapsed
    since the stored timestamp (60 s fast, [write_rate_limit_s] slow), and
    one whose best candidate has another key, not yet in the map, is not
    held back by the first.  The later call stores its own timestamp
    under its key. *)
Theorem rate_limit_releases_after_window :
  (forall cfg self st1 clk1 self1 p1 st2 clk2 reasons2 best2,
     evaluate cfg self st1 clk1 = (self1, Some p1) ->
     fast_best cfg st2 = Some (reasons2, best2) ->
     (target_key best2 = proposal_key p1 /\
      60 <= t_check clk2 - t_store clk1) \/
     (target_key best2 <> proposal_key p1 /\
      fast_last_action_ts self !! target_key best2 = None) ->
     exists p2,
       snd (evaluate cfg self1 st2 clk2) = Some p2 /\
       proposal_key p2 = target_key best2 /\
       p_ts p2 = t_ts clk2 /\
       fast_last_action_ts (fst (evaluate cfg self1 st2 clk2))
         !! target_key best2 = Some (t_store clk2)) /\
  (forall cfg self st1 clk1 self1 p1 st2 clk2 best2,
     optimize cfg self st1 clk1 = (self1, Some p1) ->
     slow_best cfg st2 = Some best2 ->
     (target_key best2 = proposal_key p1 /\
      inject_Z (Config.write_rate_limit_s cfg)
        <= t_check clk2 - t_store clk1) \/
     (target_key best2 <> proposal_key p1 /\
      slow_last_action_ts self !! target_key best2 = None) ->
     exists p2,
       snd (optimize cfg self1 st2 clk2) = Some p2 /\
       proposal_key p2 = target_key best2 /\
       p_ts p2 = t_ts clk2 /\
       slow_last_action_ts (fst (optimize cfg self1 st2 clk2))
         !! target_key best2 = Some (t_store clk2)).
Proof.
  split.
  - intros cfg self st1 clk1 self1 p1 st2 clk2 reasons2 best2 H1 Hb Hcase.
    destruct (evaluate_emits _ _ _ _ _ _ H1) as (Hm & _ & _).
    unfold evaluate. rewrite Hb, Hm.
    rewrite rate_limited_after_emission by exact Hcase.
    eexists. simpl. split; [reflexivity|].
    split; [reflexivity|]. split; [reflexivity|].
    apply lookup_insert_eq.
  - intros cfg self st1 clk1 self1 p1 st2 clk2 best2 H1 Hb Hcase.
    destruct (optimize_emits _ _ _ _ _ _ H1) as (Hm & _ & _).
    unfold optimize. rewrite Hb, Hm.
    rewrite rate_limited_after_emission by exact Hcase.
    eexists. simpl. split; [reflexivity|].
    split; [reflexivity|]. split; [reflexivity|].
    apply lookup_insert_eq.
Qed.

Lemma rate_limit_releases_after_window_witness :
  let cfg := Config.default_settings in
  let first := optimize cfg slow_init cool_state (clock_at 0) in
  exists p2,
    snd (optimize cfg (fst first) cool_state (clock_at 120)) = Some p2 /\
    p_ts p2 = 120.
Proof.
  intros cfg first.
  destruct (proj2 rate_limit_releases_after_window
              cfg slow_init cool_state (clock_at 0) (fst first)
              ltac:(let v := eval vm_compute in
                      (snd (optimize Config.default_settings slow_init
                              cool_state (clock_at 0))) in
                    match v with Some ?p => exact p end)
              cool_state (clock_at 120)
              ltac:(let v := eval vm_compute in
                      (slow_best Config.default_settings cool_state) in
                    match v with Some ?b => exact b end))
    as (p2 & H2 & _ & Hts & _).
  - vm_compute. reflexivity.
  - vm_compute. reflexivity.
  - left. split; [vm_compute; reflexivity | vm_compute; discriminate].
  - exists p2. split; [exact H2 | exact Hts].
Defined.

Lemma in_order_take {A : Type} (key : A -> Q) (reverse : bool) (n : nat)
    (l : list A) :
  in_order key reverse l -> in_order key reverse (take n l).
Proof.
  intros Ho. revert n. induction Ho as [|x l Hall Ho IH]; intros n.
  - rewrite take_nil. constructor.
  - destruct n as [|n]; simpl; constructor.
    + apply Forall_take. exact Hall.
    + apply IH.
Qed.

Lemma rank_candidates_length (l : list ActionCandidate) (ow : option Weights) :
  length (rank_candidates l ow) = length l.
Proof.
  rewrite rank_candidates_unfold, sorted_length. unfold scored.
  apply length_map.
Qed.

Lemma rank_candidates_from (l : list ActionCandidate) (ow : option Weights) :
  Forall (fun c => score_key c = composite_score (default default_weights ow) c
                   /\ exists c0, In c0 l /\ summary_of c = summary_of c0)
    (rank_candidates l ow).
Proof.
  rewrite rank_candidates_unfold.
  eapply Permutation_Forall; [symmetry; apply sorted_perm|].
  unfold scored. apply List.Forall_forall. intros c Hc.
  apply in_map_iff in Hc. destruct Hc as (c0 & <- & Hc0).
  split; [reflexivity|]. exists c0. split; [exact Hc0 | reflexivity].
Qed.

Lemma optimize_fresh (cfg : Config.Settings) (st : CurrentState)
    (clk : Clock) (best : ActionCandidate) :
  slow_best cfg st = Some best ->
  exists p, snd (optimize cfg slow_init st clk) = Some p /\
            p_action p = action best /\ p_params p = params best /\
            p_target p = target best /\ p_loop p = "slow" /\
            p_ts p = t_ts clk.
Proof.
  intros Hb. unfold optimize. rewrite Hb.
  unfold rate_limited, slow_init. cbn [slow_last_action_ts].
  rewrite lookup_empty. eexists. simpl. repeat split.
Qed.

(** X14.  The manual tick of [routes_optimizer.py] builds a fresh
    controller for each request, so it is never rate limited: it answers
    "no_action" exactly when the slow loop has no best candidate (kill
    switch, unstable state, nothing generated or everything rejected),
    and otherwise "ok" with the proposal for that best candidate,
    whatever was proposed before.  The alternatives it lists are the
    first five of the ranking of all generated candidates: between one
    and five summaries, in descending score order. *)
Theorem manual_tick_is_never_rate_limited :
  forall (cfg : Config.Settings) (st : CurrentState) (clk : Clock),
    let r := run_optimizer_tick cfg st clk in
    let generated := generate_candidates cfg st "reduce_j_per_prompt" in
    (slow_best cfg st = None ->
     status r = "no_action" /\ proposals r = [] /\ picked r = None) /\
    (forall best, slow_best cfg st = Some best ->
     status r = "ok" /\
     (exists p, picked r = Some p /\
                p_action p = action best /\ p_params p = params best /\
                p_target p = target best /\ p_loop p = "slow" /\
                p_ts p = t_ts clk) /\
     length (proposals r) = Nat.min 5 (length generated) /\
     (1 <= length (proposals r))%nat /\
     Forall (fun s => exists c, In c generated /\ s = summary_of c)
       (proposals r) /\
     exists top,
       proposals r = map summary_of top /\
       in_order (composite_score default_weights) true top).
Proof.
  intros cfg st clk r generated. split.
  - intros Hb. unfold r, run_optimizer_tick, optimize. rewrite Hb.
    simpl. repeat split.
  - intros best Hb.
    destruct (optimize_fresh cfg st clk best Hb) as (p & Hp & Hfields).
    unfold r, run_optimizer_tick. rewrite Hp.
    cbn [status picked proposals]. fold generated.
    pose proof (rank_candidates_from generated None) as Hfrom.
    assert (Hlen : length (map summary_of
                             (take 5 (rank_candidates generated None)))
                   = Nat.min 5 (length generated)).
    { rewrite length_map, length_take, rank_candidates_length. reflexivity. }
    assert (Hne : (1 <= length generated)%nat).
    { destruct (slow_best_some cfg st best Hb) as (_ & _ & _ & Hh).
      fold generated in Hh. destruct generated; simpl in *; [discriminate|].
      lia. }
    split; [reflexivity|].
    split; [exists p; split; [reflexivity | exact Hfields]|].
    split; [exact Hlen|].
    split; [rewrite Hlen; lia|].
    split.
    + apply Forall_map. apply Forall_take.
      eapply Forall_impl; [exact Hfrom|].
      intros c (_ & c0 & Hc0 & Hs). exists c0. auto.
    + exists (take 5 (rank_candidates generated None)).
      split; [reflexivity|].
      apply in_order_take.
      apply (in_order_ext score_key (composite_score default_weights) true).
      * eapply Forall_impl; [exact Hfrom|]. intros c [Hk _]. exact Hk.
      * rewrite rank_candidates_unfold. apply sorted_in_order.
Qed.

Lemma manual_tick_is_never_rate_limited_witness :
  status (run_optimizer_tick Config.default_settings cool_state (clock_at 0))
    = "ok" /\
  length (proposals (run_optimizer_tick Config.default_settings cool_state
                       (clock_at 0))) = 5%nat.
Proof.
  destruct (proj2 (manual_tick_is_never_rate_limited Config.default_settings
                     cool_state (clock_at 0))
              ltac:(let v := eval vm_compute in
                      (slow_best Config.default_settings cool_state) in
                    match v with Some ?b => exact b end))
    as (Hs & _ & Hl & _).
  - vm_compute. reflexivity.
  - split; [exact Hs|]. rewrite Hl. vm_compute. reflexivity.
Defined.

End RateFacts.

(** ** Nominal windows and the training set *)

Section NominalFacts.
Import IMS.

Lemma cell_test_true (test : Q -> bool) (c : option Q) :
  cell_test test c = true <-> exists v, c = Some v /\ test v = true.
Proof.
  destruct c as [v|]; simpl.
  - split; [eauto|]. intros (w & [= <-] & H). exact H.
  - split; [discriminate|]. intros (w & [=] & _).
Qed.

(** The mask of [filter_nominal_windows], condition by condition. *)
Lemma nominal_row_spec (cfg : Config.Settings) (hd : bool)
    (r : gmap string Q) :
  nominal_row cfg hd r = true <->
  (exists v, r !! "inlet_c" = Some v /\ v <= Config.inlet_max_c cfg) /\
  (exists v, r !! "latency_p95_ms" = Some v /\
             v <= Config.sla_latency_ms cfg) /\
  (if hd then exists v, r !! "delta_t" = Some v /\ 0 < v
   else exists o i, r !! "outlet_c" = Some o /\ r !! "inlet_c" = Some i /\
                    0 < o - i) /\
  (exists v, r !! "pdu_kw" = Some v /\ 2.0 < v /\
             v < Config.rack_kw_cap cfg * 0.95).
Proof.
  unfold nominal_row. rewrite !andb_true_iff, !cell_test_true.
  split.
  - intros ((((H1 & H2) & H3) & H4) & H5).
    destruct H1 as (v1 & E1 & T1). apply Qle_bool_iff in T1.
    destruct H2 as (v2 & E2 & T2). apply Qle_bool_iff in T2.
    destruct H4 as (v4 & E4 & T4). apply Qltb_lt in T4.
    destruct H5 as (v5 & E5 & T5). apply Qltb_lt in T5.
    rewrite E4 in E5. injection E5 as <-.
    split; [eauto|]. split; [eauto|]. split; [|eauto].
    destruct hd.
    + apply cell_test_true in H3. destruct H3 as (v & E & T).
      apply Qltb_lt in T. eauto.
    + apply cell_test_true in H3. destruct H3 as (v & E & T).
      apply Qltb_lt in T. unfold cell_sub in E.
      destruct (r !! "outlet_c") as [o|]; [|discriminate].
      destruct (r !! "inlet_c") as [i|]; [|discriminate].
      injection E as <-. eauto.
  - intros ((v1 & E1 & T1) & (v2 & E2 & T2) & H3 & (v4 & E4 & T4 & T5)).
    repeat split.
    + exists v1. split; [exact E1 | apply Qle_bool_iff; exact T1].
    + exists v2. split; [exact E2 | apply Qle_bool_iff; exact T2].
    + destruct hd.
      * destruct H3 as (v & E & T). apply cell_test_true. exists v.
        split; [exact E | apply Qltb_lt; exact T].
      * destruct H3 as (o & i & Eo & Ei & T). apply cell_test_true.
        exists (o - i). rewrite Eo, Ei.
        split; [reflexivity | apply Qltb_lt; exact T].
    + exists v4. split; [exact E4 | apply Qltb_lt; exact T4].
    + exists v4. split; [exact E4 | apply Qltb_lt; exact T5].
Qed.

Lemma filter_nominal_windows_ok (cfg : Config.Settings) (df out : DataFrame) :
  filter_nominal_windows cfg df = Ok out ->
  out = {| columns := columns df;
           rows := List.filter (nominal_row cfg (has_column df "delta_t"))
                     (rows df) |}.
Proof.
  unfold filter_nominal_windows.
  destruct (negb (has_column df "inlet_c")); [discriminate|].
  destruct (negb (has_column df "latency_p95_ms")); [discriminate|].
  destruct (negb (has_column df "delta_t") && negb (has_column df "outlet_c"));
    [discriminate|].
  destruct (negb (has_column df "pdu_kw")); [discriminate|].
  intros [= <-]. reflexivity.
Qed.

Lemma filter_twice {A : Type} (f : A -> bool) (l : list A) :
  List.filter f (List.filter f l) = List.filter f l.
Proof.
  induction l as [|x l IH]; simpl; [reflexivity|].
  destruct (f x) eqn:E; simpl; [rewrite E, IH|]; auto.
Qed.

Lemma filter_sublist {A : Type} (f : A -> bool) (l : list A) :
  sublist (List.filter f l) l.
Proof.
  induction l as [|x l IH]; simpl; [constructor|].
  destruct (f x); constructor; exact IH.
Qed.

(** X15.  When [filter_nominal_windows] returns, the result has the
    columns of the input and its rows are the input rows, in order, that
    have an inlet reading within the limit, a latency within the SLA, a
    positive temperature rise (the [delta_t] column if the frame has one,
    outlet minus inlet otherwise) and a power strictly between 2.0 kW and
    0.95 of the rack cap; a row with any of these readings missing is
    dropped.  Filtering the result again changes nothing. *)
Theorem filter_nominal_windows_sound :
  forall (cfg : Config.Settings) (df out : DataFrame),
    filter_nominal_windows cfg df = Ok out ->
    columns out = columns df /\
    sublist (rows out) (rows df) /\
    (forall r, In r (rows out) <->
       In r (rows df) /\
       (exists v, r !! "inlet_c" = Some v /\ v <= Config.inlet_max_c cfg) /\
       (exists v, r !! "latency_p95_ms" = Some v /\
                  v <= Config.sla_latency_ms cfg) /\
       (if has_column df "delta_t"
        then exists v, r !! "delta_t" = Some v /\ 0 < v
        else exists o i, r !! "outlet_c" = Some o /\
                         r !! "inlet_c" = Some i /\ 0 < o - i) /\
       (exists v, r !! "pdu_kw" = Some v /\ 2.0 < v /\
                  v < Config.rack_kw_cap cfg * 0.95)) /\
    filter_nominal_windows cfg out = Ok out.
Proof.
  intros cfg df out H.
  pose proof (filter_nominal_windows_ok cfg df out H) as E.
  split; [rewrite E; reflexivity|].
  split; [rewrite E; apply filter_sublist|].
  split.
  - intros r. rewrite E. cbn [rows]. rewrite filter_In, nominal_row_spec.
    reflexivity.
  - assert (Hc : forall c, has_column out c = has_column df c)
      by (intros c; rewrite E; reflexivity).
    unfold filter_nominal_windows in *. rewrite !Hc.
    destruct (negb (has_column df "inlet_c")); [discriminate|].
    destruct (negb (has_column df "latency_p95_ms")); [discriminate|].
    destruct (negb (has_column df "delta_t")
              && negb (has_column df "outlet_c")); [discriminate|].
    destruct (negb (has_column df "pdu_kw")); [discriminate|].
    rewrite E. cbn [rows columns]. rewrite filter_twice. reflexivity.
Qed.

Lemma filter_nominal_windows_sound_witness :
  exists out,
    filter_nominal_windows Config.default_settings
      (DataFrame_of [nominal_sample 20; nominal_sample 30]) = Ok out /\
    filter_nominal_windows Config.default_settings out = Ok out.
Proof.
  eexists. split; [vm_compute; reflexivity|].
  refine (proj2 (proj2 (proj2
            (filter_nominal_windows_sound Config.default_settings
               (DataFrame_of [nominal_sample 20; nominal_sample 30]) _ _)))).
  vm_compute. reflexivity.
Defined.

End NominalFacts.

(** ** Percentiles stay inside the data *)

Section PercentileRange.
Import IMS.

Lemma lerp_at_integer (s : list Q) (v : Q) (i : Z) :
  v == inject_Z i -> lerp_at s v == nth (Z.to_nat i) s 0.
Proof.
  intros Hv. unfold lerp_at.
  assert (Hf : Qfloor v = i) by (rewrite Hv; apply Qfloor_Z).
  rewrite Hf.
  set (lo := nth (Z.to_nat i) s 0).
  set (hi := nth (Z.to_nat (Z.min (i + 1) (Z.of_nat (length s) - 1))) s 0).
  rewrite Hv. ring.
Qed.

(** The smallest and the largest element of a non-empty list, read off
    its sorted copy. *)
Lemma sorted_extremes (a : list Q) :
  a <> [] ->
  let s := sorted (fun x : Q => x) false a in
  let lo := nth 0 s 0 in
  let hi := nth (length a - 1) s 0 in
  In lo a /\ In hi a /\ Forall (fun x => lo <= x /\ x <= hi) a.
Proof.
  intros Hne s lo hi.
  assert (Hlen : length s = length a) by apply sorted_length.
  assert (Hn : (1 <= length a)%nat).
  { destruct a; [contradiction|]. simpl. lia. }
  assert (Ho : in_order (fun x : Q => x) false s) by apply sorted_in_order.
  assert (Hp : Permutation s a) by apply sorted_perm.
  split; [|split].
  - eapply Permutation_in; [exact Hp|]. apply nth_In. lia.
  - eapply Permutation_in; [exact Hp|]. apply nth_In. lia.
  - eapply Permutation_Forall; [exact Hp|].
    apply List.Forall_forall. intros x Hx.
    destruct (In_nth s x 0 Hx) as (i & Hi & <-).
    split; apply in_order_nth; try exact Ho; lia.
Qed.

(** A percentile of a non-empty array lies between its smallest and its
    largest element; the 0th percentile is the smallest element and the
    100th the largest. *)
Lemma percentile_between_extremes (a : list Q) (q : Z) (v : Q) :
  a <> [] -> percentile a q = Ok v ->
  let s := sorted (fun x : Q => x) false a in
  nth 0 s 0 <= v /\ v <= nth (length a - 1) s 0 /\
  (q = 0%Z -> v == nth 0 s 0) /\
  (q = 100%Z -> v == nth (length a - 1) s 0).
Proof.
  intros Hne Hv s.
  pose proof (percentile_inv a q v Hv) as Hq.
  rewrite (percentile_ok a q Hq) in Hv. injection Hv as <-.
  fold s.
  assert (Hlen : length s = length a) by apply sorted_length.
  assert (Hn : (1 <= Z.of_nat (length a))%Z).
  { destruct a; [contradiction|]. simpl length. lia. }
  assert (Ho : in_order (fun x : Q => x) false s) by apply sorted_in_order.
  destruct (virtual_index_range _ q Hn Hq) as [Ha Hb].
  set (vi := inject_Z (Z.of_nat (length a) - 1) * (inject_Z q / 100)) in *.
  assert (Hb' : vi <= inject_Z (Z.of_nat (length s) - 1))
    by (rewrite Hlen; exact Hb).
  destruct (lerp_at_bounds s vi Ho Ha Hb') as [H1 H2].
  destruct (Qfloor_range vi _ Ha Hb) as [Hf0 Hf1].
  split; [|split; [|split]].
  - eapply Qle_trans; [|exact H1].
    apply in_order_nth; [exact Ho | lia | lia].
  - eapply Qle_trans; [exact H2|].
    apply in_order_nth; [exact Ho | lia | lia].
  - intros ->. rewrite (lerp_at_integer s vi 0); [reflexivity|].
    unfold vi. change (inject_Z 0) with 0. field.
  - intros ->.
    rewrite (lerp_at_integer s vi (Z.of_nat (length a) - 1)).
    + replace (Z.to_nat (Z.of_nat (length a) - 1)) with (length a - 1)%nat
        by lia. reflexivity.
    + unfold vi. change (inject_Z 100) with 100. field.
Qed.

End PercentileRange.

(** ** What [train] returns, and saving and loading *)

Section TrainResult.
Import IMS.
Context {Model : Type}.
Variable fit : Z -> list (list Q) -> Model.
Variable deviation : Model -> list Q -> Q.

Lemma nominal_rows_le (cfg : Config.Settings) (df nominal : DataFrame)
    (skip : bool) :
  (if skip then Ok df else filter_nominal_windows cfg df) = Ok nominal ->
  (length (rows nominal) <= length (rows df))%nat /\
  (skip = true -> nominal = df).
Proof.
  destruct skip.
  - intros [= <-]. split; [lia | reflexivity].
  - intros H. apply filter_nominal_windows_ok in H. rewrite H. simpl.
    split; [apply sublist_length, filter_sublist | discriminate].
Qed.

Lemma train_ok_inv (cfg : Config.Settings) (self self' : IMSTrainer Model)
    (df : DataFrame) (skip : bool) (metrics : Metrics) :
  train fit deviation cfg self df skip = Ok (self', metrics) ->
  exists nominal X tf tp,
    (if skip then Ok df else filter_nominal_windows cfg df) = Ok nominal /\
    (min_samples <= length (rows nominal))%nat /\
    prepare_features (features self) nominal = Ok X /\
    self' = {| n_clusters := n_clusters self;
               model := Some (fit (n_clusters self) X);
               tau_fast := Some tf;
               tau_persist := Some tp;
               features := features self |} /\
    training_samples metrics = length X /\
    m_n_clusters metrics = n_clusters self.
Proof.
  unfold train, training_matrix.
  destruct (if skip then Ok df else filter_nominal_windows cfg df)
    as [nominal|e]; [|discriminate].
  simpl.
  destruct (Nat.ltb_spec (length (rows nominal)) min_samples);
    [discriminate|].
  destruct (prepare_features (features self) nominal) as [X|e] eqn:EX;
    [|discriminate].
  simpl.
  set (devs := map (deviation (fit (n_clusters self) X)) X).
  destruct (percentile devs (Config.ims_tau_fast_percentile cfg)) as [tf|e];
    [|discriminate].
  simpl.
  destruct (percentile devs (Config.ims_tau_persist_percentile cfg))
    as [tp|e]; [|discriminate].
  simpl.
  intros [= <- <-]. exists nominal, X, tf, tp.
  repeat split; auto.
Qed.

Lemma train_ok_percentiles (cfg : Config.Settings)
    (self self' : IMSTrainer Model) (df : DataFrame) (skip : bool)
    (metrics : Metrics) :
  train fit deviation cfg self df skip = Ok (self', metrics) ->
  exists devs tf tp,
    training_deviations fit deviation cfg self df skip = Ok devs /\
    devs <> [] /\
    percentile devs (Config.ims_tau_fast_percentile cfg) = Ok tf /\
    percentile devs (Config.ims_tau_persist_percentile cfg) = Ok tp /\
    percentile devs 50 = Ok (median_deviation metrics) /\
    tau_fast self' = Some tf /\ tau_persist self' = Some tp.
Proof.
  unfold train, training_deviations.
  destruct (training_matrix cfg self df skip) as [X|e] eqn:EX;
    [|discriminate].
  cbn [mbind result_bind].
  pose proof (training_matrix_length cfg self df skip X EX) as HX.
  set (devs := map (deviation (fit (n_clusters self) X)) X).
  destruct (percentile devs (Config.ims_tau_fast_percentile cfg))
    as [tf|e] eqn:Ef; [|discriminate].
  destruct (percentile devs (Config.ims_tau_persist_percentile cfg))
    as [tp|e] eqn:Ep; [|discriminate].
  destruct (percentile devs 50) as [med|e] eqn:Em; [|discriminate].
  intros [= <- <-]. exists devs, tf, tp. cbn [median_deviation tau_fast
                                                 tau_persist].
  repeat split; try assumption.
  intros E. assert (Hl : length devs = length X) by apply length_map.
  rewrite E in Hl. simpl in Hl. unfold min_samples in HX. lia.
Qed.

(** X16.  The thresholds [train] sets, and the median it reports, lie
    between the smallest and the largest deviation of the training
    samples; with a configured percentile of 0 or 100 the threshold is
    that smallest or largest deviation itself. *)
Theorem train_thresholds_within_deviations :
  forall (cfg : Config.Settings) (self self' : IMSTrainer Model)
         (df : DataFrame) (skip : bool) (metrics : Metrics),
    train fit deviation cfg self df skip = Ok (self', metrics) ->
    exists devs lo hi tf tp,
      training_deviations fit deviation cfg self df skip = Ok devs /\
      In lo devs /\ In hi devs /\
      Forall (fun d => lo <= d /\ d <= hi) devs /\
      tau_fast self' = Some tf /\ tau_persist self' = Some tp /\
      (lo <= tf /\ tf <= hi) /\ (lo <= tp /\ tp <= hi) /\
      (lo <= median_deviation metrics /\ median_deviation metrics <= hi) /\
      (Config.ims_tau_fast_percentile cfg = 0%Z -> tf == lo) /\
      (Config.ims_tau_persist_percentile cfg = 100%Z -> tp == hi).
Proof.
  intros cfg self self' df skip metrics H.
  destruct (train_ok_percentiles cfg self self' df skip metrics H)
    as (devs & tf & tp & Hd & Hne & Hf & Hp & Hm & Htf & Htp).
  destruct (sorted_extremes devs Hne) as (Hlo & Hhi & Hall).
  destruct (percentile_between_extremes devs _ tf Hne Hf)
    as (F1 & F2 & F0 & _).
  destruct (percentile_between_extremes devs _ tp Hne Hp)
    as (P1 & P2 & _ & P100).
  destruct (percentile_between_extremes devs _ _ Hne Hm)
    as (M1 & M2 & _ & _).
  exists devs, (nth 0 (sorted (fun x : Q => x) false devs) 0),
    (nth (length devs - 1) (sorted (fun x : Q => x) false devs) 0), tf, tp.
  repeat split; assumption.
Qed.

(** X17.  A successful [train] used at least 100 rows and no more than
    the frame has (all of them when the nominal filter is skipped),
    reports that number as [training_samples], keeps the cluster count
    and the feature list, and leaves a trainer that holds a fitted model
    and that [IMSScorer] accepts; a trainer fresh from the constructor is
    refused with [IMSNotTrainedException]. *)
Theorem train_result_is_scorable :
  forall (cfg : Config.Settings) (self self' : IMSTrainer Model)
         (df : DataFrame) (skip : bool) (metrics : Metrics),
    train fit deviation cfg self df skip = Ok (self', metrics) ->
    (100 <= training_samples metrics <= length (rows df))%nat /\
    (skip = true -> training_samples metrics = length (rows df)) /\
    n_clusters self' = n_clusters self /\
    m_n_clusters metrics = n_clusters self /\
    features self' = features self /\
    is_Some (model self') /\
    scorer_init self' = Ok {| trainer := self' |} /\
    (forall k, scorer_init (trainer_init (Model := Model) cfg k)
               = Raise IMSNotTrainedException).
Proof.
  intros cfg self self' df skip metrics H.
  destruct (train_ok_inv cfg self self' df skip metrics H)
    as (nominal & X & tf & tp & Hn & Hmin & HX & -> & Hts & Hk).
  apply prepare_features_length in HX.
  destruct (nominal_rows_le cfg df nominal skip Hn) as [Hle Hskip].
  unfold min_samples in Hmin.
  split; [rewrite Hts, HX; lia|].
  split; [intros Hs; rewrite Hts, HX, (Hskip Hs); reflexivity|].
  split; [reflexivity|]. split; [exact Hk|]. split; [reflexivity|].
  split; [simpl; eauto|]. split; reflexivity.
Qed.

(** X18.  [train] raises [IMSNotTrainedException], before anything is
    fitted, whenever fewer than 100 rows are left to train on: with the
    filter skipped, when the frame has fewer than 100 rows; with the
    filter, when the frame has the columns the filter reads and fewer
    than 100 of its rows are nominal, in particular when it has fewer
    than 100 rows. *)
Theorem train_rejects_small_training_set :
  forall (cfg : Config.Settings) (self : IMSTrainer Model) (df : DataFrame),
    ((length (rows df) < 100)%nat ->
     train fit deviation cfg self df true = Raise IMSNotTrainedException) /\
    (forall nominal,
       filter_nominal_windows cfg df = Ok nominal ->
       (length (rows nominal) < 100)%nat \/ (length (rows df) < 100)%nat ->
       train fit deviation cfg self df false = Raise IMSNotTrainedException).
Proof.
  intros cfg self df. split.
  - intros Hlt. unfold train, training_matrix. simpl.
    destruct (Nat.ltb_spec (length (rows df)) min_samples) as [_ | Hge];
      [reflexivity|]. unfold min_samples in Hge. lia.
  - intros nominal Hn Hlt. unfold train, training_matrix. rewrite Hn. simpl.
    destruct (nominal_rows_le cfg df nominal false Hn) as [Hle _].
    destruct (Nat.ltb_spec (length (rows nominal)) min_samples) as [_ | Hge];
      [reflexivity|]. unfold min_samples in Hge. lia.
Qed.

(** X19.  Saving and loading restores the trainer: thresholds, feature
    list and fitted model always, and the cluster count unless it was 0,
    which the constructor called by [load] replaces by the configured
    default.  The loaded trainer is accepted by [IMSScorer] exactly when
    the saved one is, and reports the same thresholds. *)
Theorem save_load_round_trip :
  forall (cfg : Config.Settings) (self : IMSTrainer Model)
         (model_id created_at : string),
    let loaded := load cfg (save self model_id created_at) in
    tau_fast loaded = tau_fast self /\
    tau_persist loaded = tau_persist self /\
    features loaded = features self /\
    model loaded = model self /\
    (n_clusters self <> 0%Z -> loaded = self) /\
    (n_clusters self = 0%Z ->
     n_clusters loaded = Config.ims_kmeans_clusters cfg) /\
    (forall s, scorer_init self = Ok s ->
       exists s', scorer_init loaded = Ok s' /\
                  get_thresholds s' = get_thresholds s) /\
    (forall e, scorer_init self = Raise e -> scorer_init loaded = Raise e).
Proof.
  intros cfg self model_id created_at loaded.
  assert (Hf : tau_fast loaded = tau_fast self) by reflexivity.
  assert (Hp : tau_persist loaded = tau_persist self) by reflexivity.
  split; [exact Hf|]. split; [exact Hp|].
  split; [reflexivity|]. split; [reflexivity|].
  split; [|split; [|split]].
  - intros Hn. unfold loaded, load, save, trainer_init. simpl.
    destruct (Z.eqb_spec (n_clusters self) 0) as [E | _]; [contradiction|].
    destruct self; reflexivity.
  - intros Hn. unfold loaded, load, save, trainer_init. simpl.
    rewrite Hn. reflexivity.
  - unfold loaded, load, save, scorer_init. simpl.
    destruct (tau_fast self) eqn:E1; [|discriminate].
    destruct (tau_persist self) eqn:E2; [|discriminate].
    intros s [= <-]. eexists. split; [reflexivity|].
    unfold get_thresholds. simpl. rewrite E1, E2. reflexivity.
  - unfold loaded, load, save, scorer_init. simpl.
    destruct (tau_fast self); [destruct (tau_persist self)|];
      intros e H; [discriminate | exact H | exact H].
Qed.

End TrainResult.

Section TrainResultExamples.
Import IMS.

Lemma train_result_is_scorable_witness :
  exists self' metrics,
    train origin_fit origin_deviation Config.default_settings
      (trainer_init Config.default_settings None) ramp_frame false
      = Ok (self', metrics) /\
    training_samples metrics = 100%nat /\
    scorer_init self' = Ok {| trainer := self' |}.
Proof.
  destruct (train origin_fit origin_deviation Config.default_settings
              (trainer_init Config.default_settings None) ramp_frame false)
    as [[self' metrics]|e] eqn:E; [|vm_compute in E; discriminate].
  exists self', metrics. split; [reflexivity|].
  destruct (train_result_is_scorable origin_fit origin_deviation
              _ _ _ _ _ _ E) as ((Hlo & Hhi) & _ & _ & _ & _ & _ & Hs & _).
  split; [|exact Hs].
  assert (Hr : length (rows ramp_frame) = 100%nat) by reflexivity.
  rewrite Hr in Hhi. lia.
Defined.

Lemma train_thresholds_within_deviations_witness :
  exists self' metrics lo hi tf tp,
    train origin_fit origin_deviation Config.default_settings
      (trainer_init Config.default_settings None) ramp_frame false
      = Ok (self', metrics) /\
    tau_fast self' = Some tf /\ tau_persist self' = Some tp /\
    lo <= tf /\ tf <= hi /\ lo <= tp /\ tp <= hi.
Proof.
  destruct (train origin_fit origin_deviation Config.default_settings
              (trainer_init Config.default_settings None) ramp_frame false)
    as [[self' metrics]|e] eqn:E; [|vm_compute in E; discriminate].
  destruct (train_thresholds_within_deviations origin_fit origin_deviation
              _ _ _ _ _ _ E)
    as (devs & lo & hi & tf & tp & _ & _ & _ & _ & Htf & Htp
        & [F1 F2] & [P1 P2] & _).
  exists self', metrics, lo, hi, tf, tp.
  repeat split; assumption.
Defined.

Lemma train_rejects_small_training_set_witness :
  train origin_fit origin_deviation Config.default_settings
    (trainer_init Config.default_settings None)
    (DataFrame_of [nominal_sample 20; nominal_sample 21]) true
  = Raise IMSNotTrainedException.
Proof.
  apply (proj1 (train_rejects_small_training_set origin_fit origin_deviation
                  Config.default_settings
                  (trainer_init Config.default_settings None)
                  (DataFrame_of [nominal_sample 20; nominal_sample 21]))).
  simpl. lia.
Defined.

Lemma save_load_round_trip_witness :
  load Config.default_settings (save (fitted_trainer 1 2) "ims_1" "t0")
  = fitted_trainer 1 2.
Proof.
  apply (proj1 (proj2 (proj2 (proj2 (proj2
           (save_load_round_trip Config.default_settings (fitted_trainer 1 2)
              "ims_1" "t0")))))).
  simpl. discriminate.
Defined.

End TrainResultExamples.

(** ** Scoring one sample *)

Section SampleFacts.
Import IMS.
Context {Model : Type}.
Variable deviation : Model -> list Q -> Q.

Lemma has_column_single (sample : gmap string Q) (k : string) :
  has_column (DataFrame_of [sample]) k = bool_decide (is_Some (sample !! k)).
Proof.
  apply eq_true_iff_eq. rewrite has_column_of, bool_decide_eq_true. split.
  - intros (s & [<- | []] & H). exact H.
  - intros H. exists sample. split; [left; reflexivity | exact H].
Qed.

(** X20.  For a sample that carries [delta_t] and needs no power derived
    from energy, and a scorer whose model is fitted: if the sample has
    every feature, [score_sample] returns the deviation of the feature
    values in feature order, whatever other fields the sample has; if
    not, it raises [KeyError] with exactly the missing features, in
    feature order. *)
Theorem score_sample_reads_features :
  forall (s : IMSScorer Model) (sample : gmap string Q) (m : Model),
    model (trainer s) = Some m ->
    is_Some (sample !! "delta_t") ->
    is_Some (sample !! "gpu_power_kw") \/ sample !! "gpu_energy_j" = None ->
    let missing :=
      List.filter (fun f => negb (bool_decide (is_Some (sample !! f))))
        (features (trainer s)) in
    (missing = [] ->
     score_sample deviation s sample
     = Ok (deviation m (map (fun f => default 0 (sample !! f))
                          (features (trainer s))))) /\
    (missing <> [] ->
     score_sample deviation s sample = Raise (KeyError missing)).
Proof.
  intros s sample m Hm Hd Hp missing.
  rewrite (score_sample_plan deviation s sample Hp).
  unfold row_plan. rewrite has_column_single.
  rewrite (bool_decide_eq_true_2 _ Hd).
  unfold select_plan.
  rewrite (filter_ext_on
             (fun f => negb (has_column (DataFrame_of [sample]) f))
             (fun f => negb (bool_decide (is_Some (sample !! f)))))
    by (intros x _; rewrite has_column_single; reflexivity).
  fold missing.
  split; intros H.
  - rewrite H. simpl. rewrite Hm. reflexivity.
  - destruct missing; [contradiction | reflexivity].
Qed.

End SampleFacts.

Section SampleExamples.
Import IMS.

Lemma score_sample_reads_features_witness :
  score_sample origin_deviation {| trainer := fitted_trainer 1 2 |}
    (sample_without_fan 20)
  = Raise (KeyError ["fan_rpm_pct"]).
Proof.
  apply (proj2 (score_sample_reads_features origin_deviation
                  {| trainer := fitted_trainer 1 2 |}
                  (sample_without_fan 20) tt eq_refl
                  ltac:(vm_compute; eauto)
                  ltac:(left; vm_compute; eauto))).
  vm_compute. discriminate.
Defined.

End SampleExamples.

(** ** Power derived from the cumulative energy *)

Section EnergyFacts.
Import IMS.

Lemma diff_lookup_S (xs : list (option Q)) (prev : option Q) (i : nat)
    (a b : Q) :
  xs !! i = Some (Some b) -> xs !! S i = Some (Some a) ->
  diff prev xs !! S i = Some (Some (a - b)).
Proof.
  revert prev i. induction xs as [|x xs IH]; intros prev i Hb Ha;
    [discriminate|].
  simpl. destruct i as [|i].
  - simpl in Hb. injection Hb as ->.
    destruct xs as [|y xs]; [discriminate|].
    simpl in Ha. injection Ha as ->. reflexivity.
  - simpl in Hb, Ha. apply IH; assumption.
Qed.

Lemma diff_lookup_0 (xs : list (option Q)) (x : option Q) :
  xs !! 0%nat = Some x -> diff None xs !! 0%nat = Some None.
Proof.
  destruct xs as [|y xs]; [discriminate|]. simpl.
  destruct y; reflexivity.
Qed.

Lemma set_column_lookup (c : string) (vs : list Q)
    (rs : list (gmap string Q)) (i : nat) (r : gmap string Q) (v : Q) :
  rs !! i = Some r -> vs !! i = Some v ->
  set_column c vs rs !! i = Some (<[c := v]> r).
Proof.
  revert vs i. induction rs as [|r0 rs IH]; intros vs i Hr Hv;
    [discriminate|].
  destruct vs as [|v0 vs]; [discriminate|].
  destruct i as [|i]; simpl in *.
  - injection Hr as ->. injection Hv as ->. reflexivity.
  - apply IH; assumption.
Qed.

(** X21.  When a frame has a cumulative-energy column and no power
    column, [prepare_features] derives the power of each row from the
    row before it: the first row gets 0, and a row whose own and whose
    predecessor's energy are present gets their difference divided by
    1000; the other fields of the rows are kept.  A frame that has a
    power column is left as it is. *)
Theorem derived_power_is_energy_difference :
  forall df : DataFrame,
    (has_column df "gpu_power_kw" = true -> derive_gpu_power df = df) /\
    (has_column df "gpu_power_kw" = false ->
     has_column df "gpu_energy_j" = true ->
     length (rows (derive_gpu_power df)) = length (rows df) /\
     has_column (derive_gpu_power df) "gpu_power_kw" = true /\
     (forall r, rows df !! 0%nat = Some r ->
        rows (derive_gpu_power df) !! 0%nat
        = Some (<["gpu_power_kw" := 0 / 1000.0]> r)) /\
     (forall i r1 r2 e1 e2,
        rows df !! i = Some r1 -> rows df !! S i = Some r2 ->
        r1 !! "gpu_energy_j" = Some e1 -> r2 !! "gpu_energy_j" = Some e2 ->
        rows (derive_gpu_power df) !! S i
        = Some (<["gpu_power_kw" := (e2 - e1) / 1000.0]> r2))).
Proof.
  intros df. split.
  - intros H. unfold derive_gpu_power. rewrite H. reflexivity.
  - intros Hp He.
    split; [apply derive_gpu_power_length|].
    unfold derive_gpu_power. rewrite Hp, He. cbn [negb andb rows].
    split; [|split].
    + rewrite has_column_insert. reflexivity.
    + intros r Hr. apply set_column_lookup; [exact Hr|].
      unfold gpu_power_from_energy. rewrite list_lookup_fmap.
      rewrite (diff_lookup_0 _ (r !! "gpu_energy_j")); [reflexivity|].
      rewrite list_lookup_fmap, Hr. reflexivity.
    + intros i r1 r2 e1 e2 H1 H2 E1 E2.
      apply set_column_lookup; [exact H2|].
      unfold gpu_power_from_energy. rewrite list_lookup_fmap.
      rewrite (diff_lookup_S _ None i e2 e1); [reflexivity | |].
      * rewrite list_lookup_fmap, H1. simpl. rewrite E1. reflexivity.
      * rewrite list_lookup_fmap, H2. simpl. rewrite E2. reflexivity.
Qed.

Lemma derived_power_is_energy_difference_witness :
  rows (derive_gpu_power
          (DataFrame_of [energy_only 1000; energy_only 4000])) !! 1%nat
  = Some (<["gpu_power_kw" := (4000 - 1000) / 1000.0]> (energy_only 4000)).
Proof.
  refine (proj2 (proj2 (proj2
            (proj2 (derived_power_is_energy_difference
                      (DataFrame_of [energy_only 1000; energy_only 4000]))
               _ _)))
          0%nat (energy_only 1000) (energy_only 4000) 1000 4000 _ _ _ _);
    vm_compute; reflexivity.
Defined.

Lemma gpu_power_single (r : gmap string Q) :
  gpu_power_from_energy [r] = [0 / 1000.0].
Proof.
  unfold gpu_power_from_energy. cbn [map diff].
  destruct (r !! "gpu_energy_j"); reflexivity.
Qed.

Lemma with_delta_t_agree (r1 r2 : gmap string Q) :
  (forall j, j <> "gpu_energy_j" -> r1 !! j = r2 !! j) ->
  forall j, j <> "gpu_energy_j" -> with_delta_t r1 !! j = with_delta_t r2 !! j.
Proof.
  intros H j Hj. unfold with_delta_t.
  rewrite (H "outlet_c"), (H "inlet_c") by discriminate.
  destruct (r2 !! "outlet_c") as [o|], (r2 !! "inlet_c") as [i|];
    destruct (decide (j = "delta_t")) as [-> | Hne];
    rewrite ?lookup_insert_eq, ?lookup_delete_eq,
            ?lookup_insert_ne, ?lookup_delete_ne by congruence;
    auto.
Qed.

Lemma select_derive_agree (fs : list string) (C : gset string)
    (r1 r2 : gmap string Q) :
  ~ In "gpu_energy_j" fs ->
  (forall j, j <> "gpu_energy_j" -> r1 !! j = r2 !! j) ->
  select_features fs (derive_gpu_power {| columns := C; rows := [r1] |})
  = select_features fs (derive_gpu_power {| columns := C; rows := [r2] |}).
Proof.
  intros Hfs H.
  assert (Hrow : forall g1 g2 : gmap string Q,
             (forall j, j <> "gpu_energy_j" -> g1 !! j = g2 !! j) ->
             map (fun f => default 0 (g1 !! f)) fs
             = map (fun f => default 0 (g2 !! f)) fs).
  { intros g1 g2 Hg. apply map_ext_in. intros f Hf.
    rewrite (Hg f); [reflexivity|]. intros ->. contradiction. }
  unfold derive_gpu_power, has_column. cbn [columns rows].
  destruct (negb (bool_decide ("gpu_power_kw" ∈ C))
            && bool_decide ("gpu_energy_j" ∈ C)).
  - rewrite !gpu_power_single. cbn [set_column].
    unfold select_features, has_column. cbn [columns rows].
    destruct (List.filter _ fs); [|reflexivity].
    cbn [map]. rewrite (Hrow (<["gpu_power_kw" := 0 / 1000.0]> r1)
                          (<["gpu_power_kw" := 0 / 1000.0]> r2));
      [reflexivity|].
    intros j Hj.
    destruct (decide (j = "gpu_power_kw")) as [-> | Hne].
    + rewrite !lookup_insert_eq. reflexivity.
    + rewrite !lookup_insert_ne by congruence. apply H. exact Hj.
  - unfold select_features, has_column. cbn [columns rows].
    destruct (List.filter _ fs); [|reflexivity].
    cbn [map]. rewrite (Hrow r1 r2 H). reflexivity.
Qed.

Lemma prepare_features_single_agree (fs : list string) (C : gset string)
    (r1 r2 : gmap string Q) :
  ~ In "gpu_energy_j" fs ->
  (forall j, j <> "gpu_energy_j" -> r1 !! j = r2 !! j) ->
  prepare_features fs {| columns := C; rows := [r1] |}
  = prepare_features fs {| columns := C; rows := [r2] |}.
Proof.
  intros Hfs H. unfold prepare_features, derive_delta_t, has_column.
  cbn [columns rows].
  destruct (bool_decide ("delta_t" ∈ C)).
  - cbn [mbind result_bind]. apply select_derive_agree; assumption.
  - destruct (negb (bool_decide ("outlet_c" ∈ C))); [reflexivity|].
    destruct (negb (bool_decide ("inlet_c" ∈ C))); [reflexivity|].
    cbn [mbind result_bind map].
    apply select_derive_agree; [exact Hfs|].
    apply with_delta_t_agree. exact H.
Qed.

Context {Model : Type}.
Variable deviation : Model -> list Q -> Q.

(** X22.  Scoring a single sample never reads its energy counter: with a
    feature list that does not name [gpu_energy_j] (the trainer's default
    list does not), two samples that differ only in that field get the
    same score or the same exception.  The power derived for a one-row
    frame is the first-row value 0, so a sample that reports energy
    instead of power is scored with power 0. *)
Theorem score_sample_ignores_energy :
  forall (s : IMSScorer Model) (sample : gmap string Q) (e1 e2 : Q),
    ~ In "gpu_energy_j" (features (trainer s)) ->
    score_sample deviation s (<["gpu_energy_j" := e1]> sample)
    = score_sample deviation s (<["gpu_energy_j" := e2]> sample).
Proof.
  intros s sample e1 e2 Hfs. unfold score_sample, DataFrame_of.
  cbn [fmap list_fmap union_list foldr].
  rewrite !dom_insert_L.
  rewrite (prepare_features_single_agree (features (trainer s)) _
             (<["gpu_energy_j" := e1]> sample)
             (<["gpu_energy_j" := e2]> sample) Hfs); [reflexivity|].
  intros j Hj. rewrite !lookup_insert_ne by congruence. reflexivity.
Qed.

End EnergyFacts.

Section EnergyExamples.
Import IMS.

Lemma score_sample_ignores_energy_witness :
  score_sample origin_deviation {| trainer := fitted_trainer 1 2 |}
    (<["gpu_energy_j" := 5000]> (delete "gpu_power_kw" (nominal_sample 20)))
  = score_sample origin_deviation {| trainer := fitted_trainer 1 2 |}
    (<["gpu_energy_j" := 9000]> (delete "gpu_power_kw" (nominal_sample 20))).
Proof.
  apply (score_sample_ignores_energy origin_deviation
           {| trainer := fitted_trainer 1 2 |}
           (delete "gpu_power_kw" (nominal_sample 20)) 5000 9000).
  vm_compute. intros H.
  repeat (destruct H as [H | H]; [discriminate|]). exact H.
Defined.

End EnergyExamples.
